(** * Land-cover change detection (backend-python/lulc.py)

    A shallow embedding of the numeric core of [lulc.py]: the three index
    calculators, the priority classifier, the percentage aggregator, the
    change detector and the part of [run_lulc_change_analysis] that builds
    the result record; then [read_and_preprocess] and
    [generate_rgb_preview], both from the decoded raster on.

    Numbers.  NumPy floats are modelled by [num]: exact rationals kept in
    lowest terms, extended with the IEEE special values nan, +inf and -inf
    so that a division by zero behaves as it does in NumPy (a warning and a
    special value, never an exception).  Rounding, overflow and the sign of
    zero are not modelled, and the theorems stated on [num] are those that
    rounding and overflow leave alone: comparisons, shapes, formulas,
    pixel counts, and bounds that a monotone rounding keeps.  Where
    rounding decides, as for the sum of the percentages, the code is
    evaluated on the binary64 numbers of the kernel (module [F64]).

    Arrays.  A 2-D array is a shape and its elements in row-major order; a
    band-stacked image is a shape and one list of band values per pixel.
    Binary array operators broadcast as NumPy does, boolean-mask assignment
    demands equal shapes.

    Decoding rasters, plotting and the contents of the files written are
    left out: they do not feed back into the values computed here.  Of
    logging and of saving a picture only the exceptions are kept. *)

From Stdlib Require Import Bool Arith ZArith QArith Qabs Qround Lia Lqa Sorted
  String List.
From Stdlib Require Qcanon PrimFloat FloatOps SpecFloat Uint63.
Import ListNotations.
Open Scope nat_scope.

Set Implicit Arguments.

(** ** Numbers *)

Module Num.

Inductive num : Type :=
| Fin (q : Q)
| PInf
| NInf
| NaN.

Definition of_nat (n : nat) : num := Fin (inject_Z (Z.of_nat n)).

Definition zero : num := Fin 0.
Definition one : num := Fin 1.

Definition isnan (x : num) : bool :=
  match x with NaN => true | _ => false end.

Definition is_finite (x : num) : bool :=
  match x with Fin _ => true | _ => false end.

(** Sign of a rational as a comparison with zero. *)
Definition sgn (q : Q) : comparison := (q ?= 0)%Q.

Definition neg (x : num) : num :=
  match x with
  | Fin a => Fin (Qred (- a))
  | PInf => NInf
  | NInf => PInf
  | NaN => NaN
  end.

Definition abs (x : num) : num :=
  match x with
  | Fin a => Fin (Qred (Qabs a))
  | PInf | NInf => PInf
  | NaN => NaN
  end.

Definition add (x y : num) : num :=
  match x, y with
  | NaN, _ | _, NaN => NaN
  | PInf, NInf | NInf, PInf => NaN
  | PInf, _ | _, PInf => PInf
  | NInf, _ | _, NInf => NInf
  | Fin a, Fin b => Fin (Qred (a + b))
  end.

Definition sub (x y : num) : num :=
  match x, y with
  | NaN, _ | _, NaN => NaN
  | PInf, PInf | NInf, NInf => NaN
  | PInf, _ | _, NInf => PInf
  | NInf, _ | _, PInf => NInf
  | Fin a, Fin b => Fin (Qred (a - b))
  end.

(** An infinity of the sign given by [c]; nan for the sign of zero. *)
Definition signed_inf (c : comparison) : num :=
  match c with Gt => PInf | Lt => NInf | Eq => NaN end.

Definition mul (x y : num) : num :=
  match x, y with
  | NaN, _ | _, NaN => NaN
  | Fin a, Fin b => Fin (Qred (a * b))
  | Fin a, PInf | PInf, Fin a => signed_inf (sgn a)
  | Fin a, NInf | NInf, Fin a => signed_inf (CompOpp (sgn a))
  | PInf, PInf | NInf, NInf => PInf
  | PInf, NInf | NInf, PInf => NInf
  end.

(** Division as NumPy performs it on floats: a zero divisor gives an
    infinity of the sign of the dividend, and nan for 0/0. *)
Definition div (x y : num) : num :=
  match x, y with
  | NaN, _ | _, NaN => NaN
  | Fin a, Fin b =>
      match sgn b with
      | Eq => signed_inf (sgn a)
      | _ => Fin (Qred (a / b))
      end
  | Fin _, (PInf | NInf) => Fin 0
  | PInf, Fin b => match sgn b with Lt => NInf | _ => PInf end
  | NInf, Fin b => match sgn b with Lt => PInf | _ => NInf end
  | (PInf | NInf), (PInf | NInf) => NaN
  end.

(** Ordered comparison; [None] when an operand is nan. *)
Definition cmp (x y : num) : option comparison :=
  match x, y with
  | NaN, _ | _, NaN => None
  | Fin a, Fin b => Some (a ?= b)%Q
  | PInf, PInf | NInf, NInf => Some Eq
  | PInf, _ | _, NInf => Some Gt
  | NInf, _ | _, PInf => Some Lt
  end.

Definition gt (x y : num) : bool :=
  match cmp x y with Some Gt => true | _ => false end.
Definition lt (x y : num) : bool :=
  match cmp x y with Some Lt => true | _ => false end.
Definition ge (x y : num) : bool :=
  match cmp x y with Some Gt | Some Eq => true | _ => false end.
Definition le (x y : num) : bool :=
  match cmp x y with Some Lt | Some Eq => true | _ => false end.
Definition eqb (x y : num) : bool :=
  match cmp x y with Some Eq => true | _ => false end.

(** [np.maximum] and [np.minimum]: a nan operand wins. *)
Definition maximum (x y : num) : num :=
  if isnan x then x else if isnan y then y else if lt x y then y else x.
Definition minimum (x y : num) : num :=
  if isnan x then x else if isnan y then y else if lt y x then y else x.

(** [np.clip(x, lo, hi)] is [minimum(maximum(x, lo), hi)]. *)
Definition clip (x lo hi : num) : num := minimum (maximum x lo) hi.

(** [lo <= x <= hi] as a proposition; false when [x] is nan. *)
Definition between (lo hi x : num) : Prop := le lo x = true /\ le x hi = true.

End Num.
Import Num.

Declare Scope num_scope.
Delimit Scope num_scope with num.
Bind Scope num_scope with num.
Notation "x + y" := (add x y) : num_scope.
Notation "x - y" := (sub x y) : num_scope.
Notation "x * y" := (mul x y) : num_scope.
Notation "x / y" := (div x y) : num_scope.

(** ** Exceptions *)

(** The exceptions of NumPy and Python that the code can meet, and
    [SaveError] for the error with which Pillow refuses to write an image
    without pixels (a [SystemError] or a [ValueError], by its version). *)
Inductive exn : Type := IndexError | ValueError | KeyError | SaveError.

Inductive result (A : Type) : Type :=
| Ok (a : A)
| Raise (e : exn).
Arguments Ok {A} a.
Arguments Raise {A} e.

Definition bind {A B : Type} (c : result A) (k : A -> result B) : result B :=
  match c with
  | Ok a => k a
  | Raise e => Raise e
  end.

Notation "x <- c ;; k" := (bind c (fun x => k))
  (at level 61, c at next level, right associativity).

(** ** Two-dimensional arrays *)

Record ndarray (A : Type) : Type := mk_ndarray {
  shape0 : nat;
  shape1 : nat;
  flat : list A
}.

(** Broadcasting of one axis: equal extents, or one of them is 1. *)
Definition broadcast_dim (n m : nat) : option nat :=
  if n =? m then Some n
  else if n =? 1 then Some m
  else if m =? 1 then Some n
  else None.

(** Index along an axis of extent [n] when it is stretched. *)
Definition bidx (n i : nat) : nat := if n =? 1 then 0 else i.

Section Arrays.
Context {A B : Type}.

(** [a.size] *)
Definition size (a : ndarray A) : nat := shape0 a * shape1 a.

(** The element list has as many entries as the shape says. *)
Definition wf (a : ndarray A) : Prop := length (flat a) = size a.

Definition same_shape (a : ndarray A) (b : ndarray B) : Prop :=
  shape0 a = shape0 b /\ shape1 a = shape1 b.

Definition shape_eqb (a : ndarray A) (b : ndarray B) : bool :=
  (shape0 a =? shape0 b) && (shape1 a =? shape1 b).

(** [a[i, j]] for indices inside the shape. *)
Definition item (a : ndarray A) (i j : nat) : option A :=
  if (i <? shape0 a) && (j <? shape1 a)
  then nth_error (flat a) (i * shape1 a + j)
  else None.

(** A unary ufunc, or an operator with a scalar on one side. *)
Definition amap (f : A -> B) (a : ndarray A) : ndarray B :=
  mk_ndarray (shape0 a) (shape1 a) (map f (flat a)).

(** The element that position (i, j) of a broadcast result reads. *)
Definition bitem (d : A) (a : ndarray A) (i j : nat) : A :=
  nth (bidx (shape0 a) i * shape1 a + bidx (shape1 a) j) (flat a) d.

End Arrays.

(** A binary ufunc: the operands are broadcast against each other, and
    shapes that cannot be broadcast raise [ValueError]. *)
Definition np_binop {A B C : Type} (da : A) (db : B) (f : A -> B -> C)
    (a : ndarray A) (b : ndarray B) : result (ndarray C) :=
  match broadcast_dim (shape0 a) (shape0 b),
        broadcast_dim (shape1 a) (shape1 b) with
  | Some h, Some w =>
      Ok (mk_ndarray h w
            (map (fun k => f (bitem da a (k / w) (k mod w))
                             (bitem db b (k / w) (k mod w)))
                 (seq 0 (h * w))))
  | _, _ => Raise ValueError
  end.

Definition np_add := np_binop NaN NaN add.
Definition np_sub := np_binop NaN NaN sub.
Definition np_div := np_binop NaN NaN div.
Definition np_or := np_binop false false orb.

(** [np.zeros((h, w))] *)
Definition np_zeros (h w : nat) : ndarray num :=
  mk_ndarray h w (repeat zero (h * w)).

(** [np.clip(a, lo, hi)] *)
Definition np_clip (a : ndarray num) (lo hi : num) : ndarray num :=
  amap (fun x => clip x lo hi) a.

(** [np.sum(a)]; in exact arithmetic the order of the additions does not
    matter. *)
Definition np_sum (a : ndarray num) : num :=
  fold_left add (flat a) zero.

(** [target[cond] = v]: the boolean index must have the shape of the
    indexed array, otherwise NumPy raises [IndexError]. *)
Definition mask_assign {A : Type} (target : ndarray A) (cond : ndarray bool)
    (v : A) : result (ndarray A) :=
  if shape_eqb target cond
  then Ok (mk_ndarray (shape0 target) (shape1 target)
             (map (fun tc : A * bool => if snd tc then v else fst tc)
                  (combine (flat target) (flat cond))))
  else Raise IndexError.

(** ** Band-stacked images *)

(** An array of shape (height, width, bands): the pixels in row-major
    order, each with its band values. *)
Record image : Type := mk_image {
  height : nat;
  width : nat;
  bands : nat;
  pixels : list (list num)
}.

(** There are height x width pixels and each has all the bands. *)
Definition wf_image (im : image) : Prop :=
  length (pixels im) = height im * width im /\
  Forall (fun p => length p = bands im) (pixels im).


(** [image[:, :, k]] *)
Definition band (im : image) (k : nat) : result (ndarray num) :=
  if k <? bands im
  then Ok (mk_ndarray (height im) (width im)
             (map (fun p => nth k p NaN) (pixels im)))
  else Raise IndexError.

(** [image[i, j, k]] *)
Definition voxel (im : image) (i j k : nat) : option num :=
  if (i <? height im) && (j <? width im)
  then match nth_error (pixels im) (i * width im + j) with
       | Some p => nth_error p k
       | None => None
       end
  else None.

(** ** Index calculator *)

Definition eps : num := Fin (1 # 100000000).
Definition minus_one : num := Fin (-1).

(** Band 0 is blue, 1 green, 2 red, 3 near infrared, 4 short-wave
    infrared.  The warning logged when bands are missing is not modelled. *)
Definition calculate_ndvi (im : image) : result (ndarray num) :=
  if bands im <? 4 then Ok (np_zeros (height im) (width im))
  else
    nir <- band im 3 ;;
    red <- band im 2 ;;
    d <- np_sub nir red ;;
    s <- np_add nir red ;;
    ndvi <- np_div d (amap (fun x => x + eps)%num s) ;;
    Ok (np_clip ndvi minus_one one).

Definition calculate_ndwi (im : image) : result (ndarray num) :=
  if bands im <? 4 then Ok (np_zeros (height im) (width im))
  else
    green <- band im 1 ;;
    nir <- band im 3 ;;
    d <- np_sub green nir ;;
    s <- np_add green nir ;;
    ndwi <- np_div d (amap (fun x => x + eps)%num s) ;;
    Ok (np_clip ndwi minus_one one).

Definition calculate_ndbi (im : image) : result (ndarray num) :=
  if bands im <? 5 then Ok (np_zeros (height im) (width im))
  else
    swir <- band im 4 ;;
    nir <- band im 3 ;;
    d <- np_sub swir nir ;;
    s <- np_add swir nir ;;
    ndbi <- np_div d (amap (fun x => x + eps)%num s) ;;
    Ok (np_clip ndbi minus_one one).

(** The index of the specification, section 4.1: the normalised
    difference [(a - b) / (a + b + eps)], clipped to [-1, 1] after the
    division. *)
Definition normalized_difference (a b : num) : num :=
  clip ((a - b) / (a + b + eps))%num minus_one one.

(** Numerator and denominator of the normalised difference are both zero. *)
Definition zero_over_zero (a b : num) : bool :=
  eqb (a - b)%num zero && eqb (a + b + eps)%num zero.



(** An array of shape (h, w) whose every element is 0.0. *)
Definition is_zeros (h w : nat) (a : ndarray num) : Prop :=
  length (flat a) = h * w /\ shape0 a = h /\ shape1 a = w /\
  forall i j, i < h -> j < w -> item a i j = Some zero.


(** ** Land-cover classifier *)

Definition half : num := Fin (1 # 2).
Definition tenth : num := Fin (1 # 10).
Definition minus_tenth : num := Fin (-1 # 10).

(** [.astype(float)] on a boolean array *)
Definition b2f (b : bool) : num := if b then one else zero.

Definition np_and := np_binop false false andb.

(** [a > 0] on a float mask, the boolean index of the priority passes. *)
Definition positive (a : ndarray num) : ndarray bool :=
  amap (fun x => gt x zero) a.

(** The five masks, in the order in which the code returns them:
    built-up, water, forest, vegetation, barren. *)
Definition masks : Type :=
  (ndarray num * ndarray num * ndarray num * ndarray num * ndarray num)%type.

Definition classify_land_cover (ndvi ndwi ndbi : ndarray num) : result masks :=
  let built_up := amap b2f (amap (fun x => gt x zero) ndbi) in
  let forest := amap b2f (amap (fun x => gt x half) ndvi) in
  veg_b <- np_and (amap (fun x => gt x tenth) ndvi)
                  (amap (fun x => le x half) ndvi) ;;
  let vegetation := amap b2f veg_b in
  let water := amap b2f (amap (fun x => gt x zero) ndwi) in
  bar_b <- np_and (amap (fun x => ge x minus_tenth) ndvi)
                  (amap (fun x => le x tenth) ndvi) ;;
  let barren := amap b2f bar_b in
  vegetation <- mask_assign vegetation (positive built_up) zero ;;
  forest <- mask_assign forest (positive built_up) zero ;;
  barren <- mask_assign barren (positive built_up) zero ;;
  forest <- mask_assign forest (positive water) zero ;;
  vegetation <- mask_assign vegetation (positive water) zero ;;
  barren <- mask_assign barren (positive water) zero ;;
  built_up <- mask_assign built_up (positive water) zero ;;
  Ok (built_up, water, forest, vegetation, barren).

(** The classifier at one pixel, as section 4.2 of the specification words
    it: the five predicates, then built-up clears vegetation, forest and
    barren, then water clears everything else.  The masks are returned in
    the order built-up, water, forest, vegetation, barren. *)
Definition classify_pixel (ndvi ndwi ndbi : num)
  : num * num * num * num * num :=
  let built_up := gt ndbi zero in
  let forest := gt ndvi half in
  let vegetation := gt ndvi tenth && le ndvi half in
  let water := gt ndwi zero in
  let barren := ge ndvi minus_tenth && le ndvi tenth in
  let lower (c : bool) := c && negb built_up && negb water in
  (b2f (built_up && negb water), b2f water,
   b2f (lower forest), b2f (lower vegetation), b2f (lower barren)).

(** The three index values of each pixel, side by side. *)
Definition zip3 (ndvi ndwi ndbi : ndarray num) : list (num * (num * num)) :=
  combine (flat ndvi) (combine (flat ndwi) (flat ndbi)).

Definition px_built_up (t : num * (num * num)) : num :=
  let '(b, _, _, _, _) := classify_pixel (fst t) (fst (snd t)) (snd (snd t)) in b.
Definition px_water (t : num * (num * num)) : num :=
  let '(_, w, _, _, _) := classify_pixel (fst t) (fst (snd t)) (snd (snd t)) in w.
Definition px_forest (t : num * (num * num)) : num :=
  let '(_, _, f, _, _) := classify_pixel (fst t) (fst (snd t)) (snd (snd t)) in f.
Definition px_vegetation (t : num * (num * num)) : num :=
  let '(_, _, _, v, _) := classify_pixel (fst t) (fst (snd t)) (snd (snd t)) in v.
Definition px_barren (t : num * (num * num)) : num :=
  let '(_, _, _, _, b) := classify_pixel (fst t) (fst (snd t)) (snd (snd t)) in b.

(** How many of the given mask values are 1.0. *)
Definition count_ones (l : list num) : nat :=
  length (filter (fun x => eqb x one) l).

(** A mask value is 0.0 or 1.0. *)
Definition binary (x : num) : Prop := x = zero \/ x = one.

(** ** Percentage aggregator *)

(** A Python dict with string keys, in insertion order. *)
Definition dict : Type := list (string * num).

(** [d[k]] *)
Fixpoint dict_get (d : dict) (k : string) : result num :=
  match d with
  | [] => Raise KeyError
  | (k', v) :: rest => if String.eqb k' k then Ok v else dict_get rest k
  end.

Definition hundred : num := Fin 100.

Definition class_names : list string :=
  ["Built-up Area"; "Water"; "Forest"; "Vegetation"; "Barren Land"]%string.

(** [np.sum(mask) / total_pixels * 100] *)
Definition percentage (mask : ndarray num) (total_pixels : nat) : num :=
  (np_sum mask / of_nat total_pixels * hundred)%num.

Definition calculate_land_cover_percentages (m : masks) : dict :=
  let '(built_up, water, forest, vegetation, barren) := m in
  let total_pixels := size built_up in
  [ ("Built-up Area"%string, percentage built_up total_pixels);
    ("Water"%string, percentage water total_pixels);
    ("Forest"%string, percentage forest total_pixels);
    ("Vegetation"%string, percentage vegetation total_pixels);
    ("Barren Land"%string, percentage barren total_pixels) ].

(** The percentage of the specification, section 4.3: the count of
    1.0-valued pixels over the pixel count height x width, times 100. *)
Definition spec_percentage (h w : nat) (mask : ndarray num) : num :=
  (of_nat (count_ones (flat mask)) / of_nat (h * w) * hundred)%num.

(** The rational behind a percentage of a non-empty array. *)
Definition ratio (c n : nat) : Q :=
  (inject_Z (Z.of_nat c) / inject_Z (Z.of_nat n))%Q.

(** The array without pixels, and five of them. *)
Definition empty_mask : ndarray num := mk_ndarray 0 0 [].
Definition empty_masks : masks :=
  (empty_mask, empty_mask, empty_mask, empty_mask, empty_mask).

(** A three-band image without pixels. *)
Definition empty_image : image := mk_image 0 0 3 [].

(** ** Change detector *)

Definition change_threshold : num := Fin (1 # 10).

(** [np.abs(m2 - m1) > change_threshold] *)
Definition class_change (m1 m2 : ndarray num) : result (ndarray bool) :=
  d <- np_sub m2 m1 ;;
  Ok (amap (fun x => gt (abs x) change_threshold) d).

(** The boolean array [total_change] of [create_change_map]. *)
Definition total_change (masks1 masks2 : masks) : result (ndarray bool) :=
  let '(built1, water1, forest1, veg1, bar1) := masks1 in
  let '(built2, water2, forest2, veg2, bar2) := masks2 in
  built_up_change <- class_change built1 built2 ;;
  water_change <- class_change water1 water2 ;;
  forest_change <- class_change forest1 forest2 ;;
  vegetation_change <- class_change veg1 veg2 ;;
  barren_change <- class_change bar1 bar2 ;;
  t <- np_or built_up_change water_change ;;
  t <- np_or t forest_change ;;
  t <- np_or t vegetation_change ;;
  np_or t barren_change.

(** [Image.fromarray(a).save(output_path)]: an image of which an extent is
    zero cannot be written, and the call raises; the file that is written
    otherwise is not modelled. *)
Definition image_save {A : Type} (a : ndarray A) : result unit :=
  if (shape0 a =? 0) || (shape1 a =? 0) then Raise SaveError else Ok tt.

(** The returned [uint8] picture: 255 (white) where [total_change] holds,
    0 (black) elsewhere.  It is saved before it is returned. *)
Definition create_change_map (masks1 masks2 : masks) : result (ndarray Z) :=
  tc <- total_change masks1 masks2 ;;
  let change_map :=
    mk_ndarray (shape0 tc) (shape1 tc)
      (repeat 0%Z (shape0 tc * shape1 tc)) in
  change_map <- mask_assign change_map tc 255%Z ;;
  _ <- image_save change_map ;;
  Ok change_map.

(** The five mask values of a pixel, in the order of the tuple. *)
Definition at_pixel (m : masks) (i j : nat) : option (list num) :=
  let '(built_up, water, forest, vegetation, barren) := m in
  match item built_up i j, item water i j, item forest i j,
        item vegetation i j, item barren i j with
  | Some b, Some w, Some f, Some v, Some n => Some [b; w; f; v; n]
  | _, _, _, _, _ => None
  end.

(** The five arrays are well formed and of shape (h, w). *)
Definition has_shape {A : Type} (h w : nat) (a : ndarray A) : Prop :=
  wf a /\ shape0 a = h /\ shape1 a = w.

Definition masks_of_shape (h w : nat) (m : masks) : Prop :=
  let '(built_up, water, forest, vegetation, barren) := m in
  has_shape h w built_up /\ has_shape h w water /\ has_shape h w forest /\
  has_shape h w vegetation /\ has_shape h w barren.

(** Every value of the five arrays is 0.0 or 1.0. *)
Definition binary_masks (m : masks) : Prop :=
  let '(built_up, water, forest, vegetation, barren) := m in
  Forall binary (flat built_up) /\ Forall binary (flat water) /\
  Forall binary (flat forest) /\ Forall binary (flat vegetation) /\
  Forall binary (flat barren).

(** The membership of one class differs by more than the threshold. *)
Definition flipped (x1 x2 : num) : bool := gt (abs (x2 - x1)%num) change_threshold.

(** [r] has the shape of [a] and holds [f] of the operands at every pixel. *)
Definition pointwise {A B C : Type} (f : A -> B -> C)
    (a : ndarray A) (b : ndarray B) (r : ndarray C) : Prop :=
  has_shape (shape0 a) (shape1 a) r /\
  forall i j x y, item a i j = Some x -> item b i j = Some y ->
    item r i j = Some (f x y).

(** ** Pipeline *)

(** [{k: perc2[k] - perc1[k] for k in perc1}] *)
Fixpoint change_stats (perc1 perc2 : dict) : result dict :=
  match perc1 with
  | [] => Ok []
  | (k, v1) :: rest =>
      v2 <- dict_get perc2 k ;;
      r <- change_stats rest perc2 ;;
      Ok ((k, (v2 - v1)%num) :: r)
  end.

(** [sum(abs(v) for v in change_stats.values()) / 2] *)
Definition total_change_area (change : dict) : num :=
  (fold_left add (map (fun kv => abs (snd kv)) change) zero / Fin 2)%num.

(** A percentage record: the five class names, in the order in which
    [calculate_land_cover_percentages] inserts them. *)
Definition percentage_record (d : dict) : Prop := map fst d = class_names.

(** The record with every value negated. *)
Definition negated (d : dict) : dict := map (fun kv => (fst kv, neg (snd kv))) d.

(** The dict returned by [run_lulc_change_analysis]. *)
Record analysis : Type := mk_analysis {
  res_image1 : dict;
  res_image2 : dict;
  res_change : dict;
  res_total_change_area : num
}.

(** Steps 3 to 7 of [run_lulc_change_analysis], on the two decoded
    images.  The previews, the graph and the CSV file are not modelled. *)
Definition run_lulc_change_analysis (image1 image2 : image) : result analysis :=
  ndvi1 <- calculate_ndvi image1 ;;
  ndvi2 <- calculate_ndvi image2 ;;
  ndwi1 <- calculate_ndwi image1 ;;
  ndwi2 <- calculate_ndwi image2 ;;
  ndbi1 <- calculate_ndbi image1 ;;
  ndbi2 <- calculate_ndbi image2 ;;
  masks1 <- classify_land_cover ndvi1 ndwi1 ndbi1 ;;
  masks2 <- classify_land_cover ndvi2 ndwi2 ndbi2 ;;
  _ <- create_change_map masks1 masks2 ;;
  let perc1 := calculate_land_cover_percentages masks1 in
  let perc2 := calculate_land_cover_percentages masks2 in
  change <- change_stats perc1 perc2 ;;
  Ok (mk_analysis perc1 perc2 change (total_change_area change)).

(** ** Sample inputs *)

(** Two pixels of five bands: a forested one also bright in short-wave
    infrared, and a water one. *)
Definition sample_image : image :=
  mk_image 1 2 5
    [ [Fin 0; Fin (1 # 10); Fin (1 # 5); Fin (4 # 5); Fin 1];
      [Fin (1 # 10); Fin (3 # 5); Fin (1 # 10); Fin (1 # 10); Fin (1 # 20)] ].

(** The same two pixels with red, green and blue only. *)
Definition rgb_image : image :=
  mk_image 1 2 3
    [ [Fin 0; Fin (1 # 10); Fin (1 # 5)];
      [Fin (1 # 10); Fin (3 # 5); Fin (1 # 10)] ].

(** The two scenarios of the specification, section 8: NDVI 0.6 with NDBI
    0.2 and no water, and NDWI 0.3 with NDBI 0.2. *)
Definition sample_ndvi : ndarray num :=
  mk_ndarray 1 2 [Fin (6 # 10); Fin 0].
Definition sample_ndwi : ndarray num :=
  mk_ndarray 1 2 [Fin (-1 # 5); Fin (3 # 10)].
Definition sample_ndbi : ndarray num :=
  mk_ndarray 1 2 [Fin (2 # 10); Fin (2 # 10)].

(** Their classification: built-up, then water. *)
Definition sample_built_up : ndarray num := mk_ndarray 1 2 [one; zero].
Definition sample_water : ndarray num := mk_ndarray 1 2 [zero; one].
Definition sample_none : ndarray num := mk_ndarray 1 2 [zero; zero].
Definition sample_masks : masks :=
  (sample_built_up, sample_water, sample_none, sample_none, sample_none).

(** Two pixels, both barren. *)
Definition barren_masks : masks :=
  (sample_none, sample_none, sample_none, sample_none,
   mk_ndarray 1 2 [one; one]).

(** The result of the pipeline on the five-band and the three-band sample
    image: half built-up and half water against all barren. *)
Definition sample_run : analysis :=
  mk_analysis
    (calculate_land_cover_percentages sample_masks)
    (calculate_land_cover_percentages barren_masks)
    (combine class_names [Fin (-50); Fin (-50); zero; zero; hundred])
    hundred.

(** ** Reading and normalising a raster *)

(** What [src.read()] returns: an array of shape (count, height, width),
    one row-major plane per band. *)
Record raster : Type := mk_raster {
  rcount : nat;
  rheight : nat;
  rwidth : nat;
  planes : list (list num)
}.

(** There are [rcount] planes of height x width values each. *)
Definition wf_raster (r : raster) : Prop :=
  length (planes r) = rcount r /\
  Forall (fun pl => length pl = rheight r * rwidth r) (planes r).

(** [np.moveaxis(image, 0, -1)]: from (bands, height, width) to
    (height, width, bands). *)
Definition moveaxis (r : raster) : image :=
  mk_image (rheight r) (rwidth r) (rcount r)
    (map (fun n => map (fun pl => nth n pl NaN) (planes r))
         (seq 0 (rheight r * rwidth r))).

(** All the values of an image, in memory order. *)
Definition voxels (im : image) : list num := concat (pixels im).

(** [a.max()]: nan propagates, and an array without elements raises
    [ValueError]. *)
Definition np_max (l : list num) : result num :=
  match l with
  | [] => Raise ValueError
  | x :: rest => Ok (fold_left maximum rest x)
  end.

(** [image / d] with a scalar [d] *)
Definition image_div (im : image) (d : num) : image :=
  mk_image (height im) (width im) (bands im)
    (map (map (fun x => x / d)%num) (pixels im)).

(** The part of [read_and_preprocess] after the raster is decoded: the
    axes are moved, and the image is divided by 255 when its maximum
    exceeds 1.  Exceptions are logged and raised again. *)
Definition read_and_preprocess (r : raster) : result image :=
  let image := moveaxis r in
  m <- np_max (voxels image) ;;
  if gt m one then Ok (image_div image (Fin 255)) else Ok image.

(** Steps 2 to 7 of [run_lulc_change_analysis]: both rasters are
    preprocessed, then analysed. *)
Definition run_from_rasters (r1 r2 : raster) : result analysis :=
  image1 <- read_and_preprocess r1 ;;
  image2 <- read_and_preprocess r2 ;;
  run_lulc_change_analysis image1 image2.

(** Every band value is a finite number between [lo] and [hi]. *)
Definition image_within (lo hi : num) (im : image) : Prop :=
  Forall (Forall (between lo hi)) (pixels im).

Definition raster_within (lo hi : num) (r : raster) : Prop :=
  Forall (Forall (between lo hi)) (planes r).

(** ** Pixels with and without a class *)

(** Water, built-up, or an NDVI of at least -0.1. *)
Definition classified (ndvi ndwi ndbi : num) : bool :=
  gt ndwi zero || gt ndbi zero || ge ndvi minus_tenth.

Definition classified_px (t : num * (num * num)) : bool :=
  classified (fst t) (fst (snd t)) (snd (snd t)).

(** The five values that position (i, j) of a broadcast reads. *)
Definition at_broadcast (m : masks) (i j : nat) : list num :=
  let '(built_up, water, forest, vegetation, barren) := m in
  [bitem NaN built_up i j; bitem NaN water i j; bitem NaN forest i j;
   bitem NaN vegetation i j; bitem NaN barren i j].

(** Every band value of the image is finite and not negative. *)
Definition nonneg_image (im : image) : Prop :=
  Forall (Forall (fun x => is_finite x = true /\ le zero x = true))
         (pixels im).

(** The index [v] of bands [x] and [y] is the plain quotient, which lies
    in [-1, 1] without being clipped. *)
Definition unclipped (x y v : num) : Prop :=
  v = ((x - y) / (x + y + eps))%num /\
  le minus_one v = true /\ le v one = true.

(** The index [v] does not contradict the order of [x] and [y]: it is
    positive only if [x > y], negative only if [x < y], and zero if
    [x = y]. *)
Definition same_sign (x y v : num) : Prop :=
  (gt v zero = true -> gt x y = true) /\
  (lt v zero = true -> lt x y = true) /\
  (eqb x y = true -> eqb v zero = true).

(** How many pixels each of the five masks of a classification holds. *)
Definition class_counts (zs : list (num * (num * num))) : list nat :=
  [count_ones (map px_built_up zs); count_ones (map px_water zs);
   count_ones (map px_forest zs); count_ones (map px_vegetation zs);
   count_ones (map px_barren zs)].

(** [c] pixels out of [n], as a percentage. *)
Definition pct (n c : nat) : num := (of_nat c / of_nat n * hundred)%num.

(** ** The pipeline, image by image *)

(** Steps 3 and 4 of the pipeline for one image: the three indices, then
    the classification. *)
Definition image_masks (im : image) : result masks :=
  ndvi <- calculate_ndvi im ;;
  ndwi <- calculate_ndwi im ;;
  ndbi <- calculate_ndbi im ;;
  classify_land_cover ndvi ndwi ndbi.

(** Steps 5 to 7 of the pipeline, from the two classifications on. *)
Definition analyse_masks (masks1 masks2 : masks) : result analysis :=
  _ <- create_change_map masks1 masks2 ;;
  let perc1 := calculate_land_cover_percentages masks1 in
  let perc2 := calculate_land_cover_percentages masks2 in
  change <- change_stats perc1 perc2 ;;
  Ok (mk_analysis perc1 perc2 change (total_change_area change)).

(** A record of five finite shares between 0 and 100. *)
Definition shares (d : dict) : Prop :=
  exists a1 a2 a3 a4 a5 : Q,
    d = combine class_names [Fin a1; Fin a2; Fin a3; Fin a4; Fin a5] /\
    (0 <= a1 <= 100)%Q /\ (0 <= a2 <= 100)%Q /\ (0 <= a3 <= 100)%Q /\
    (0 <= a4 <= 100)%Q /\ (0 <= a5 <= 100)%Q.

(** Every value of the record lies between [lo] and [hi]. *)
Definition record_within (lo hi : num) (d : dict) : Prop :=
  Forall (fun kv => between lo hi (snd kv)) d.

Definition minus_hundred : num := Fin (-100).

(** A finite number that is not negative. *)
Definition finite_nonneg (x : num) : Prop :=
  exists t : Q, x = Fin t /\ (0 <= t)%Q.

(** ** Sample rasters *)

(** The two sample pixels as an 8-bit raster of five bands. *)
Definition sample_raster : raster :=
  mk_raster 5 1 2
    [ [Fin 0; Fin 25]; [Fin 26; Fin 153]; [Fin 51; Fin 26];
      [Fin 204; Fin 25]; [Fin 255; Fin 13] ].

(** One band of two pixels, the second one without a value. *)
Definition nan_raster : raster := mk_raster 1 1 2 [ [Fin 200; NaN] ].

(** Three bands of no pixels. *)
Definition empty_raster : raster := mk_raster 3 0 0 [ []; []; [] ].

(** What the pipeline returns on the sample raster against itself. *)
Definition sample_raster_run : analysis :=
  mk_analysis
    (calculate_land_cover_percentages sample_masks)
    (calculate_land_cover_percentages sample_masks)
    (combine class_names [zero; zero; zero; zero; zero])
    zero.

(** Five masks of a single pixel, which is built-up. *)
Definition pixel_masks : masks :=
  (mk_ndarray 1 1 [one], mk_ndarray 1 1 [zero], mk_ndarray 1 1 [zero],
   mk_ndarray 1 1 [zero], mk_ndarray 1 1 [zero]).

(** ** Changed pixels *)

(** [np.sum] of a boolean array: the number of [True] entries. *)
Definition count_true (l : list bool) : nat :=
  length (filter (fun c : bool => c) l).

(** One entry of [total_change] for two classified pixels: some class
    membership differs by more than the threshold. *)
Definition changed (t1 t2 : num * (num * num)) : bool :=
  flipped (px_built_up t1) (px_built_up t2) ||
  flipped (px_water t1) (px_water t2) ||
  flipped (px_forest t1) (px_forest t2) ||
  flipped (px_vegetation t1) (px_vegetation t2) ||
  flipped (px_barren t1) (px_barren t2).

(** The five masks of shape (h, w) that [classify_land_cover] builds from
    the index values [zs] of the pixels. *)
Definition masks_of (h w : nat) (zs : list (num * (num * num))) : masks :=
  (mk_ndarray h w (map px_built_up zs), mk_ndarray h w (map px_water zs),
   mk_ndarray h w (map px_forest zs), mk_ndarray h w (map px_vegetation zs),
   mk_ndarray h w (map px_barren zs)).

(** 1 for a mask value of 1.0, else 0. *)
Definition indicator (x : num) : Z := if eqb x one then 1%Z else 0%Z.

(** How many pixels each of the five masks holds: the five [np.sum(mask)]
    of [calculate_land_cover_percentages]. *)
Definition mask_counts (m : masks) : list nat :=
  let '(built_up, water, forest, vegetation, barren) := m in
  [count_ones (flat built_up); count_ones (flat water);
   count_ones (flat forest); count_ones (flat vegetation);
   count_ones (flat barren)].

(** By how many pixels two lists of counts differ, class by class. *)
Definition count_shift (c1 c2 : list nat) : Z :=
  fold_left Z.add
    (map (fun p => Z.abs (Z.of_nat (snd p) - Z.of_nat (fst p)))
         (combine c1 c2)) 0%Z.

(** ** The aggregator on binary64 numbers *)

(** Where rounding decides, the aggregator is evaluated on the binary64
    numbers of the kernel, as NumPy computes it. *)
Module F64.

(** [float(n)] *)
Definition of_nat (n : nat) : PrimFloat.float :=
  PrimFloat.of_uint63 (Uint63.of_Z (Z.of_nat n)).

(** A mask of 0.0 and 1.0 as binary64 numbers. *)
Definition of_mask (a : ndarray num) : ndarray PrimFloat.float :=
  amap (fun x => if eqb x one then of_nat 1 else of_nat 0) a.

(** [np.sum(a)]: the partial sums of a mask are small integers, hence
    exact, in whatever order NumPy adds. *)
Definition np_sum (a : ndarray PrimFloat.float) : PrimFloat.float :=
  fold_left PrimFloat.add (flat a) (of_nat 0).

(** [np.sum(mask) / total_pixels * 100] *)
Definition percentage (mask : ndarray PrimFloat.float) (total_pixels : nat)
  : PrimFloat.float :=
  PrimFloat.mul (PrimFloat.div (np_sum mask) (of_nat total_pixels))
                (of_nat 100).

Definition calculate_land_cover_percentages (m : masks)
  : list (string * PrimFloat.float) :=
  let '(built_up, water, forest, vegetation, barren) := m in
  let total_pixels := size built_up in
  [ ("Built-up Area"%string, percentage (of_mask built_up) total_pixels);
    ("Water"%string, percentage (of_mask water) total_pixels);
    ("Forest"%string, percentage (of_mask forest) total_pixels);
    ("Vegetation"%string, percentage (of_mask vegetation) total_pixels);
    ("Barren Land"%string, percentage (of_mask barren) total_pixels) ].

(** Python's [sum] of the values of a record. *)
Definition total (d : list (string * PrimFloat.float)) : PrimFloat.float :=
  fold_left PrimFloat.add (map snd d) (of_nat 0).

(** The rational that a binary64 number stands for; infinities and nan
    stand for none. *)
Definition to_Q (x : PrimFloat.float) : option Q :=
  match FloatOps.Prim2SF x with
  | SpecFloat.S754_zero _ => Some 0%Q
  | SpecFloat.S754_finite s m e =>
      let v := if s then Zneg m else Zpos m in
      Some (match e with
            | Z0 => inject_Z v
            | Zpos p => inject_Z (v * 2 ^ Zpos p)
            | Zneg p => Qmake v (2 ^ p)
            end)
  | _ => None
  end.

(** The sum of the values of a record as a rational, without rounding. *)
Definition exact_total (d : list (string * PrimFloat.float)) : option Q :=
  fold_left (fun acc kv =>
               match acc, to_Q (snd kv) with
               | Some a, Some b => Some (a + b)%Q
               | _, _ => None
               end) d (Some 0%Q).

End F64.

(** Nine pixels: one of water, seven built-up and one of forest. *)
Definition nine_ndvi : ndarray num :=
  mk_ndarray 3 3 (repeat zero 8 ++ [Fin (6 # 10)]).
Definition nine_ndwi : ndarray num :=
  mk_ndarray 3 3 (Fin (3 # 10) :: repeat zero 8).
Definition nine_ndbi : ndarray num :=
  mk_ndarray 3 3 (zero :: repeat (Fin (2 # 10)) 7 ++ [zero]).
Definition nine_masks : masks :=
  (mk_ndarray 3 3 (zero :: repeat one 7 ++ [zero]),
   mk_ndarray 3 3 (one :: repeat zero 8),
   mk_ndarray 3 3 (repeat zero 8 ++ [one]),
   mk_ndarray 3 3 (repeat zero 9),
   mk_ndarray 3 3 (repeat zero 9)).

(** ** RGB preview *)

(** [np.nan_to_num(x, nan=0.0, posinf=0.0, neginf=0.0)] *)
Definition nan_to_num (x : num) : num :=
  match x with Fin _ => x | _ => zero end.

(** [np.sort]: ascending, nan last. *)
Fixpoint insert_sorted (x : num) (l : list num) : list num :=
  match l with
  | [] => [x]
  | y :: rest =>
      if le x y || isnan y then x :: l else y :: insert_sorted x rest
  end.

Definition np_sort (l : list num) : list num := fold_right insert_sorted [] l.

(** [np.percentile(a, q)] with the default linear method, on an array of
    at least one value, all finite: the value at the fractional position
    (n - 1) * q / 100 of the sorted array, interpolated between its two
    neighbours. *)
Definition np_percentile (a : list num) (q : Q) : num :=
  let arr := np_sort a in
  let last := length a - 1 in
  let virtual := (inject_Z (Z.of_nat last) * (q / 100))%Q in
  let previous := Z.to_nat (Qfloor virtual) in
  let next := Nat.min (previous + 1) last in
  let gamma := Fin (Qred (virtual - inject_Z (Qfloor virtual))) in
  (nth previous arr NaN
   + (nth next arr NaN - nth previous arr NaN) * gamma)%num.













(** Three bands of four pixels, the last pixel without data: a blue band
    of three levels, a green band of one level, and a red band with a
    nan. *)
Definition blue_band : list num := [Fin 10; Fin 20; Fin 30; Fin 0].



(** * Facts about the array layer *)

Lemma broadcast_dim_same (n : nat) : broadcast_dim n n = Some n.
Proof. unfold broadcast_dim. now rewrite Nat.eqb_refl. Qed.

Lemma broadcast_dim_sym (n m : nat) : broadcast_dim n m = broadcast_dim m n.
Proof.
  unfold broadcast_dim.
  destruct (Nat.eqb_spec n m) as [->|Hnm].
  - now rewrite Nat.eqb_refl.
  - destruct (Nat.eqb_spec m n) as [->|_]; [easy|].
    destruct (Nat.eqb_spec n 1) as [->|Hn], (Nat.eqb_spec m 1) as [->|Hm];
      easy.
Qed.

Lemma bidx_below (n i : nat) : i < n -> bidx n i = i.
Proof.
  unfold bidx. destruct (Nat.eqb_spec n 1) as [->|_]; [lia|reflexivity].
Qed.

(** Row-major position of a flat index. *)
Lemma flat_index (w k : nat) : 0 < w -> k / w * w + k mod w = k.
Proof.
  intros Hw. pose proof (Nat.div_mod_eq k w). lia.
Qed.

Lemma flat_index_row (h w k : nat) : k < h * w -> k / w < h.
Proof.
  intros Hk. apply Nat.Div0.div_lt_upper_bound. lia.
Qed.

Lemma flat_index_col (h w k : nat) : k < h * w -> k mod w < w.
Proof.
  intros Hk. apply Nat.mod_upper_bound. destruct w; lia.
Qed.

Lemma bitem_flat {A : Type} (d : A) (a : ndarray A) (k : nat) :
  k < size a ->
  bitem d a (k / shape1 a) (k mod shape1 a) = nth k (flat a) d.
Proof.
  unfold size, bitem. intros Hk.
  rewrite (bidx_below (flat_index_row _ _ Hk)).
  rewrite (bidx_below (flat_index_col _ _ Hk)).
  rewrite flat_index; [reflexivity|]. destruct (shape1 a); lia.
Qed.

Section ArrayFacts.
Context {A B C : Type}.

(** Reading two lists side by side by position is zipping them. *)
Lemma map_seq_nth2 (f : A -> B -> C) (da : A) (db : B) :
  forall (la : list A) (lb : list B) (n : nat),
    length la = n -> length lb = n ->
    map (fun k => f (nth k la da) (nth k lb db)) (seq 0 n) =
    map (fun p => f (fst p) (snd p)) (combine la lb).
Proof.
  induction la as [|x la IH]; intros [|y lb] [|n] Ha Hb;
    simpl in *; try discriminate; [reflexivity|].
  f_equal. rewrite <- seq_shift, map_map. apply IH; congruence.
Qed.

(** On operands of one shape a binary ufunc works position by position. *)
Lemma np_binop_same_shape (da : A) (db : B) (f : A -> B -> C)
    (a : ndarray A) (b : ndarray B) :
  wf a -> wf b -> same_shape a b ->
  np_binop da db f a b =
  Ok (mk_ndarray (shape0 a) (shape1 a)
        (map (fun p => f (fst p) (snd p)) (combine (flat a) (flat b)))).
Proof.
  intros Ha Hb [H0 H1]. unfold np_binop.
  rewrite <- H0, <- H1, !broadcast_dim_same. do 2 f_equal.
  rewrite <- (@map_seq_nth2 f da db (flat a) (flat b) (size a));
    [|assumption|unfold wf, size in *; congruence].
  apply map_ext_in. intros k Hk. apply in_seq in Hk.
  assert (Hka : k < size a) by lia.
  assert (Hkb : k < size b) by (unfold size in *; rewrite <- H0, <- H1; lia).
  rewrite (bitem_flat da a Hka).
  replace (shape1 a) with (shape1 b) by congruence.
  now rewrite (bitem_flat db b Hkb).
Qed.

Lemma shape_eqb_same (a : ndarray A) (b : ndarray B) :
  same_shape a b -> shape_eqb a b = true.
Proof.
  intros [H0 H1]. unfold shape_eqb. now rewrite H0, H1, !Nat.eqb_refl.
Qed.

Lemma item_flat (a : ndarray A) (i j : nat) :
  i < shape0 a -> j < shape1 a ->
  item a i j = nth_error (flat a) (i * shape1 a + j).
Proof.
  intros Hi Hj. unfold item.
  apply Nat.ltb_lt in Hi, Hj. now rewrite Hi, Hj.
Qed.

Lemma flat_position_bound (h w i j : nat) : i < h -> j < w -> i * w + j < h * w.
Proof. nia. Qed.

End ArrayFacts.

Lemma mask_assign_same_shape {A : Type} (t : ndarray A) (c : ndarray bool)
    (v : A) :
  same_shape t c ->
  mask_assign t c v =
  Ok (mk_ndarray (shape0 t) (shape1 t)
        (map (fun tc : A * bool => if snd tc then v else fst tc)
             (combine (flat t) (flat c)))).
Proof.
  intros H. unfold mask_assign. now rewrite (shape_eqb_same H).
Qed.

(** * Facts about numbers *)

#[local] Arguments Qred : simpl never.

Lemma le_Fin (a b : Q) : le (Fin a) (Fin b) = true <-> (a <= b)%Q.
Proof.
  unfold le, cmp. rewrite Qle_alt.
  destruct (a ?= b)%Q; split; intros H; try reflexivity;
    try discriminate; congruence.
Qed.

Lemma gt_Fin (a b : Q) : gt (Fin a) (Fin b) = true <-> (b < a)%Q.
Proof.
  unfold gt, cmp. change (b < a)%Q with (a > b)%Q. rewrite Qgt_alt.
  destruct (a ?= b)%Q; split; intros H; try reflexivity; discriminate.
Qed.

Lemma ge_Fin (a b : Q) : ge (Fin a) (Fin b) = true <-> (b <= a)%Q.
Proof.
  unfold ge, cmp. change (b <= a)%Q with (a >= b)%Q. rewrite Qge_alt.
  destruct (a ?= b)%Q; split; intros H; try reflexivity;
    try discriminate; congruence.
Qed.

Lemma lt_Fin (a b : Q) : lt (Fin a) (Fin b) = true <-> (a < b)%Q.
Proof.
  unfold lt, cmp. rewrite Qlt_alt.
  destruct (a ?= b)%Q; split; intros H; try reflexivity; discriminate.
Qed.

Lemma sgn_Eq (a : Q) : sgn a = Eq <-> (a == 0)%Q.
Proof. unfold sgn. symmetry. apply Qeq_alt. Qed.


Lemma between_not_nan (lo hi : num) : ~ between lo hi NaN.
Proof. unfold between. destruct lo; simpl; intros [H _]; discriminate. Qed.


Lemma sub_swap (x y : num) : (x - y)%num = neg (y - x)%num.
Proof.
  destruct x as [a| | |], y as [b| | |]; simpl; try reflexivity.
  f_equal. apply Qred_complete. rewrite Qred_correct. ring.
Qed.

Lemma abs_neg (x : num) : abs (neg x) = abs x.
Proof.
  destruct x as [a| | |]; simpl; try reflexivity.
  f_equal. apply Qred_complete. rewrite Qred_correct. apply Qabs_opp.
Qed.

Lemma abs_sub_swap (x y : num) : abs (x - y)%num = abs (y - x)%num.
Proof. now rewrite (sub_swap x y), abs_neg. Qed.

Lemma eqb_Fin_zero (a : Q) : eqb (Fin a) zero = true <-> (a == 0)%Q.
Proof.
  unfold eqb, cmp, zero. rewrite Qeq_alt.
  destruct (a ?= 0)%Q; split; intros H; try reflexivity; discriminate.
Qed.



(** * The index calculator *)

Lemma wf_amap {A B : Type} (f : A -> B) (a : ndarray A) : wf a -> wf (amap f a).
Proof. unfold wf, size, amap. simpl. now rewrite length_map. Qed.

Lemma wf_zip {A B C : Type} (f : A * B -> C) (a : ndarray A) (b : ndarray B) :
  wf a -> wf b -> same_shape a b ->
  wf (mk_ndarray (shape0 a) (shape1 a) (map f (combine (flat a) (flat b)))).
Proof.
  unfold wf, size. intros Ha Hb [H0 H1]. simpl.
  rewrite length_map, length_combine, Ha, Hb, <- H0, <- H1. apply Nat.min_id.
Qed.

Lemma wf_band (im : image) (k : nat) :
  wf_image im ->
  wf (mk_ndarray (height im) (width im) (map (fun p => nth k p NaN) (pixels im))).
Proof. intros [Hlen _]. unfold wf, size. simpl. now rewrite length_map. Qed.

Lemma wf_zeros (h w : nat) : wf (np_zeros h w).
Proof. unfold wf, size, np_zeros. simpl. apply repeat_length. Qed.

Create HintDb arr.
#[local] Hint Resolve wf_amap wf_zip wf_band wf_zeros : arr.
#[local] Hint Extern 1 (same_shape _ _) => split; reflexivity : arr.

(** The arithmetic of one calculator, band [hi] against band [lo]. *)
Lemma index_chain (im : image) (hi lo : nat) :
  wf_image im -> hi < bands im -> lo < bands im ->
  (x <- band im hi ;;
   y <- band im lo ;;
   d <- np_sub x y ;;
   s <- np_add x y ;;
   q <- np_div d (amap (fun v => v + eps)%num s) ;;
   Ok (np_clip q minus_one one)) =
  Ok (mk_ndarray (height im) (width im)
        (map (fun p => normalized_difference (nth hi p NaN) (nth lo p NaN))
             (pixels im))).
Proof.
  intros Hwf Hhi Hlo. unfold band.
  apply Nat.ltb_lt in Hhi, Hlo. rewrite Hhi, Hlo. cbn [bind].
  unfold np_sub, np_add, np_div.
  rewrite !np_binop_same_shape by auto with arr. cbn [bind].
  rewrite np_binop_same_shape by auto with arr.
  cbn [bind]. unfold np_clip, amap. cbn [shape0 shape1 flat].
  do 2 f_equal. clear. induction (pixels im) as [|p ps IH]; [reflexivity|].
  simpl. now rewrite <- IH.
Qed.

Lemma calculate_ndvi_bands (im : image) :
  wf_image im -> 4 <= bands im ->
  calculate_ndvi im =
  Ok (mk_ndarray (height im) (width im)
        (map (fun p => normalized_difference (nth 3 p NaN) (nth 2 p NaN))
             (pixels im))).
Proof.
  intros Hwf Hb. unfold calculate_ndvi.
  destruct (Nat.ltb_spec (bands im) 4); [lia|].
  apply index_chain; [assumption|lia..].
Qed.

Lemma calculate_ndwi_bands (im : image) :
  wf_image im -> 4 <= bands im ->
  calculate_ndwi im =
  Ok (mk_ndarray (height im) (width im)
        (map (fun p => normalized_difference (nth 1 p NaN) (nth 3 p NaN))
             (pixels im))).
Proof.
  intros Hwf Hb. unfold calculate_ndwi.
  destruct (Nat.ltb_spec (bands im) 4); [lia|].
  apply index_chain; [assumption|lia..].
Qed.

Lemma calculate_ndbi_bands (im : image) :
  wf_image im -> 5 <= bands im ->
  calculate_ndbi im =
  Ok (mk_ndarray (height im) (width im)
        (map (fun p => normalized_difference (nth 4 p NaN) (nth 3 p NaN))
             (pixels im))).
Proof.
  intros Hwf Hb. unfold calculate_ndbi.
  destruct (Nat.ltb_spec (bands im) 5); [lia|].
  apply index_chain; [assumption|lia..].
Qed.

(** Pixel (i, j) of a well-formed image and its band values. *)
Lemma pixel_at (im : image) (i j : nat) :
  wf_image im -> i < height im -> j < width im ->
  exists p, nth_error (pixels im) (i * width im + j) = Some p /\
            length p = bands im.
Proof.
  intros [Hlen Hall] Hi Hj.
  destruct (nth_error (pixels im) (i * width im + j)) as [p|] eqn:Hp.
  - exists p. split; [reflexivity|].
    rewrite Forall_forall in Hall. apply Hall. eapply nth_error_In, Hp.
  - apply nth_error_None in Hp.
    pose proof (flat_position_bound Hi Hj). lia.
Qed.

Lemma voxel_pixel (im : image) (i j k : nat) (p : list num) :
  i < height im -> j < width im ->
  nth_error (pixels im) (i * width im + j) = Some p ->
  voxel im i j k = nth_error p k.
Proof.
  intros Hi Hj Hp. unfold voxel.
  apply Nat.ltb_lt in Hi, Hj. now rewrite Hi, Hj, Hp.
Qed.

Lemma item_of_pixels {A : Type} (f : list num -> A) (im : image) (i j : nat)
    (p : list num) :
  i < height im -> j < width im ->
  nth_error (pixels im) (i * width im + j) = Some p ->
  item (mk_ndarray (height im) (width im) (map f (pixels im))) i j = Some (f p).
Proof.
  intros Hi Hj Hp. rewrite item_flat by assumption.
  cbn [flat shape1]. now rewrite nth_error_map, Hp.
Qed.

Lemma nth_error_nth_default {A : Type} (l : list A) (k : nat) (d : A) :
  k < length l -> nth_error l k = Some (nth k l d).
Proof. intros H. now apply nth_error_nth'. Qed.

(** What one calculator leaves at pixel (i, j). *)
Lemma index_pixel (im : image) (hi lo i j : nat) :
  wf_image im -> hi < bands im -> lo < bands im ->
  i < height im -> j < width im ->
  exists x y,
    voxel im i j hi = Some x /\ voxel im i j lo = Some y /\
    item (mk_ndarray (height im) (width im)
            (map (fun p => normalized_difference (nth hi p NaN) (nth lo p NaN))
                 (pixels im))) i j
    = Some (normalized_difference x y).
Proof.
  intros Hwf Hhi Hlo Hi Hj.
  destruct (pixel_at Hwf Hi Hj) as (p & Hp & Hlen).
  exists (nth hi p NaN), (nth lo p NaN).
  rewrite !(@voxel_pixel im i j _ p Hi Hj Hp).
  rewrite !(@nth_error_nth_default _ p _ NaN) by lia.
  repeat split.
  now apply (@item_of_pixels _
    (fun p => normalized_difference (nth hi p NaN) (nth lo p NaN))).
Qed.

(** C7.  With at least four bands, [calculate_ndvi] returns at every pixel
    clip((band3 - band2)/(band3 + band2 + 1e-8), -1, 1) and
    [calculate_ndwi] returns clip((band1 - band3)/(band1 + band3 + 1e-8),
    -1, 1); with at least five bands, [calculate_ndbi] returns
    clip((band4 - band3)/(band4 + band3 + 1e-8), -1, 1).  The arrays have
    the spatial shape of the image. *)
Theorem index_formulas (im : image) :
  wf_image im ->
  (4 <= bands im ->
   exists ndvi ndwi,
     calculate_ndvi im = Ok ndvi /\ calculate_ndwi im = Ok ndwi /\
     shape0 ndvi = height im /\ shape1 ndvi = width im /\
     shape0 ndwi = height im /\ shape1 ndwi = width im /\
     forall i j, i < height im -> j < width im ->
       exists green red nir,
         voxel im i j 1 = Some green /\
         voxel im i j 2 = Some red /\
         voxel im i j 3 = Some nir /\
         item ndvi i j = Some (normalized_difference nir red) /\
         item ndwi i j = Some (normalized_difference green nir)) /\
  (5 <= bands im ->
   exists ndbi,
     calculate_ndbi im = Ok ndbi /\
     shape0 ndbi = height im /\ shape1 ndbi = width im /\
     forall i j, i < height im -> j < width im ->
       exists nir swir,
         voxel im i j 3 = Some nir /\
         voxel im i j 4 = Some swir /\
         item ndbi i j = Some (normalized_difference swir nir)).
Proof.
  intros Hwf. split; intros Hb.
  - eexists _, _.
    split; [now apply calculate_ndvi_bands|].
    split; [now apply calculate_ndwi_bands|].
    do 4 (split; [reflexivity|]).
    intros i j Hi Hj.
    destruct (@index_pixel im 3 2 i j) as (nir & red & Hn & Hr & Hv);
      try assumption; try lia.
    destruct (@index_pixel im 1 3 i j) as (green & nir' & Hg & Hn' & Hw);
      try assumption; try lia.
    assert (nir' = nir) by congruence. subst nir'.
    exists green, red, nir. auto.
  - eexists. split; [now apply calculate_ndbi_bands|].
    do 2 (split; [reflexivity|]).
    intros i j Hi Hj.
    destruct (@index_pixel im 4 3 i j) as (swir & nir & Hs & Hn & Hv);
      try assumption; try lia.
    exists nir, swir. auto.
Qed.

Lemma item_inside {A : Type} (a : ndarray A) (i j : nat) (v : A) :
  item a i j = Some v -> i < shape0 a /\ j < shape1 a.
Proof.
  unfold item. destruct (i <? shape0 a) eqn:Hi, (j <? shape1 a) eqn:Hj;
    try discriminate.
  intros _. split; now apply Nat.ltb_lt.
Qed.

Lemma item_zeros (h w i j : nat) :
  i < h -> j < w -> item (np_zeros h w) i j = Some zero.
Proof.
  intros Hi Hj. rewrite item_flat by assumption.
  cbn [np_zeros flat shape1].
  rewrite (@nth_error_nth_default _ _ _ zero).
  - now rewrite nth_repeat.
  - rewrite repeat_length. now apply flat_position_bound.
Qed.

Lemma np_zeros_is_zeros (h w : nat) : is_zeros h w (np_zeros h w).
Proof.
  split; [apply repeat_length|]. repeat split. intros i j. apply item_zeros.
Qed.

(** C6.  With fewer than four bands [calculate_ndvi] and [calculate_ndwi]
    return, without raising, an all-zero array of shape (height, width);
    with fewer than five bands so does [calculate_ndbi]. *)
Theorem insufficient_bands_zero (im : image) :
  (bands im < 4 ->
   exists ndvi ndwi,
     calculate_ndvi im = Ok ndvi /\ calculate_ndwi im = Ok ndwi /\
     is_zeros (height im) (width im) ndvi /\
     is_zeros (height im) (width im) ndwi) /\
  (bands im < 5 ->
   exists ndbi,
     calculate_ndbi im = Ok ndbi /\ is_zeros (height im) (width im) ndbi).
Proof.
  split; intros Hb.
  - exists (np_zeros (height im) (width im)), (np_zeros (height im) (width im)).
    unfold calculate_ndvi, calculate_ndwi.
    apply Nat.ltb_lt in Hb. rewrite Hb.
    auto using np_zeros_is_zeros.
  - exists (np_zeros (height im) (width im)).
    unfold calculate_ndbi. apply Nat.ltb_lt in Hb. rewrite Hb.
    auto using np_zeros_is_zeros.
Qed.







(** * The classifier *)

Ltac shapes :=
  unfold same_shape, positive, amap in *; cbn [shape0 shape1] in *;
  intuition congruence.

#[local] Hint Extern 2 (same_shape _ _) => shapes : arr.

Lemma wf_positive (a : ndarray num) : wf a -> wf (positive a).
Proof. apply wf_amap. Qed.

#[local] Hint Resolve wf_positive : arr.

Lemma gt_b2f (c : bool) : gt (b2f c) zero = c.
Proof. now destruct c. Qed.

(** Three lists of one length are consumed in step. *)
Ltac in_step la lb lc :=
  let x := fresh "x" in let IH := fresh "IH" in
  generalize dependent lb; generalize dependent lc;
  induction la as [|x la IH]; intros [|? lc] ? [|? lb] ?;
  simpl in *; try discriminate; try reflexivity;
  apply (f_equal2 (@cons _)); [|apply IH; congruence].

Ltac pixel_cases :=
  unfold px_built_up, px_water, px_forest, px_vegetation, px_barren,
    classify_pixel; cbn [fst snd]; rewrite ?gt_b2f;
  repeat match goal with
         | |- context [gt ?a ?b] => destruct (gt a b)
         | |- context [le ?a ?b] => destruct (le a b)
         | |- context [ge ?a ?b] => destruct (ge a b)
         end; reflexivity.

Lemma classify_flat (ndvi ndwi ndbi : ndarray num) :
  wf ndvi -> wf ndwi -> wf ndbi ->
  same_shape ndvi ndwi -> same_shape ndvi ndbi ->
  let arr := mk_ndarray (shape0 ndvi) (shape1 ndvi) in
  let zs := zip3 ndvi ndwi ndbi in
  classify_land_cover ndvi ndwi ndbi =
  Ok (arr (map px_built_up zs), arr (map px_water zs), arr (map px_forest zs),
      arr (map px_vegetation zs), arr (map px_barren zs)).
Proof.
  intros Hv Hw Hb Hvw Hvb arr zs. unfold classify_land_cover, np_and.
  rewrite !np_binop_same_shape by auto with arr. cbn [bind].
  repeat (rewrite mask_assign_same_shape by shapes; cbn [bind]).
  unfold positive, amap. cbn [shape0 shape1 flat].
  subst arr zs. unfold zip3.
  assert (Hab : length (flat ndvi) = length (flat ndwi)).
  { unfold wf, size in *. destruct Hvw. congruence. }
  assert (Hac : length (flat ndvi) = length (flat ndbi)).
  { unfold wf, size in *. destruct Hvb. congruence. }
  destruct Hvw as [<- <-], Hvb as [<- <-]. clear Hv Hw Hb.
  revert Hab Hac.
  generalize (flat ndvi) (flat ndwi) (flat ndbi). intros la lb lc Hab Hac.
  f_equal.
  repeat match goal with |- (_, _) = (_, _) => apply f_equal2 end; f_equal.
  - in_step la lb lc. pixel_cases.
  - rewrite map_map. in_step la lb lc. pixel_cases.
  - in_step la lb lc. pixel_cases.
  - in_step la lb lc. pixel_cases.
  - in_step la lb lc. pixel_cases.
Qed.

Lemma item_zip3 (ndvi ndwi ndbi : ndarray num) (i j : nat) :
  wf ndvi -> wf ndwi -> wf ndbi ->
  same_shape ndvi ndwi -> same_shape ndvi ndbi ->
  i < shape0 ndvi -> j < shape1 ndvi ->
  exists x y z,
    item ndvi i j = Some x /\ item ndwi i j = Some y /\
    item ndbi i j = Some z /\
    forall (f : num * (num * num) -> num),
      item (mk_ndarray (shape0 ndvi) (shape1 ndvi)
              (map f (zip3 ndvi ndwi ndbi))) i j = Some (f (x, (y, z))).
Proof.
  intros Hv Hw Hb [Hw0 Hw1] [Hb0 Hb1] Hi Hj.
  pose proof (flat_position_bound Hi Hj) as Hk.
  set (k := i * shape1 ndvi + j) in *.
  unfold wf, size in *.
  exists (nth k (flat ndvi) NaN), (nth k (flat ndwi) NaN),
         (nth k (flat ndbi) NaN).
  rewrite !item_flat by congruence.
  rewrite <- Hw1, <- Hb1. fold k.
  rewrite !(@nth_error_nth_default _ _ _ NaN) by congruence.
  repeat split. intros f. rewrite item_flat by assumption.
  cbn [flat shape1]. fold k. unfold zip3.
  rewrite nth_error_map.
  rewrite (@nth_error_nth_default _ _ _ (NaN, (NaN, NaN))).
  - rewrite !combine_nth; [reflexivity|congruence|].
    rewrite length_combine. rewrite Nat.min_l; congruence || lia.
  - rewrite !length_combine. lia.
Qed.

(** On index arrays of one shape, [classify_land_cover] succeeds and
    computes [classify_pixel] at every pixel. *)
Lemma classify_pixelwise (ndvi ndwi ndbi : ndarray num) :
  wf ndvi -> wf ndwi -> wf ndbi ->
  same_shape ndvi ndwi -> same_shape ndvi ndbi ->
  exists built_up water forest vegetation barren,
    classify_land_cover ndvi ndwi ndbi =
      Ok (built_up, water, forest, vegetation, barren) /\
    forall i j, i < shape0 ndvi -> j < shape1 ndvi ->
      exists x y z,
        item ndvi i j = Some x /\ item ndwi i j = Some y /\
        item ndbi i j = Some z /\
        exists b w f v n,
          classify_pixel x y z = (b, w, f, v, n) /\
          item built_up i j = Some b /\ item water i j = Some w /\
          item forest i j = Some f /\ item vegetation i j = Some v /\
          item barren i j = Some n.
Proof.
  intros Hv Hw Hb Hvw Hvb.
  do 5 eexists. split; [now apply classify_flat|].
  intros i j Hi Hj.
  destruct (item_zip3 Hv Hw Hb Hvw Hvb Hi Hj) as (x & y & z & Hx & Hy & Hz & Hf).
  exists x, y, z. do 3 (split; [assumption|]).
  rewrite !Hf. unfold px_built_up, px_water, px_forest, px_vegetation, px_barren.
  cbn [fst snd].
  destruct (classify_pixel x y z) as [[[[b w] f] v] n].
  exists b, w, f, v, n. auto 7.
Qed.

(** The forest range lies above the barren range. *)
Lemma forest_not_barren (x : num) : gt x half = true -> le x tenth = false.
Proof.
  destruct x as [q| | |]; try discriminate; try reflexivity.
  unfold half, tenth. intros H. apply gt_Fin in H.
  destruct (le (Fin q) (Fin (1 # 10))) eqn:Hle; [|reflexivity].
  apply le_Fin in Hle. lra.
Qed.

Lemma gt_not_le (x y : num) : gt x y = true -> le x y = false.
Proof. unfold gt, le. now destruct (cmp x y) as [[]|]. Qed.

Lemma le_not_gt (x y : num) : le x y = true -> gt x y = false.
Proof. unfold gt, le. now destruct (cmp x y) as [[]|]. Qed.

Lemma binary_b2f (c : bool) : binary (b2f c).
Proof. destruct c; [right|left]; reflexivity. Qed.

(** At one pixel the five masks are 0.0 or 1.0 and at most one is 1.0. *)
Lemma classify_pixel_exclusive (x y z b w f v n : num) :
  classify_pixel x y z = (b, w, f, v, n) ->
  Forall binary [b; w; f; v; n] /\ count_ones [b; w; f; v; n] <= 1.
Proof.
  unfold classify_pixel. intros H. injection H as <- <- <- <- <-.
  split; [repeat (apply Forall_cons; [apply binary_b2f|]); apply Forall_nil|].
  pose proof (@forest_not_barren x) as Hfb.
  pose proof (@gt_not_le x half) as Hfv.
  pose proof (@gt_not_le x tenth) as Hvb.
  destruct (gt z zero), (gt y zero), (gt x half), (le x half), (gt x tenth),
    (le x tenth), (ge x minus_tenth);
    try (specialize (Hfb eq_refl)); try (specialize (Hfv eq_refl));
    try (specialize (Hvb eq_refl)); try discriminate;
    vm_compute; lia.
Qed.

(** C1.  On index arrays of one shape, [classify_land_cover] returns five
    masks that hold 0.0 or 1.0 and are mutually exclusive: at every pixel
    at most one of them is 1.0. *)
Theorem classify_mutually_exclusive (ndvi ndwi ndbi : ndarray num) :
  wf ndvi -> wf ndwi -> wf ndbi ->
  same_shape ndvi ndwi -> same_shape ndvi ndbi ->
  exists built_up water forest vegetation barren,
    classify_land_cover ndvi ndwi ndbi =
      Ok (built_up, water, forest, vegetation, barren) /\
    forall i j, i < shape0 ndvi -> j < shape1 ndvi ->
      exists b w f v n,
        item built_up i j = Some b /\ item water i j = Some w /\
        item forest i j = Some f /\ item vegetation i j = Some v /\
        item barren i j = Some n /\
        Forall binary [b; w; f; v; n] /\
        count_ones [b; w; f; v; n] <= 1.
Proof.
  intros Hv Hw Hb Hvw Hvb.
  destruct (classify_pixelwise Hv Hw Hb Hvw Hvb)
    as (bu & wa & fo & ve & ba & Hc & Hpx).
  exists bu, wa, fo, ve, ba. split; [assumption|].
  intros i j Hi Hj.
  destruct (Hpx i j Hi Hj)
    as (x & y & z & _ & _ & _ & b & w & f & v & n & Hcp & H1 & H2 & H3 & H4 & H5).
  exists b, w, f, v, n. pose proof (classify_pixel_exclusive Hcp).
  tauto.
Qed.

Lemma eqb_positive (x : num) (q : Q) :
  eqb x (Fin q) = true -> (0 < q)%Q -> gt x zero = true.
Proof.
  destruct x as [a| | |]; try discriminate. unfold eqb, cmp. intros H Hq.
  destruct (a ?= q)%Q eqn:Ha; try discriminate.
  apply Qeq_alt in Ha. apply gt_Fin. lra.
Qed.

(** Precedence at one pixel: built-up clears the three NDVI classes, water
    clears everything but itself. *)
Lemma classify_pixel_precedence (x y z b w f v n : num) :
  classify_pixel x y z = (b, w, f, v, n) ->
  (gt z zero = true -> f = zero /\ v = zero /\ n = zero) /\
  (gt y zero = true ->
   f = zero /\ v = zero /\ n = zero /\ b = zero /\ w = one).
Proof.
  unfold classify_pixel. intros H. injection H as <- <- <- <- <-.
  split; intros ->; rewrite ?andb_false_r; cbn [negb andb b2f];
    rewrite ?andb_false_r; auto 6.
Qed.

(** C2.  Precedence water > built-up > forest, vegetation, barren.  Where
    NDBI > 0 the final forest, vegetation and barren masks are 0; where
    NDWI > 0 the final forest, vegetation, barren and built-up masks are 0
    and the water mask is 1.  A pixel with NDVI = 0.6, NDBI = 0.2 and
    NDWI <= 0 is built-up only; a pixel with NDWI = 0.3 and NDBI = 0.2 is
    water only. *)
Theorem classify_precedence (ndvi ndwi ndbi : ndarray num) :
  wf ndvi -> wf ndwi -> wf ndbi ->
  same_shape ndvi ndwi -> same_shape ndvi ndbi ->
  exists built_up water forest vegetation barren,
    classify_land_cover ndvi ndwi ndbi =
      Ok (built_up, water, forest, vegetation, barren) /\
    forall i j, i < shape0 ndvi -> j < shape1 ndvi ->
      exists x y z b w f v n,
        item ndvi i j = Some x /\ item ndwi i j = Some y /\
        item ndbi i j = Some z /\
        item built_up i j = Some b /\ item water i j = Some w /\
        item forest i j = Some f /\ item vegetation i j = Some v /\
        item barren i j = Some n /\
        (gt z zero = true -> f = zero /\ v = zero /\ n = zero) /\
        (gt y zero = true ->
         f = zero /\ v = zero /\ n = zero /\ b = zero /\ w = one) /\
        (eqb x (Fin (6 # 10)) = true -> eqb z (Fin (2 # 10)) = true ->
         le y zero = true ->
         (b, w, f, v, n) = (one, zero, zero, zero, zero)) /\
        (eqb y (Fin (3 # 10)) = true -> eqb z (Fin (2 # 10)) = true ->
         (b, w, f, v, n) = (zero, one, zero, zero, zero)).
Proof.
  intros Hv Hw Hb Hvw Hvb.
  destruct (classify_pixelwise Hv Hw Hb Hvw Hvb)
    as (bu & wa & fo & ve & ba & Hc & Hpx).
  exists bu, wa, fo, ve, ba. split; [assumption|].
  intros i j Hi Hj.
  destruct (Hpx i j Hi Hj)
    as (x & y & z & Hx & Hy & Hz & b & w & f & v & n & Hcp & Hitems).
  exists x, y, z, b, w, f, v, n.
  destruct (classify_pixel_precedence Hcp) as [Hbuilt Hwater].
  repeat (split; [tauto|]). split.
  - intros _ Hz2 Hy0.
    assert (Hz0 : gt z zero = true) by (apply (eqb_positive _ Hz2); lra).
    destruct (Hbuilt Hz0) as (-> & -> & ->).
    apply le_not_gt in Hy0. unfold classify_pixel in Hcp.
    rewrite Hz0, Hy0 in Hcp. cbn [negb andb b2f] in Hcp. congruence.
  - intros Hy3 _.
    assert (Hy0 : gt y zero = true) by (apply (eqb_positive _ Hy3); lra).
    now destruct (Hwater Hy0) as (-> & -> & -> & -> & ->).
Qed.

(** * The change detector *)

Lemma nth_error_combine {A B : Type} (la : list A) (lb : list B) (k : nat)
    (x : A) (y : B) :
  nth_error la k = Some x -> nth_error lb k = Some y ->
  nth_error (combine la lb) k = Some (x, y).
Proof.
  revert lb k. induction la as [|a la IH]; intros [|b lb] [|k] Hx Hy;
    simpl in *; try discriminate.
  - congruence.
  - now apply IH.
Qed.

Lemma item_zip {A B C : Type} (f : A * B -> C) (a : ndarray A) (b : ndarray B)
    (i j : nat) (x : A) (y : B) :
  same_shape a b ->
  item a i j = Some x -> item b i j = Some y ->
  item (mk_ndarray (shape0 a) (shape1 a) (map f (combine (flat a) (flat b)))) i j
  = Some (f (x, y)).
Proof.
  intros [H0 H1] Hx Hy.
  destruct (item_inside _ _ _ Hx) as [Hi Hj].
  rewrite item_flat in Hx by assumption.
  rewrite item_flat in Hy by congruence.
  rewrite item_flat by assumption. cbn [flat shape1].
  rewrite <- H1 in Hy.
  now rewrite nth_error_map, (@nth_error_combine _ _ _ _ _ _ _ Hx Hy).
Qed.

Lemma np_binop_pointwise {A B C : Type} (da : A) (db : B) (f : A -> B -> C)
    (a : ndarray A) (b : ndarray B) :
  wf a -> wf b -> same_shape a b ->
  exists r, np_binop da db f a b = Ok r /\ pointwise f a b r.
Proof.
  intros Ha Hb Hs. eexists. split; [now apply np_binop_same_shape|].
  split.
  - split; [|split; reflexivity]. now apply wf_zip.
  - intros i j x y Hx Hy.
    now apply (item_zip (fun p => f (fst p) (snd p)) _ _ Hs).
Qed.

Lemma item_amap {A B : Type} (f : A -> B) (a : ndarray A) (i j : nat) (x : A) :
  item a i j = Some x -> item (amap f a) i j = Some (f x).
Proof.
  intros Hx. destruct (item_inside _ _ _ Hx) as [Hi Hj].
  rewrite item_flat in Hx by assumption.
  rewrite item_flat by assumption. cbn [amap flat shape1].
  now rewrite nth_error_map, Hx.
Qed.

Lemma class_change_pointwise (m1 m2 : ndarray num) :
  wf m1 -> wf m2 -> same_shape m1 m2 ->
  exists c, class_change m1 m2 = Ok c /\ pointwise flipped m1 m2 c.
Proof.
  intros H1 H2 Hs. unfold class_change, np_sub.
  destruct (@np_binop_pointwise _ _ _ NaN NaN sub m2 m1) as (d & -> & Hd & Hpt);
    [assumption|assumption|shapes|].
  cbn [bind]. eexists. split; [reflexivity|].
  destruct Hd as (Hwf & Hd0 & Hd1), Hs as [Hs0 Hs1]. split.
  - split; [now apply wf_amap|]. cbn [amap shape0 shape1]. split; congruence.
  - intros i j x y Hx Hy.
    apply (item_amap (fun v => gt (abs v) change_threshold)).
    now apply Hpt.
Qed.

(** Swapping the operands of a per-class comparison changes nothing,
    whatever the shapes. *)
Lemma class_change_swap (m1 m2 : ndarray num) :
  class_change m1 m2 = class_change m2 m1.
Proof.
  unfold class_change, np_sub, np_binop.
  rewrite (broadcast_dim_sym (shape0 m2)), (broadcast_dim_sym (shape1 m2)).
  destruct (broadcast_dim (shape0 m1) (shape0 m2)) as [h|]; [|reflexivity].
  destruct (broadcast_dim (shape1 m1) (shape1 m2)) as [w|]; [|reflexivity].
  cbn [bind]. unfold amap. cbn [shape0 shape1 flat]. do 2 f_equal.
  rewrite !map_map. apply map_ext. intros k. now rewrite abs_sub_swap.
Qed.

Lemma item_exists {A : Type} (h w : nat) (a : ndarray A) (i j : nat) :
  has_shape h w a -> i < h -> j < w -> exists x, item a i j = Some x.
Proof.
  intros (Hwf & <- & <-) Hi Hj. rewrite item_flat by assumption.
  destruct (nth_error (flat a) (i * shape1 a + j)) as [x|] eqn:Hx;
    [now exists x|].
  apply nth_error_None in Hx. unfold wf, size in Hwf.
  pose proof (flat_position_bound Hi Hj). lia.
Qed.

Lemma at_pixel_exists (h w : nat) (m : masks) (i j : nat) :
  masks_of_shape h w m -> i < h -> j < w ->
  exists b x f v n, at_pixel m i j = Some [b; x; f; v; n].
Proof.
  destruct m as [[[[bu wa] fo] ve] ba]. intros (Hb & Hw & Hf & Hv & Hn) Hi Hj.
  destruct (item_exists Hb Hi Hj) as [b Eb], (item_exists Hw Hi Hj) as [x Ex],
    (item_exists Hf Hi Hj) as [f Ef], (item_exists Hv Hi Hj) as [v Ev],
    (item_exists Hn Hi Hj) as [n En].
  exists b, x, f, v, n. cbn [at_pixel]. now rewrite Eb, Ex, Ef, Ev, En.
Qed.

Lemma np_or_pointwise (h w : nat) (a b : ndarray bool) :
  has_shape h w a -> has_shape h w b ->
  exists r, np_or a b = Ok r /\ has_shape h w r /\
    forall i j x y, item a i j = Some x -> item b i j = Some y ->
      item r i j = Some (x || y).
Proof.
  intros (Ha & Ha0 & Ha1) (Hb & Hb0 & Hb1).
  destruct (@np_binop_pointwise _ _ _ false false orb a b)
    as (r & Hr & (Hwf & H0 & H1) & Hpt); [assumption|assumption|shapes|].
  exists r. split; [exact Hr|]. split; [|exact Hpt].
  split; [assumption|split; congruence].
Qed.

Lemma class_change_shape (h w : nat) (m1 m2 : ndarray num) :
  has_shape h w m1 -> has_shape h w m2 ->
  exists c, class_change m1 m2 = Ok c /\ has_shape h w c /\
    forall i j x y, item m1 i j = Some x -> item m2 i j = Some y ->
      item c i j = Some (flipped x y).
Proof.
  intros (H1 & H10 & H11) (H2 & H20 & H21).
  destruct (class_change_pointwise H1 H2) as (c & Hc & (Hwf & H0 & H1') & Hpt);
    [shapes|].
  exists c. split; [exact Hc|]. split; [|exact Hpt].
  split; [assumption|split; congruence].
Qed.

(** On two sets of masks of one shape, [total_change] is the OR of the
    five per-class comparisons. *)
Lemma total_change_pixelwise (h w : nat) (masks1 masks2 : masks) :
  masks_of_shape h w masks1 -> masks_of_shape h w masks2 ->
  exists tc, total_change masks1 masks2 = Ok tc /\ has_shape h w tc /\
    forall i j p1 p2,
      at_pixel masks1 i j = Some p1 -> at_pixel masks2 i j = Some p2 ->
      item tc i j =
      Some (existsb (fun p => flipped (fst p) (snd p)) (combine p1 p2)).
Proof.
  destruct masks1 as [[[[b1 w1] f1] v1] n1], masks2 as [[[[b2 w2] f2] v2] n2].
  intros (Hb1 & Hw1 & Hf1 & Hv1 & Hn1) (Hb2 & Hw2 & Hf2 & Hv2 & Hn2).
  cbn [total_change].
  destruct (class_change_shape Hb1 Hb2) as (cb & -> & Hcb & Pb).
  destruct (class_change_shape Hw1 Hw2) as (cw & -> & Hcw & Pw).
  destruct (class_change_shape Hf1 Hf2) as (cf & -> & Hcf & Pf).
  destruct (class_change_shape Hv1 Hv2) as (cv & -> & Hcv & Pv).
  destruct (class_change_shape Hn1 Hn2) as (cn & -> & Hcn & Pn).
  cbn [bind].
  destruct (np_or_pointwise Hcb Hcw) as (t1 & -> & Ht1 & P1). cbn [bind].
  destruct (np_or_pointwise Ht1 Hcf) as (t2 & -> & Ht2 & P2). cbn [bind].
  destruct (np_or_pointwise Ht2 Hcv) as (t3 & -> & Ht3 & P3). cbn [bind].
  destruct (np_or_pointwise Ht3 Hcn) as (t4 & -> & Ht4 & P4).
  exists t4. split; [reflexivity|]. split; [assumption|].
  intros i j p1 p2. cbn [at_pixel].
  destruct (item b1 i j) as [xb1|] eqn:Eb1; [|discriminate].
  destruct (item w1 i j) as [xw1|] eqn:Ew1; [|discriminate].
  destruct (item f1 i j) as [xf1|] eqn:Ef1; [|discriminate].
  destruct (item v1 i j) as [xv1|] eqn:Ev1; [|discriminate].
  destruct (item n1 i j) as [xn1|] eqn:En1; [|discriminate].
  destruct (item b2 i j) as [xb2|] eqn:Eb2; [|discriminate].
  destruct (item w2 i j) as [xw2|] eqn:Ew2; [|discriminate].
  destruct (item f2 i j) as [xf2|] eqn:Ef2; [|discriminate].
  destruct (item v2 i j) as [xv2|] eqn:Ev2; [|discriminate].
  destruct (item n2 i j) as [xn2|] eqn:En2; [|discriminate].
  intros [= <-] [= <-].
  rewrite (P4 i j _ _ (P3 i j _ _ (P2 i j _ _ (P1 i j _ _ (Pb i j _ _ Eb1 Eb2)
             (Pw i j _ _ Ew1 Ew2)) (Pf i j _ _ Ef1 Ef2)) (Pv i j _ _ Ev1 Ev2))
             (Pn i j _ _ En1 En2)).
  cbn [combine existsb fst snd]. f_equal.
  now rewrite orb_false_r, !orb_assoc.
Qed.

(** Without pixels the picture cannot be saved. *)
Lemma create_change_map_empty (masks1 masks2 : masks) (tc : ndarray bool) :
  total_change masks1 masks2 = Ok tc -> shape0 tc * shape1 tc = 0 ->
  create_change_map masks1 masks2 = Raise SaveError.
Proof.
  intros Htc Hn. unfold create_change_map. rewrite Htc. cbn [bind].
  rewrite mask_assign_same_shape by (split; reflexivity). cbn [bind].
  unfold image_save. cbn [shape0 shape1].
  destruct (shape0 tc), (shape1 tc); try reflexivity. discriminate Hn.
Qed.

Lemma create_change_map_pixelwise (masks1 masks2 : masks) (tc : ndarray bool) :
  total_change masks1 masks2 = Ok tc -> wf tc ->
  0 < shape0 tc * shape1 tc ->
  exists cm, create_change_map masks1 masks2 = Ok cm /\
    has_shape (shape0 tc) (shape1 tc) cm /\
    forall i j c, item tc i j = Some c ->
      item cm i j = Some (if c then 255 else 0)%Z.
Proof.
  intros Htc Hwf Hn. unfold create_change_map. rewrite Htc. cbn [bind].
  set (blank := mk_ndarray (shape0 tc) (shape1 tc)
                  (repeat 0%Z (shape0 tc * shape1 tc))).
  assert (Hblank : wf blank) by apply repeat_length.
  rewrite mask_assign_same_shape by (split; reflexivity). cbn [bind].
  assert (Hsave : forall l : list Z,
            image_save (mk_ndarray (shape0 blank) (shape1 blank) l) = Ok tt).
  { intros l. unfold image_save. cbn [shape0 shape1 blank].
    destruct (shape0 tc), (shape1 tc); try reflexivity; lia. }
  rewrite Hsave. cbn [bind].
  eexists. split; [reflexivity|]. split.
  - split; [|split; reflexivity].
    apply (@wf_zip _ _ _ (fun p : Z * bool => if snd p then 255%Z else fst p)
             blank tc); [assumption|assumption|split; reflexivity].
  - intros i j c Hc. destruct (item_inside _ _ _ Hc) as [Hi Hj].
    assert (Hz : item blank i j = Some 0%Z).
    { rewrite item_flat by assumption. cbn [blank flat shape1].
      rewrite (@nth_error_nth_default _ _ _ 0%Z).
      - now rewrite nth_repeat.
      - rewrite repeat_length. now apply flat_position_bound. }
    rewrite (@item_zip _ _ _ (fun p : Z * bool => if snd p then 255%Z else fst p)
               blank tc i j 0%Z c); [|split; reflexivity|assumption..].
    now destruct c.
Qed.

(** Between two mask values, the difference stays within the threshold
    exactly when the values are equal. *)
Lemma flipped_binary (x y : num) :
  binary x -> binary y -> (flipped x y = false <-> x = y).
Proof.
  intros [-> | ->] [-> | ->]; vm_compute; split; intros H;
    try discriminate; reflexivity.
Qed.

Lemma flipped_lists (p1 p2 : list num) :
  length p1 = length p2 -> Forall binary p1 -> Forall binary p2 ->
  (existsb (fun p => flipped (fst p) (snd p)) (combine p1 p2) = false
   <-> p1 = p2).
Proof.
  revert p2. induction p1 as [|x p1 IH]; intros [|y p2] Hlen H1 H2;
    try discriminate.
  - simpl. tauto.
  - inversion H1 as [|? ? Hx H1']. inversion H2 as [|? ? Hy H2']. subst.
    cbn [combine existsb fst snd]. rewrite orb_false_iff.
    rewrite (flipped_binary Hx Hy), (IH p2) by (auto; simpl in Hlen; lia).
    split.
    + now intros [-> ->].
    + intros [= -> ->]. tauto.
Qed.

Lemma binary_item (a : ndarray num) (i j : nat) (x : num) :
  Forall binary (flat a) -> item a i j = Some x -> binary x.
Proof.
  intros Hall Hx. destruct (item_inside _ _ _ Hx) as [Hi Hj].
  rewrite item_flat in Hx by assumption. apply nth_error_In in Hx.
  rewrite Forall_forall in Hall. now apply Hall.
Qed.

Lemma binary_at_pixel (m : masks) (i j : nat) (p : list num) :
  binary_masks m -> at_pixel m i j = Some p ->
  Forall binary p /\ length p = 5.
Proof.
  destruct m as [[[[bu wa] fo] ve] ba]. intros (Hb & Hw & Hf & Hv & Hn).
  cbn [at_pixel].
  destruct (item bu i j) eqn:Eb; [|discriminate].
  destruct (item wa i j) eqn:Ew; [|discriminate].
  destruct (item fo i j) eqn:Ef; [|discriminate].
  destruct (item ve i j) eqn:Ev; [|discriminate].
  destruct (item ba i j) eqn:En; [|discriminate].
  intros [= <-]. split; [|reflexivity].
  repeat (apply Forall_cons; [eauto using binary_item|]).
  apply Forall_nil.
Qed.


(** C3.  For two sets of binary masks of one shape, the unified change
    mask [total_change] of [create_change_map] is true (1) at a pixel if
    and only if for some class the absolute difference of the two masks
    exceeds 0.1, that is, if and only if the membership in some class
    flipped, and false (0) if and only if all five memberships agree.  When
    there is at least one pixel the function returns the picture that
    holds 255 where the mask is true and 0 elsewhere; without pixels the
    picture cannot be saved and the function raises. *)
Theorem change_mask_spec (h w : nat) (masks1 masks2 : masks) :
  masks_of_shape h w masks1 -> masks_of_shape h w masks2 ->
  binary_masks masks1 -> binary_masks masks2 ->
  exists tc,
    total_change masks1 masks2 = Ok tc /\ has_shape h w tc /\
    (forall i j, i < h -> j < w ->
       exists p1 p2 c,
         at_pixel masks1 i j = Some p1 /\ at_pixel masks2 i j = Some p2 /\
         item tc i j = Some c /\
         (c = true <->
          Exists (fun p => gt (abs (snd p - fst p)%num) change_threshold = true)
                 (combine p1 p2)) /\
         (c = true <-> p1 <> p2) /\
         (c = false <-> p1 = p2)) /\
    (0 < h * w ->
     exists cm,
       create_change_map masks1 masks2 = Ok cm /\ has_shape h w cm /\
       forall i j c, item tc i j = Some c ->
         item cm i j = Some (if c then 255 else 0)%Z) /\
    (h * w = 0 -> create_change_map masks1 masks2 = Raise SaveError).
Proof.
  intros Hs1 Hs2 Hb1 Hb2.
  destruct (@total_change_pixelwise h w masks1 masks2 Hs1 Hs2) as (tc & Htc & Hshape & Hpx).
  exists tc. do 2 (split; [assumption|]).
  destruct Hshape as (Hwf & H0 & H1).
  split; [|split].
  - intros i j Hi Hj.
    destruct (@at_pixel_exists h w masks1 i j Hs1 Hi Hj) as (b1 & w1 & f1 & v1 & n1 & Hp1).
    destruct (@at_pixel_exists h w masks2 i j Hs2 Hi Hj) as (b2 & w2 & f2 & v2 & n2 & Hp2).
    eexists _, _, _. do 2 (split; [eassumption|]).
    pose proof (Hpx i j _ _ Hp1 Hp2) as Hc.
    split; [exact Hc|].
    destruct (@binary_at_pixel masks1 i j _ Hb1 Hp1) as [B1 L1].
    destruct (@binary_at_pixel masks2 i j _ Hb2 Hp2) as [B2 L2].
    assert (Hflip := @flipped_lists _ _ (eq_trans L1 (eq_sym L2)) B1 B2).
    split; [|split].
    + rewrite existsb_exists, Exists_exists. unfold flipped. reflexivity.
    + rewrite <- Hflip. now destruct (existsb _ _).
    + exact Hflip.
  - intros Hn.
    destruct (@create_change_map_pixelwise masks1 masks2 tc Htc Hwf)
      as (cm & Hcm & Hcmshape & Hcmpx); [now rewrite H0, H1|].
    exists cm. split; [assumption|]. rewrite H0, H1 in Hcmshape.
    split; assumption.
  - intros Hn. apply (@create_change_map_empty masks1 masks2 tc Htc).
    now rewrite H0, H1.
Qed.

(** * The change record *)

(** A record with the five class names is five entries under those names. *)
Lemma percentage_record_inv (d : dict) :
  percentage_record d ->
  exists b w f v n, d = combine class_names [b; w; f; v; n].
Proof.
  unfold percentage_record, class_names. intros H.
  destruct d as [|[k1 b] [|[k2 w] [|[k3 f] [|[k4 v] [|[k5 n] [|]]]]]];
    try discriminate.
  cbn [map fst] in H. injection H as -> -> -> -> ->.
  now exists b, w, f, v, n.
Qed.

Lemma change_stats_records (b1 w1 f1 v1 n1 b2 w2 f2 v2 n2 : num) :
  change_stats (combine class_names [b1; w1; f1; v1; n1])
               (combine class_names [b2; w2; f2; v2; n2]) =
  Ok (combine class_names
        [b2 - b1; w2 - w1; f2 - f1; v2 - v1; n2 - n1]%num).
Proof. reflexivity. Qed.

Lemma dict_get_record (b w f v n : num) (k : string) (x : num) :
  dict_get (combine class_names [b; w; f; v; n]) k = Ok x ->
  (k = "Built-up Area"%string /\ x = b) \/ (k = "Water"%string /\ x = w) \/
  (k = "Forest"%string /\ x = f) \/ (k = "Vegetation"%string /\ x = v) \/
  (k = "Barren Land"%string /\ x = n).
Proof.
  cbn [class_names combine dict_get].
  repeat match goal with
         | |- context [String.eqb ?a k] =>
             destruct (String.eqb_spec a k) as [<-|_];
             [intros [= <-]; tauto|]
         end.
  discriminate.
Qed.

(** The dict comprehension and the sum over its values, on two percentage
    records. *)
Lemma change_stats_spec (perc1 perc2 : dict) :
  percentage_record perc1 -> percentage_record perc2 ->
  exists d1 d2 d3 d4 d5,
    let change := combine class_names [d1; d2; d3; d4; d5] in
    change_stats perc1 perc2 = Ok change /\
    (forall k v1 v2,
       dict_get perc1 k = Ok v1 -> dict_get perc2 k = Ok v2 ->
       dict_get change k = Ok (v2 - v1)%num) /\
    total_change_area change =
      ((zero + abs d1 + abs d2 + abs d3 + abs d4 + abs d5) / Fin 2)%num.
Proof.
  intros H1 H2.
  destruct (percentage_record_inv H1) as (b1 & w1 & f1 & v1 & n1 & ->).
  destruct (percentage_record_inv H2) as (b2 & w2 & f2 & v2 & n2 & ->).
  exists (b2 - b1)%num, (w2 - w1)%num, (f2 - f1)%num, (v2 - v1)%num,
         (n2 - n1)%num.
  split; [apply change_stats_records|]. split; [|reflexivity].
  intros k x1 x2 Hk1 Hk2.
  apply dict_get_record in Hk1, Hk2.
  destruct Hk1 as [[-> ->]|[[-> ->]|[[-> ->]|[[-> ->]|[-> ->]]]]];
    destruct Hk2 as [[? ->]|[[? ->]|[[? ->]|[[? ->]|[? ->]]]]];
    try discriminate; reflexivity.
Qed.

Lemma total_change_swap (masks1 masks2 : masks) :
  total_change masks1 masks2 = total_change masks2 masks1.
Proof.
  destruct masks1 as [[[[b1 w1] f1] v1] n1], masks2 as [[[[b2 w2] f2] v2] n2].
  cbn [total_change].
  now rewrite (class_change_swap b1 b2), (class_change_swap w1 w2),
    (class_change_swap f1 f2), (class_change_swap v1 v2),
    (class_change_swap n1 n2).
Qed.

Lemma percentages_record (m : masks) :
  percentage_record (calculate_land_cover_percentages m).
Proof. now destruct m as [[[[bu wa] fo] ve] ba]. Qed.

Lemma total_change_area_negated (change : dict) :
  total_change_area (negated change) = total_change_area change.
Proof.
  unfold total_change_area, negated. rewrite map_map. cbn [snd].
  do 2 f_equal. apply map_ext. intros kv. apply abs_neg.
Qed.

Lemma create_change_map_swap (masks1 masks2 : masks) :
  create_change_map masks2 masks1 = create_change_map masks1 masks2.
Proof. unfold create_change_map. now rewrite total_change_swap. Qed.

Lemma change_stats_swap (masks1 masks2 : masks) :
  exists change,
    change_stats (calculate_land_cover_percentages masks1)
                 (calculate_land_cover_percentages masks2) = Ok change /\
    change_stats (calculate_land_cover_percentages masks2)
                 (calculate_land_cover_percentages masks1)
      = Ok (negated change).
Proof.
  destruct (percentage_record_inv (percentages_record masks1))
    as (b1 & w1 & f1 & v1 & n1 & ->).
  destruct (percentage_record_inv (percentages_record masks2))
    as (b2 & w2 & f2 & v2 & n2 & ->).
  eexists. split; [apply change_stats_records|].
  rewrite change_stats_records. unfold negated.
  cbn [class_names combine map fst snd].
  now rewrite <- !sub_swap.
Qed.

(** The pipeline run on the two images in the other order. *)
Lemma run_swap (image1 image2 : image) (r : analysis) :
  run_lulc_change_analysis image1 image2 = Ok r ->
  run_lulc_change_analysis image2 image1 =
  Ok (mk_analysis (res_image2 r) (res_image1 r) (negated (res_change r))
        (res_total_change_area r)).
Proof.
  unfold run_lulc_change_analysis.
  destruct (calculate_ndvi image1) as [ndvi1|]; [|discriminate].
  destruct (calculate_ndvi image2) as [ndvi2|]; [|discriminate].
  destruct (calculate_ndwi image1) as [ndwi1|]; [|discriminate].
  destruct (calculate_ndwi image2) as [ndwi2|]; [|discriminate].
  destruct (calculate_ndbi image1) as [ndbi1|]; [|discriminate].
  destruct (calculate_ndbi image2) as [ndbi2|]; [|discriminate].
  cbn [bind].
  destruct (classify_land_cover ndvi1 ndwi1 ndbi1) as [m1|]; [|discriminate].
  destruct (classify_land_cover ndvi2 ndwi2 ndbi2) as [m2|]; [|discriminate].
  cbn [bind]. rewrite (create_change_map_swap m1 m2).
  destruct (create_change_map m1 m2) as [cm|]; [|discriminate].
  cbn [bind].
  destruct (change_stats_swap m1 m2) as (change & -> & ->). cbn [bind].
  intros [= <-]. cbn [res_image1 res_image2 res_change res_total_change_area].
  now rewrite total_change_area_negated.
Qed.

(** C8.  Swapping the two sets of masks leaves the unified change mask and
    the returned picture of [create_change_map] identical, negates every
    per-class delta of the change record and leaves [total_change_area]
    unchanged; so does swapping the two images of a run of the pipeline. *)
Theorem swap_symmetry (masks1 masks2 : masks) :
  total_change masks2 masks1 = total_change masks1 masks2 /\
  create_change_map masks2 masks1 = create_change_map masks1 masks2 /\
  (exists change,
     change_stats (calculate_land_cover_percentages masks1)
                  (calculate_land_cover_percentages masks2) = Ok change /\
     change_stats (calculate_land_cover_percentages masks2)
                  (calculate_land_cover_percentages masks1)
       = Ok (negated change) /\
     total_change_area (negated change) = total_change_area change) /\
  (forall image1 image2 r,
     run_lulc_change_analysis image1 image2 = Ok r ->
     exists r',
       run_lulc_change_analysis image2 image1 = Ok r' /\
       res_image1 r' = res_image2 r /\ res_image2 r' = res_image1 r /\
       res_change r' = negated (res_change r) /\
       res_total_change_area r' = res_total_change_area r).
Proof.
  split; [apply total_change_swap|].
  split; [apply create_change_map_swap|]. split.
  - destruct (change_stats_swap masks1 masks2) as (change & H12 & H21).
    exists change. auto using total_change_area_negated.
  - intros image1 image2 r Hr. eexists.
    split; [apply (run_swap _ _ Hr)|]. auto.
Qed.

(** * The percentage aggregator *)

Lemma Qred_inject_Z (z : Z) : Qred (inject_Z z) = inject_Z z.
Proof.
  apply Qcanon.Qred_identity. unfold inject_Z. cbn [Qnum Qden]. apply Z.gcd_1_r.
Qed.

Lemma add_of_nat (a b : nat) : (of_nat a + of_nat b)%num = of_nat (a + b).
Proof.
  unfold of_nat. cbn [add]. f_equal.
  rewrite Nat2Z.inj_add.
  rewrite <- (Qred_inject_Z (Z.of_nat a + Z.of_nat b)). apply Qred_complete.
  now rewrite inject_Z_plus.
Qed.

Lemma count_ones_cons (x : num) (l : list num) :
  count_ones (x :: l) = (if eqb x one then 1 else 0) + count_ones l.
Proof. unfold count_ones. cbn [filter]. now destruct (eqb x one). Qed.

Lemma count_ones_le_length (l : list num) : count_ones l <= length l.
Proof. apply filter_length_le. Qed.

(** Summing a binary mask counts its ones. *)
Lemma sum_binary (l : list num) (c : nat) :
  Forall binary l -> fold_left add l (of_nat c) = of_nat (c + count_ones l).
Proof.
  intros Hl. revert c. induction Hl as [|x l Hx Hl IH]; intros c.
  - cbn. now rewrite Nat.add_0_r.
  - cbn [fold_left]. rewrite count_ones_cons.
    destruct Hx as [-> | ->].
    + change (eqb zero one) with false. cbv iota.
      change zero with (of_nat 0). rewrite add_of_nat, IH. f_equal. lia.
    + change (eqb one one) with true. cbv iota.
      change one with (of_nat 1). rewrite add_of_nat, IH. f_equal. lia.
Qed.

Lemma np_sum_binary (a : ndarray num) :
  Forall binary (flat a) -> np_sum a = of_nat (count_ones (flat a)).
Proof. intros H. unfold np_sum. change zero with (of_nat 0). now rewrite sum_binary. Qed.

Lemma inject_nat_pos (n : nat) : 0 < n -> (0 < inject_Z (Z.of_nat n))%Q.
Proof. intros H. unfold Qlt, inject_Z. cbn [Qnum Qden]. lia. Qed.

Lemma inject_nat_le (a b : nat) :
  a <= b -> (inject_Z (Z.of_nat a) <= inject_Z (Z.of_nat b))%Q.
Proof. intros H. rewrite <- Zle_Qle. lia. Qed.

Lemma pct_Fin (c n : nat) :
  0 < n ->
  (of_nat c / of_nat n * hundred)%num = Fin (Qred (Qred (ratio c n) * 100)).
Proof.
  intros Hn. unfold of_nat, hundred, ratio. cbn [div].
  destruct (sgn (inject_Z (Z.of_nat n))) eqn:E; try reflexivity.
  apply sgn_Eq in E. pose proof (inject_nat_pos Hn). lra.
Qed.

Lemma ratio_range (c n : nat) : 0 < n -> c <= n -> (0 <= ratio c n <= 1)%Q.
Proof.
  intros Hn Hc. unfold ratio.
  pose proof (inject_nat_pos Hn) as Hpos.
  pose proof (inject_nat_le Hc) as Hle.
  pose proof (inject_nat_le (Nat.le_0_l c)) as H0.
  change (inject_Z (Z.of_nat 0)) with 0%Q in H0.
  generalize dependent (inject_Z (Z.of_nat n)).
  generalize dependent (inject_Z (Z.of_nat c)). intros qc H0 qn Hpos Hle.
  split.
  - apply Qle_shift_div_l; [assumption|]. lra.
  - apply Qle_shift_div_r; [assumption|]. lra.
Qed.

Lemma pct_range (c n : nat) :
  0 < n -> c <= n -> between zero hundred (of_nat c / of_nat n * hundred)%num.
Proof.
  intros Hn Hc. rewrite pct_Fin by assumption.
  destruct (ratio_range Hn Hc) as [H0 H1].
  unfold between, zero, hundred. rewrite !le_Fin, !Qred_correct. lra.
Qed.

(** The counts of a classification add up to at most the pixel count. *)
Lemma count_sum (zs : list (num * (num * num))) :
  count_ones (map px_built_up zs) + count_ones (map px_water zs) +
  count_ones (map px_forest zs) + count_ones (map px_vegetation zs) +
  count_ones (map px_barren zs) <= length zs.
Proof.
  induction zs as [|t zs IH]; [cbn; lia|].
  cbn [map length]. rewrite !count_ones_cons.
  assert (H : (if eqb (px_built_up t) one then 1 else 0) +
              (if eqb (px_water t) one then 1 else 0) +
              (if eqb (px_forest t) one then 1 else 0) +
              (if eqb (px_vegetation t) one then 1 else 0) +
              (if eqb (px_barren t) one then 1 else 0) <= 1).
  { unfold px_built_up, px_water, px_forest, px_vegetation, px_barren.
    destruct (classify_pixel (fst t) (fst (snd t)) (snd (snd t)))
      as [[[[b w] f] v] n] eqn:E.
    destruct (classify_pixel_exclusive E) as [_ H].
    rewrite !count_ones_cons in H. change (count_ones []) with 0 in H. lia. }
  lia.
Qed.

(** C4, as amended.  For five binary masks of one shape,
    [calculate_land_cover_percentages] returns for each class the count of
    1.0-valued pixels over the pixel count height x width, times 100.  When
    the masks are not empty each percentage lies in [0, 100], and for masks
    produced by [classify_land_cover] the five counts add up to at most
    the pixel count. *)
Theorem percentages_spec (h w : nat)
    (built_up water forest vegetation barren : ndarray num) :
  masks_of_shape h w (built_up, water, forest, vegetation, barren) ->
  binary_masks (built_up, water, forest, vegetation, barren) ->
  calculate_land_cover_percentages
    (built_up, water, forest, vegetation, barren) =
    combine class_names
      [spec_percentage h w built_up; spec_percentage h w water;
       spec_percentage h w forest; spec_percentage h w vegetation;
       spec_percentage h w barren] /\
  (0 < h * w ->
   Forall (fun kv => between zero hundred (snd kv))
     (calculate_land_cover_percentages
        (built_up, water, forest, vegetation, barren)) /\
   forall ndvi ndwi ndbi,
     wf ndvi -> wf ndwi -> wf ndbi ->
     same_shape ndvi ndwi -> same_shape ndvi ndbi ->
     classify_land_cover ndvi ndwi ndbi =
       Ok (built_up, water, forest, vegetation, barren) ->
     count_ones (flat built_up) + count_ones (flat water) +
     count_ones (flat forest) + count_ones (flat vegetation) +
     count_ones (flat barren) <= h * w).
Proof.
  intros (Sb & Sw & Sf & Sv & Sn) (Bb & Bw & Bf & Bv & Bn).
  assert (Hformula :
    calculate_land_cover_percentages
      (built_up, water, forest, vegetation, barren) =
    combine class_names
      [spec_percentage h w built_up; spec_percentage h w water;
       spec_percentage h w forest; spec_percentage h w vegetation;
       spec_percentage h w barren]).
  { unfold calculate_land_cover_percentages, percentage, spec_percentage.
    rewrite !np_sum_binary by assumption. unfold size.
    destruct Sb as (_ & -> & ->). reflexivity. }
  split; [exact Hformula|]. intros Hn. rewrite Hformula. split.
  - assert (Hone : forall a, has_shape h w a ->
              between zero hundred (spec_percentage h w a)).
    { intros a (Hwf & H0 & H1). apply pct_range; [assumption|].
      pose proof (count_ones_le_length (flat a)) as Hle.
      unfold wf, size in Hwf. rewrite Hwf, H0, H1 in Hle. exact Hle. }
    cbn [class_names combine].
    repeat (apply Forall_cons; [cbn [snd]; now apply Hone|]).
    apply Forall_nil.
  - intros ndvi ndwi ndbi Hv Hw Hi Hvw Hvi Hc.
    rewrite classify_flat in Hc by assumption.
    destruct Sb as (Hwf & H0 & H1).
    injection Hc as <- <- <- <- <-.
    unfold wf, size in Hwf. cbn [flat shape0 shape1] in Hwf, H0, H1.
    rewrite length_map, H0, H1 in Hwf.
    cbn [flat]. rewrite <- Hwf. apply count_sum.
Qed.

(** C4 as stated fails twice.  On masks without pixels the total pixel
    count is zero and every percentage is 0/0, hence nan and outside
    [0, 100], although the masks are those of a classification.  And on
    the nine pixels of a classification with seven, one and one pixels in
    three classes the returned binary64 percentages add up to more than
    100, as Python adds them and as exact numbers. *)
Lemma percentages_counterexample :
  (masks_of_shape 0 0 empty_masks /\ binary_masks empty_masks /\
   classify_land_cover empty_mask empty_mask empty_mask = Ok empty_masks /\
   calculate_land_cover_percentages empty_masks =
     combine class_names [NaN; NaN; NaN; NaN; NaN] /\
   ~ between zero hundred NaN) /\
  (masks_of_shape 3 3 nine_masks /\ binary_masks nine_masks /\
   classify_land_cover nine_ndvi nine_ndwi nine_ndbi = Ok nine_masks /\
   PrimFloat.ltb (F64.of_nat 100)
     (F64.total (F64.calculate_land_cover_percentages nine_masks)) = true /\
   exists q,
     F64.exact_total (F64.calculate_land_cover_percentages nine_masks)
       = Some q /\ (100 < q)%Q).
Proof.
  split.
  - split; [repeat split|].
    split; [repeat split; apply Forall_nil|].
    split; [reflexivity|]. split; [reflexivity|]. apply between_not_nan.
  - split; [repeat split|].
    split.
    { repeat split; cbn [flat repeat app];
        repeat (apply Forall_cons;
                [first [left; reflexivity | right; reflexivity]|]);
        apply Forall_nil. }
    split; [reflexivity|]. split; [vm_compute; reflexivity|].
    eexists. split; [vm_compute; reflexivity|]. reflexivity.
Qed.

(** * Images with too few bands *)

Lemma combine_repeat {A B : Type} (a : A) (b : B) (n : nat) :
  combine (repeat a n) (repeat b n) = repeat (a, b) n.
Proof. induction n as [|n IH]; [reflexivity|]. cbn. now rewrite IH. Qed.

Lemma count_ones_zeros (n : nat) : count_ones (repeat zero n) = 0.
Proof.
  induction n as [|n IH]; [reflexivity|].
  cbn [repeat]. now rewrite count_ones_cons, IH.
Qed.

Lemma count_ones_ones (n : nat) : count_ones (repeat one n) = n.
Proof.
  induction n as [|n IH]; [reflexivity|].
  cbn [repeat]. now rewrite count_ones_cons, IH.
Qed.

Lemma pct_none (n : nat) : 0 < n -> (of_nat 0 / of_nat n * hundred)%num = zero.
Proof.
  intros Hn. rewrite pct_Fin by assumption. reflexivity.
Qed.

Lemma pct_all (n : nat) : 0 < n -> (of_nat n / of_nat n * hundred)%num = hundred.
Proof.
  intros Hn. rewrite pct_Fin by assumption. unfold hundred. f_equal.
  change 100%Q with (Qred 100) at 2. apply Qred_complete. rewrite Qred_correct.
  unfold ratio. pose proof (inject_nat_pos Hn).
  generalize dependent (inject_Z (Z.of_nat n)). intros qn Hq. field. lra.
Qed.

(** Classifying three all-zero index arrays marks every pixel barren. *)
Lemma classify_zeros (h w : nat) :
  classify_land_cover (np_zeros h w) (np_zeros h w) (np_zeros h w) =
  Ok (np_zeros h w, np_zeros h w, np_zeros h w, np_zeros h w,
      mk_ndarray h w (repeat one (h * w))).
Proof.
  rewrite classify_flat by auto with arr.
  unfold zip3, np_zeros. cbn [flat shape0 shape1].
  rewrite !combine_repeat, !map_repeat. reflexivity.
Qed.

(** C10, as amended.  For an image with fewer than four bands and at least
    one pixel, the three indices are all-zero arrays, [classify_land_cover]
    marks every pixel barren and nothing else, and the percentage record is
    exactly 100.0 for "Barren Land" and 0.0 for the other four classes. *)
Theorem too_few_bands_all_barren (im : image) :
  bands im < 4 -> 0 < height im * width im ->
  exists ndvi ndwi ndbi m,
    calculate_ndvi im = Ok ndvi /\ calculate_ndwi im = Ok ndwi /\
    calculate_ndbi im = Ok ndbi /\
    is_zeros (height im) (width im) ndvi /\
    is_zeros (height im) (width im) ndwi /\
    is_zeros (height im) (width im) ndbi /\
    classify_land_cover ndvi ndwi ndbi = Ok m /\
    (forall i j, i < height im -> j < width im ->
       at_pixel m i j = Some [zero; zero; zero; zero; one]) /\
    calculate_land_cover_percentages m =
      combine class_names [zero; zero; zero; zero; hundred].
Proof.
  intros Hb Hn.
  set (h := height im) in *. set (w := width im) in *.
  exists (np_zeros h w), (np_zeros h w), (np_zeros h w).
  eexists. unfold calculate_ndvi, calculate_ndwi, calculate_ndbi.
  assert (H4 : (bands im <? 4) = true) by (apply Nat.ltb_lt; lia).
  assert (H5 : (bands im <? 5) = true) by (apply Nat.ltb_lt; lia).
  rewrite H4, H5. fold h w.
  do 3 (split; [reflexivity|]).
  do 3 (split; [apply np_zeros_is_zeros|]).
  split; [apply classify_zeros|]. split.
  - intros i j Hi Hj. cbn [at_pixel].
    rewrite (item_zeros Hi Hj), item_flat by assumption.
    cbn [flat shape1].
    rewrite (@nth_error_nth_default _ _ _ one), nth_repeat; [reflexivity|].
    rewrite repeat_length. now apply flat_position_bound.
  - unfold calculate_land_cover_percentages, percentage.
    rewrite !np_sum_binary.
    + cbn [np_zeros flat size shape0 shape1].
      rewrite count_ones_zeros, count_ones_ones.
      change (size (np_zeros h w)) with (h * w).
      now rewrite (pct_none Hn), (pct_all Hn).
    + apply Forall_forall. intros x Hx. apply repeat_spec in Hx.
      right. exact Hx.
    + apply Forall_forall. intros x Hx. apply repeat_spec in Hx.
      left. exact Hx.
Qed.

(** C10 as stated fails on an image without pixels: nothing is barren and
    every percentage is nan. *)
Lemma too_few_bands_counterexample :
  bands empty_image < 4 /\
  calculate_ndvi empty_image = Ok empty_mask /\
  calculate_ndwi empty_image = Ok empty_mask /\
  calculate_ndbi empty_image = Ok empty_mask /\
  classify_land_cover empty_mask empty_mask empty_mask = Ok empty_masks /\
  calculate_land_cover_percentages empty_masks =
    combine class_names [NaN; NaN; NaN; NaN; NaN] /\
  dict_get (calculate_land_cover_percentages empty_masks) "Barren Land"
    <> Ok hundred.
Proof.
  split; [cbn; lia|].
  do 5 (split; [reflexivity|]). discriminate.
Qed.

(** * Further facts *)

(** Non-negative bands never cancel against [eps], so their indices are
    never nan. *)
Lemma zero_over_zero_nonneg (a b : Q) :
  (0 <= a)%Q -> (0 <= b)%Q -> zero_over_zero (Fin a) (Fin b) = false.
Proof.
  intros Ha Hb. unfold zero_over_zero. cbn [add eps].
  apply andb_false_iff. right.
  destruct (eqb _ zero) eqn:E; [|reflexivity].
  apply eqb_Fin_zero in E. rewrite !Qred_correct in E. lra.
Qed.

(** NIR = 1e6 against Red = 0 stays inside [-1, 1]. *)
Example extreme_bands_clipped :
  between minus_one one (normalized_difference (Fin 1000000) (Fin 0)).
Proof. split; reflexivity. Qed.

(** A pixel can end up in no class: NDVI = -0.5 without water or
    built-up. *)
Example pixel_without_class :
  classify_land_cover (mk_ndarray 1 1 [Fin (-1 # 2)]) (np_zeros 1 1)
    (np_zeros 1 1)
  = Ok (np_zeros 1 1, np_zeros 1 1, np_zeros 1 1, np_zeros 1 1, np_zeros 1 1).
Proof. reflexivity. Qed.

(** An image compared with itself: no delta, no change area, a black
    picture. *)
Example same_image_no_change :
  run_lulc_change_analysis sample_image sample_image =
  Ok (mk_analysis
        (calculate_land_cover_percentages sample_masks)
        (calculate_land_cover_percentages sample_masks)
        (combine class_names [zero; zero; zero; zero; zero])
        zero) /\
  create_change_map sample_masks sample_masks =
  Ok (mk_ndarray 1 2 [0%Z; 0%Z]).
Proof. split; vm_compute; reflexivity. Qed.

(** * The theorems on the sample inputs *)

Ltac binary_list :=
  repeat (apply Forall_cons;
          [first [left; reflexivity | right; reflexivity]|]);
  apply Forall_nil.

(** C1 on the two sample pixels. *)
Lemma classify_mutually_exclusive_witness :
  wf sample_ndvi /\ wf sample_ndwi /\ wf sample_ndbi /\
  same_shape sample_ndvi sample_ndwi /\ same_shape sample_ndvi sample_ndbi /\
  exists built_up water forest vegetation barren,
    classify_land_cover sample_ndvi sample_ndwi sample_ndbi =
      Ok (built_up, water, forest, vegetation, barren) /\
    forall i j, i < shape0 sample_ndvi -> j < shape1 sample_ndvi ->
      exists b w f v n,
        item built_up i j = Some b /\ item water i j = Some w /\
        item forest i j = Some f /\ item vegetation i j = Some v /\
        item barren i j = Some n /\
        Forall binary [b; w; f; v; n] /\
        count_ones [b; w; f; v; n] <= 1.
Proof.
  assert (Hv : wf sample_ndvi) by reflexivity.
  assert (Hw : wf sample_ndwi) by reflexivity.
  assert (Hb : wf sample_ndbi) by reflexivity.
  assert (Hvw : same_shape sample_ndvi sample_ndwi) by (split; reflexivity).
  assert (Hvb : same_shape sample_ndvi sample_ndbi) by (split; reflexivity).
  repeat (split; [assumption|]).
  exact (@classify_mutually_exclusive sample_ndvi sample_ndwi sample_ndbi
           Hv Hw Hb Hvw Hvb).
Defined.

(** C2 on the two sample pixels, which are the two scenarios. *)
Lemma classify_precedence_witness :
  wf sample_ndvi /\ wf sample_ndwi /\ wf sample_ndbi /\
  same_shape sample_ndvi sample_ndwi /\ same_shape sample_ndvi sample_ndbi /\
  exists built_up water forest vegetation barren,
    classify_land_cover sample_ndvi sample_ndwi sample_ndbi =
      Ok (built_up, water, forest, vegetation, barren) /\
    forall i j, i < shape0 sample_ndvi -> j < shape1 sample_ndvi ->
      exists x y z b w f v n,
        item sample_ndvi i j = Some x /\ item sample_ndwi i j = Some y /\
        item sample_ndbi i j = Some z /\
        item built_up i j = Some b /\ item water i j = Some w /\
        item forest i j = Some f /\ item vegetation i j = Some v /\
        item barren i j = Some n /\
        (gt z zero = true -> f = zero /\ v = zero /\ n = zero) /\
        (gt y zero = true ->
         f = zero /\ v = zero /\ n = zero /\ b = zero /\ w = one) /\
        (eqb x (Fin (6 # 10)) = true -> eqb z (Fin (2 # 10)) = true ->
         le y zero = true ->
         (b, w, f, v, n) = (one, zero, zero, zero, zero)) /\
        (eqb y (Fin (3 # 10)) = true -> eqb z (Fin (2 # 10)) = true ->
         (b, w, f, v, n) = (zero, one, zero, zero, zero)).
Proof.
  assert (Hv : wf sample_ndvi) by reflexivity.
  assert (Hw : wf sample_ndwi) by reflexivity.
  assert (Hb : wf sample_ndbi) by reflexivity.
  assert (Hvw : same_shape sample_ndvi sample_ndwi) by (split; reflexivity).
  assert (Hvb : same_shape sample_ndvi sample_ndbi) by (split; reflexivity).
  repeat (split; [assumption|]).
  exact (@classify_precedence sample_ndvi sample_ndwi sample_ndbi
           Hv Hw Hb Hvw Hvb).
Defined.

(** C3 between the sample classification and an all-barren one, and
    between the masks without pixels and themselves. *)
Lemma change_mask_spec_witness :
  masks_of_shape 1 2 sample_masks /\ masks_of_shape 1 2 barren_masks /\
  binary_masks sample_masks /\ binary_masks barren_masks /\
  0 < 1 * 2 /\
  masks_of_shape 0 0 empty_masks /\ binary_masks empty_masks /\
  0 * 0 = 0 /\
  create_change_map empty_masks empty_masks = Raise SaveError /\
  exists tc,
    total_change sample_masks barren_masks = Ok tc /\ has_shape 1 2 tc /\
    (forall i j, i < 1 -> j < 2 ->
       exists p1 p2 c,
         at_pixel sample_masks i j = Some p1 /\
         at_pixel barren_masks i j = Some p2 /\
         item tc i j = Some c /\
         (c = true <->
          Exists (fun p => gt (abs (snd p - fst p)%num) change_threshold = true)
                 (combine p1 p2)) /\
         (c = true <-> p1 <> p2) /\
         (c = false <-> p1 = p2)) /\
    exists cm,
      create_change_map sample_masks barren_masks = Ok cm /\
      has_shape 1 2 cm /\
      forall i j c, item tc i j = Some c ->
        item cm i j = Some (if c then 255 else 0)%Z.
Proof.
  assert (Hs1 : masks_of_shape 1 2 sample_masks) by (repeat split).
  assert (Hs2 : masks_of_shape 1 2 barren_masks) by (repeat split).
  assert (Hb1 : binary_masks sample_masks) by (repeat split; binary_list).
  assert (Hb2 : binary_masks barren_masks) by (repeat split; binary_list).
  assert (Hn : 0 < 1 * 2) by (cbn; lia).
  assert (Hs0 : masks_of_shape 0 0 empty_masks) by (repeat split).
  assert (Hb0 : binary_masks empty_masks) by (repeat split; binary_list).
  assert (H0 : 0 * 0 = 0) by reflexivity.
  repeat (split; [assumption|]).
  split.
  - destruct (@change_mask_spec 0 0 empty_masks empty_masks Hs0 Hs0 Hb0 Hb0)
      as (tc & _ & _ & _ & _ & He).
    exact (He H0).
  - destruct (@change_mask_spec 1 2 sample_masks barren_masks Hs1 Hs2 Hb1 Hb2)
      as (tc & Htc & Hshape & Hpx & Hcm & _).
    exists tc. do 3 (split; [assumption|]). exact (Hcm Hn).
Defined.

(** C4 on the sample classification: two pixels, 50 and 50 percent. *)
Lemma percentages_spec_witness :
  masks_of_shape 1 2 sample_masks /\ binary_masks sample_masks /\
  0 < 1 * 2 /\
  classify_land_cover sample_ndvi sample_ndwi sample_ndbi = Ok sample_masks /\
  calculate_land_cover_percentages sample_masks =
    combine class_names
      [spec_percentage 1 2 sample_built_up; spec_percentage 1 2 sample_water;
       spec_percentage 1 2 sample_none; spec_percentage 1 2 sample_none;
       spec_percentage 1 2 sample_none] /\
  Forall (fun kv => between zero hundred (snd kv))
    (calculate_land_cover_percentages sample_masks) /\
  count_ones (flat sample_built_up) + count_ones (flat sample_water) +
  count_ones (flat sample_none) + count_ones (flat sample_none) +
  count_ones (flat sample_none) <= 1 * 2.
Proof.
  assert (Hs : masks_of_shape 1 2 sample_masks) by (repeat split).
  assert (Hb : binary_masks sample_masks) by (repeat split; binary_list).
  assert (Hn : 0 < 1 * 2) by (cbn; lia).
  assert (Hc : classify_land_cover sample_ndvi sample_ndwi sample_ndbi
               = Ok sample_masks) by reflexivity.
  repeat (split; [assumption|]).
  destruct (@percentages_spec 1 2 sample_built_up sample_water sample_none
              sample_none sample_none Hs Hb) as [Hformula Hrest].
  destruct (Hrest Hn) as [Hrange Hsum].
  split; [exact Hformula|]. split; [exact Hrange|].
  apply (Hsum sample_ndvi sample_ndwi sample_ndbi);
    try reflexivity; try (split; reflexivity).
Defined.


(** C6 on the three-band sample image. *)
Lemma insufficient_bands_zero_witness :
  bands rgb_image < 4 /\ bands rgb_image < 5 /\
  (exists ndvi ndwi,
     calculate_ndvi rgb_image = Ok ndvi /\ calculate_ndwi rgb_image = Ok ndwi /\
     is_zeros (height rgb_image) (width rgb_image) ndvi /\
     is_zeros (height rgb_image) (width rgb_image) ndwi) /\
  (exists ndbi,
     calculate_ndbi rgb_image = Ok ndbi /\
     is_zeros (height rgb_image) (width rgb_image) ndbi).
Proof.
  assert (H4 : bands rgb_image < 4) by (cbn; lia).
  assert (H5 : bands rgb_image < 5) by (cbn; lia).
  repeat (split; [assumption|]).
  split.
  - exact (proj1 (insufficient_bands_zero rgb_image) H4).
  - exact (proj2 (insufficient_bands_zero rgb_image) H5).
Defined.

(** C7 on the five-band sample image. *)
Lemma index_formulas_witness :
  wf_image sample_image /\ 4 <= bands sample_image /\
  5 <= bands sample_image /\
  (exists ndvi ndwi,
     calculate_ndvi sample_image = Ok ndvi /\
     calculate_ndwi sample_image = Ok ndwi /\
     shape0 ndvi = height sample_image /\ shape1 ndvi = width sample_image /\
     shape0 ndwi = height sample_image /\ shape1 ndwi = width sample_image /\
     forall i j, i < height sample_image -> j < width sample_image ->
       exists green red nir,
         voxel sample_image i j 1 = Some green /\
         voxel sample_image i j 2 = Some red /\
         voxel sample_image i j 3 = Some nir /\
         item ndvi i j = Some (normalized_difference nir red) /\
         item ndwi i j = Some (normalized_difference green nir)) /\
  (exists ndbi,
     calculate_ndbi sample_image = Ok ndbi /\
     shape0 ndbi = height sample_image /\ shape1 ndbi = width sample_image /\
     forall i j, i < height sample_image -> j < width sample_image ->
       exists nir swir,
         voxel sample_image i j 3 = Some nir /\
         voxel sample_image i j 4 = Some swir /\
         item ndbi i j = Some (normalized_difference swir nir)).
Proof.
  assert (Hwf : wf_image sample_image)
    by (split; [reflexivity|repeat constructor]).
  assert (H4 : 4 <= bands sample_image) by (cbn; lia).
  assert (H5 : 5 <= bands sample_image) by (cbn; lia).
  repeat (split; [assumption|]).
  split.
  - exact (proj1 (@index_formulas sample_image Hwf) H4).
  - exact (proj2 (@index_formulas sample_image Hwf) H5).
Defined.

(** C10 on the three-band sample image. *)
Lemma too_few_bands_all_barren_witness :
  bands rgb_image < 4 /\ 0 < height rgb_image * width rgb_image /\
  exists ndvi ndwi ndbi m,
    calculate_ndvi rgb_image = Ok ndvi /\ calculate_ndwi rgb_image = Ok ndwi /\
    calculate_ndbi rgb_image = Ok ndbi /\
    is_zeros (height rgb_image) (width rgb_image) ndvi /\
    is_zeros (height rgb_image) (width rgb_image) ndwi /\
    is_zeros (height rgb_image) (width rgb_image) ndbi /\
    classify_land_cover ndvi ndwi ndbi = Ok m /\
    (forall i j, i < height rgb_image -> j < width rgb_image ->
       at_pixel m i j = Some [zero; zero; zero; zero; one]) /\
    calculate_land_cover_percentages m =
      combine class_names [zero; zero; zero; zero; hundred].
Proof.
  assert (Hb : bands rgb_image < 4) by (cbn; lia).
  assert (Hn : 0 < height rgb_image * width rgb_image) by (cbn; lia).
  repeat (split; [assumption|]).
  exact (@too_few_bands_all_barren rgb_image Hb Hn).
Defined.

(** C8 on the two sample classifications and the two sample images. *)
Lemma swap_symmetry_witness :
  run_lulc_change_analysis sample_image rgb_image = Ok sample_run /\
  total_change barren_masks sample_masks =
    total_change sample_masks barren_masks /\
  create_change_map barren_masks sample_masks =
    create_change_map sample_masks barren_masks /\
  (exists change,
     change_stats (calculate_land_cover_percentages sample_masks)
                  (calculate_land_cover_percentages barren_masks) = Ok change /\
     change_stats (calculate_land_cover_percentages barren_masks)
                  (calculate_land_cover_percentages sample_masks)
       = Ok (negated change) /\
     total_change_area (negated change) = total_change_area change) /\
  exists r',
    run_lulc_change_analysis rgb_image sample_image = Ok r' /\
    res_image1 r' = res_image2 sample_run /\
    res_image2 r' = res_image1 sample_run /\
    res_change r' = negated (res_change sample_run) /\
    res_total_change_area r' = res_total_change_area sample_run.
Proof.
  assert (Hr : run_lulc_change_analysis sample_image rgb_image = Ok sample_run)
    by (vm_compute; reflexivity).
  split; [exact Hr|].
  destruct (swap_symmetry sample_masks barren_masks) as (Ht & Hc & Hd & Hrun).
  split; [exact Ht|]. split; [exact Hc|]. split; [exact Hd|].
  exact (Hrun sample_image rgb_image sample_run Hr).
Defined.

(** * More on the index calculator *)

Lemma has_shape_zeros (h w : nat) : has_shape h w (np_zeros h w).
Proof. split; [apply wf_zeros|split; reflexivity]. Qed.

Lemma has_shape_of_pixels {A : Type} (f : list num -> A) (im : image) :
  wf_image im ->
  has_shape (height im) (width im)
    (mk_ndarray (height im) (width im) (map f (pixels im))).
Proof.
  intros [Hlen _]. split; [|split; reflexivity].
  unfold wf, size. cbn [flat shape0 shape1]. now rewrite length_map.
Qed.

Lemma calculate_ndvi_shape (im : image) :
  wf_image im ->
  exists a, calculate_ndvi im = Ok a /\ has_shape (height im) (width im) a.
Proof.
  intros Hwf. destruct (Nat.lt_ge_cases (bands im) 4) as [Hb|Hb].
  - eexists. split; [|apply has_shape_zeros].
    unfold calculate_ndvi. apply Nat.ltb_lt in Hb. now rewrite Hb.
  - eexists. split; [now apply calculate_ndvi_bands|].
    now apply has_shape_of_pixels.
Qed.

Lemma calculate_ndwi_shape (im : image) :
  wf_image im ->
  exists a, calculate_ndwi im = Ok a /\ has_shape (height im) (width im) a.
Proof.
  intros Hwf. destruct (Nat.lt_ge_cases (bands im) 4) as [Hb|Hb].
  - eexists. split; [|apply has_shape_zeros].
    unfold calculate_ndwi. apply Nat.ltb_lt in Hb. now rewrite Hb.
  - eexists. split; [now apply calculate_ndwi_bands|].
    now apply has_shape_of_pixels.
Qed.

Lemma calculate_ndbi_shape (im : image) :
  wf_image im ->
  exists a, calculate_ndbi im = Ok a /\ has_shape (height im) (width im) a.
Proof.
  intros Hwf. destruct (Nat.lt_ge_cases (bands im) 5) as [Hb|Hb].
  - eexists. split; [|apply has_shape_zeros].
    unfold calculate_ndbi. apply Nat.ltb_lt in Hb. now rewrite Hb.
  - eexists. split; [now apply calculate_ndbi_bands|].
    now apply has_shape_of_pixels.
Qed.

(** X1.  On every well-formed image, whatever its band count and whatever
    its values (nan and infinities included), the three calculators return
    without raising, and each result has the spatial shape of the image. *)
Theorem index_arrays_shape (im : image) :
  wf_image im ->
  exists ndvi ndwi ndbi,
    calculate_ndvi im = Ok ndvi /\
    calculate_ndwi im = Ok ndwi /\
    calculate_ndbi im = Ok ndbi /\
    has_shape (height im) (width im) ndvi /\
    has_shape (height im) (width im) ndwi /\
    has_shape (height im) (width im) ndbi.
Proof.
  intros Hwf.
  destruct (calculate_ndvi_shape Hwf) as (ndvi & Hv & Sv).
  destruct (calculate_ndwi_shape Hwf) as (ndwi & Hw & Sw).
  destruct (calculate_ndbi_shape Hwf) as (ndbi & Hb & Sb).
  exists ndvi, ndwi, ndbi. auto 7.
Qed.

Lemma Qdiv_pos_iff (n d : Q) : (0 < d -> (0 < n / d <-> 0 < n))%Q.
Proof.
  intros Hd. split; intros H.
  - setoid_replace n with (n / d * d)%Q by (field; lra).
    now apply Qmult_lt_0_compat.
  - apply Qlt_shift_div_l; [assumption|]. lra.
Qed.

Lemma Qdiv_neg_iff (n d : Q) : (0 < d -> (n / d < 0 <-> n < 0))%Q.
Proof.
  intros Hd. split; intros H.
  - assert (H' : (0 < (- n) / d)%Q).
    { setoid_replace ((- n) / d)%Q with (- (n / d))%Q by (field; lra). lra. }
    apply Qdiv_pos_iff in H'; [lra|assumption].
  - apply Qlt_shift_div_r; [assumption|]. lra.
Qed.

(** The quotient behind an index of two non-negative bands. *)
Lemma quotient_nonneg (a b : Q) :
  (0 <= a)%Q -> (0 <= b)%Q ->
  exists q,
    ((Fin a - Fin b) / (Fin a + Fin b + eps))%num = Fin q /\
    (q == (a - b) / (a + b + (1 # 100000000)))%Q /\
    (-1 < q < 1)%Q.
Proof.
  intros Ha Hb. cbn [sub add eps div].
  set (d := Qred (Qred (a + b) + (1 # 100000000))).
  assert (Hd : (d == a + b + (1 # 100000000))%Q)
    by (unfold d; now rewrite !Qred_correct).
  assert (Hpos : (0 < d)%Q) by lra.
  destruct (sgn d) eqn:E;
    [apply sgn_Eq in E; lra|unfold sgn in E; apply Qlt_alt in E; lra|].
  eexists. split; [reflexivity|].
  assert (Hq : (Qred (Qred (a - b) / d) == (a - b) / (a + b + (1 # 100000000)))%Q).
  { rewrite !Qred_correct. now rewrite Hd. }
  split; [exact Hq|]. rewrite Hq.
  assert (Hden : (0 < a + b + (1 # 100000000))%Q) by lra.
  split.
  - apply Qlt_shift_div_l; [assumption|]. lra.
  - apply Qlt_shift_div_r; [assumption|]. lra.
Qed.

Lemma clip_inside (q : Q) :
  (-1 < q < 1)%Q -> clip (Fin q) minus_one one = Fin q.
Proof.
  intros [Hlo Hhi]. unfold clip, maximum, minimum, minus_one, one.
  cbn [isnan].
  destruct (lt (Fin q) (Fin (-1))) eqn:E1; [apply lt_Fin in E1; lra|].
  cbn [isnan].
  destruct (lt (Fin 1) (Fin q)) eqn:E2; [apply lt_Fin in E2; lra|].
  reflexivity.
Qed.

Lemma normalized_difference_nonneg (x y : num) :
  is_finite x = true /\ le zero x = true ->
  is_finite y = true /\ le zero y = true ->
  unclipped x y (normalized_difference x y) /\
  same_sign x y (normalized_difference x y).
Proof.
  destruct x as [a| | |], y as [b| | |]; intros [Fx Hx] [Fy Hy];
    try discriminate.
  apply le_Fin in Hx, Hy.
  destruct (quotient_nonneg Hx Hy) as (q & Eq & Hq & Hrange).
  unfold normalized_difference. rewrite Eq, (clip_inside Hrange).
  split; [split; [now symmetry|]|].
  - unfold minus_one, one. rewrite !le_Fin. split; lra.
  - assert (Hden : (0 < a + b + (1 # 100000000))%Q) by lra.
    pose proof (Qdiv_pos_iff (a - b) Hden) as Ppos.
    pose proof (Qdiv_neg_iff (a - b) Hden) as Pneg.
    set (r := ((a - b) / (a + b + (1 # 100000000)))%Q) in *.
    assert (Hcases : ((a < b)%Q /\ (q < 0)%Q) \/
                     ((a == b)%Q /\ (q == 0)%Q) \/
                     ((b < a)%Q /\ (0 < q)%Q)).
    { destruct (Q_dec a b) as [[H|H]|H].
      - left. split; [assumption|].
        assert (r < 0)%Q by (apply Pneg; lra). lra.
      - right. right. split; [assumption|].
        assert (0 < r)%Q by (apply Ppos; lra). lra.
      - right. left. split; [assumption|].
        destruct (Q_dec r 0) as [[Hr|Hr]|Hr]; [|exfalso|lra].
        + apply Pneg in Hr. lra.
        + apply Ppos in Hr. lra. }
    clearbody r. unfold same_sign, zero.
    destruct Hcases as [[? ?]|[[? ?]|[? ?]]];
      (split; [|split];
       [rewrite !gt_Fin; intros; lra
       |rewrite !lt_Fin; intros; lra
       |unfold eqb, cmp;
        destruct (Qcompare_spec q 0) as [E|E|E],
                 (Qcompare_spec a b) as [F|F|F];
        try tauto; try discriminate; exfalso; lra]).
Qed.

Lemma voxel_nonneg (im : image) (i j k : nat) (x : num) :
  nonneg_image im -> voxel im i j k = Some x ->
  is_finite x = true /\ le zero x = true.
Proof.
  unfold nonneg_image, voxel. intros Hall.
  destruct ((i <? height im) && (j <? width im)); [|discriminate].
  destruct (nth_error (pixels im) (i * width im + j)) as [p|] eqn:Hp;
    [|discriminate].
  intros Hx. apply nth_error_In in Hp, Hx.
  rewrite Forall_forall in Hall. specialize (Hall p Hp).
  rewrite Forall_forall in Hall. now apply Hall.
Qed.

(** One index of a non-negative image, band [hi] against band [lo]. *)
Lemma nonneg_index_pixel (im : image) (hi lo i j : nat) :
  wf_image im -> nonneg_image im -> hi < bands im -> lo < bands im ->
  i < height im -> j < width im ->
  exists x y v,
    voxel im i j hi = Some x /\ voxel im i j lo = Some y /\
    item (mk_ndarray (height im) (width im)
            (map (fun p => normalized_difference (nth hi p NaN) (nth lo p NaN))
                 (pixels im))) i j = Some v /\
    unclipped x y v /\ same_sign x y v.
Proof.
  intros Hwf Hnn Hhi Hlo Hi Hj.
  destruct (@index_pixel im hi lo i j Hwf Hhi Hlo Hi Hj)
    as (x & y & Hx & Hy & Hv).
  exists x, y, (normalized_difference x y).
  do 3 (split; [assumption|]).
  apply normalized_difference_nonneg; eapply voxel_nonneg; eassumption.
Qed.

(** X2.  On an image whose band values are finite and not negative the
    clipping never changes a value: every NDVI, NDWI and NDBI pixel is the
    plain quotient (a - b) / (a + b + 1e-8), which lies in [-1, 1] by
    itself. *)
Theorem nonneg_index_unclipped (im : image) :
  wf_image im -> nonneg_image im ->
  (4 <= bands im ->
   exists ndvi ndwi,
     calculate_ndvi im = Ok ndvi /\ calculate_ndwi im = Ok ndwi /\
     forall i j, i < height im -> j < width im ->
       exists green red nir v w,
         voxel im i j 1 = Some green /\ voxel im i j 2 = Some red /\
         voxel im i j 3 = Some nir /\
         item ndvi i j = Some v /\ item ndwi i j = Some w /\
         unclipped nir red v /\ unclipped green nir w) /\
  (5 <= bands im ->
   exists ndbi,
     calculate_ndbi im = Ok ndbi /\
     forall i j, i < height im -> j < width im ->
       exists nir swir u,
         voxel im i j 3 = Some nir /\ voxel im i j 4 = Some swir /\
         item ndbi i j = Some u /\ unclipped swir nir u).
Proof.
  intros Hwf Hnn. split; intros Hb.
  - eexists _, _.
    split; [now apply calculate_ndvi_bands|].
    split; [now apply calculate_ndwi_bands|].
    intros i j Hi Hj.
    destruct (@nonneg_index_pixel im 3 2 i j)
      as (nir & red & v & Hn & Hr & Hv & Uv & _); try assumption; try lia.
    destruct (@nonneg_index_pixel im 1 3 i j)
      as (green & nir' & w & Hg & Hn' & Hw & Uw & _); try assumption; try lia.
    assert (nir' = nir) by congruence. subst nir'.
    exists green, red, nir, v, w. auto 8.
  - eexists. split; [now apply calculate_ndbi_bands|].
    intros i j Hi Hj.
    destruct (@nonneg_index_pixel im 4 3 i j)
      as (swir & nir & u & Hs & Hn & Hu & Uu & _); try assumption; try lia.
    exists nir, swir, u. auto.
Qed.

(** X3.  On an image whose band values are finite and not negative no
    index contradicts the order of its two bands: NDVI is positive only
    where NIR is above red, negative only where NIR is below red, and zero
    where they are equal; NDWI likewise for green against NIR and NDBI for
    SWIR against NIR. *)
Theorem nonneg_index_sign (im : image) :
  wf_image im -> nonneg_image im ->
  (4 <= bands im ->
   exists ndvi ndwi,
     calculate_ndvi im = Ok ndvi /\ calculate_ndwi im = Ok ndwi /\
     forall i j, i < height im -> j < width im ->
       exists green red nir v w,
         voxel im i j 1 = Some green /\ voxel im i j 2 = Some red /\
         voxel im i j 3 = Some nir /\
         item ndvi i j = Some v /\ item ndwi i j = Some w /\
         same_sign nir red v /\ same_sign green nir w) /\
  (5 <= bands im ->
   exists ndbi,
     calculate_ndbi im = Ok ndbi /\
     forall i j, i < height im -> j < width im ->
       exists nir swir u,
         voxel im i j 3 = Some nir /\ voxel im i j 4 = Some swir /\
         item ndbi i j = Some u /\ same_sign swir nir u).
Proof.
  intros Hwf Hnn. split; intros Hb.
  - eexists _, _.
    split; [now apply calculate_ndvi_bands|].
    split; [now apply calculate_ndwi_bands|].
    intros i j Hi Hj.
    destruct (@nonneg_index_pixel im 3 2 i j)
      as (nir & red & v & Hn & Hr & Hv & _ & Sv); try assumption; try lia.
    destruct (@nonneg_index_pixel im 1 3 i j)
      as (green & nir' & w & Hg & Hn' & Hw & _ & Sw); try assumption; try lia.
    assert (nir' = nir) by congruence. subst nir'.
    exists green, red, nir, v, w. auto 8.
  - eexists. split; [now apply calculate_ndbi_bands|].
    intros i j Hi Hj.
    destruct (@nonneg_index_pixel im 4 3 i j)
      as (swir & nir & u & Hs & Hn & Hu & _ & Su); try assumption; try lia.
    exists nir, swir, u. auto.
Qed.

(** * More on the classifier *)

(** X4.  [classify_land_cover] checks nothing but shapes: when the three
    index arrays have one shape it returns five masks of that shape, and
    otherwise the boolean-mask assignment raises [IndexError]. *)
Theorem classify_shape_check (ndvi ndwi ndbi : ndarray num) :
  if shape_eqb ndvi ndwi && shape_eqb ndvi ndbi
  then exists built_up water forest vegetation barren,
         classify_land_cover ndvi ndwi ndbi =
           Ok (built_up, water, forest, vegetation, barren) /\
         same_shape ndvi built_up /\ same_shape ndvi water /\
         same_shape ndvi forest /\ same_shape ndvi vegetation /\
         same_shape ndvi barren
  else classify_land_cover ndvi ndwi ndbi = Raise IndexError.
Proof.
  unfold classify_land_cover, np_and, np_binop.
  cbn [amap shape0 shape1]. rewrite !broadcast_dim_same. cbn [bind].
  unfold mask_assign, shape_eqb, positive, amap. cbn [shape0 shape1 flat].
  destruct (Nat.eqb_spec (shape0 ndvi) (shape0 ndbi)) as [E1|N1];
    [|now rewrite andb_false_r].
  destruct (Nat.eqb_spec (shape1 ndvi) (shape1 ndbi)) as [E2|N2];
    [|now rewrite andb_false_r].
  cbn [andb bind shape0 shape1].
  destruct (Nat.eqb_spec (shape0 ndvi) (shape0 ndwi)) as [E3|N3];
    [|reflexivity].
  destruct (Nat.eqb_spec (shape1 ndvi) (shape1 ndwi)) as [E4|N4];
    [|reflexivity].
  cbn [andb bind shape0 shape1].
  rewrite <- E1, <- E2, <- E3, <- E4, !Nat.eqb_refl. cbn [andb bind].
  do 5 eexists. split; [reflexivity|].
  repeat split; cbn [shape0 shape1]; congruence.
Qed.

Ltac settle_cmp :=
  unfold half, tenth, minus_tenth;
  match goal with
  | |- le (Fin _) (Fin _) = true => apply le_Fin; lra
  | |- ge (Fin _) (Fin _) = true => apply ge_Fin; lra
  | |- gt (Fin _) (Fin _) = true => apply gt_Fin; lra
  | |- le (Fin ?a) (Fin ?b) = false =>
      let E := fresh in
      destruct (le (Fin a) (Fin b)) eqn:E;
      [apply le_Fin in E; lra|reflexivity]
  | |- ge (Fin ?a) (Fin ?b) = false =>
      let E := fresh in
      destruct (ge (Fin a) (Fin b)) eqn:E;
      [apply ge_Fin in E; lra|reflexivity]
  | |- gt (Fin ?a) (Fin ?b) = false =>
      let E := fresh in
      destruct (gt (Fin a) (Fin b)) eqn:E;
      [apply gt_Fin in E; lra|reflexivity]
  end.

(** Where an NDVI value falls: below the barren range (or nan), in it, in
    the vegetation range, or in the forest range. *)
Lemma ndvi_ranges (x : num) :
  (ge x minus_tenth = false /\ gt x tenth = false /\ gt x half = false) \/
  (ge x minus_tenth = true /\ le x tenth = true /\
   gt x tenth = false /\ gt x half = false) \/
  (ge x minus_tenth = true /\ le x tenth = false /\
   gt x tenth = true /\ le x half = true /\ gt x half = false) \/
  (ge x minus_tenth = true /\ le x tenth = false /\
   gt x tenth = true /\ le x half = false /\ gt x half = true).
Proof.
  destruct x as [q| | |].
  - destruct (Qlt_le_dec q (-1 # 10)) as [H1|H1].
    { left. repeat split; settle_cmp. }
    destruct (Qlt_le_dec (1 # 10) q) as [H2|H2].
    2:{ right. left. repeat split; settle_cmp. }
    destruct (Qlt_le_dec (1 # 2) q) as [H3|H3].
    + right. right. right. repeat split; settle_cmp.
    + right. right. left. repeat split; settle_cmp.
  - right. right. right. repeat split; reflexivity.
  - left. repeat split; reflexivity.
  - left. repeat split; reflexivity.
Qed.

(** A pixel carries one class when it is water, built-up or has an NDVI of
    at least -0.1, and none otherwise. *)
Lemma classify_pixel_count (x y z b w f v n : num) :
  classify_pixel x y z = (b, w, f, v, n) ->
  count_ones [b; w; f; v; n] = if classified x y z then 1 else 0.
Proof.
  unfold classify_pixel, classified. intros H. injection H as <- <- <- <- <-.
  destruct (ndvi_ranges x) as [H|[H|[H|H]]];
    repeat match goal with H : _ /\ _ |- _ => destruct H end;
    repeat match goal with H : _ = _ |- _ => rewrite H; clear H end;
    destruct (gt z zero), (gt y zero); reflexivity.
Qed.

(** X5.  After classification a pixel belongs to no class exactly when it
    is neither water (NDWI > 0) nor built-up (NDBI > 0) and its NDVI is
    below -0.1 or nan; every other pixel belongs to exactly one class. *)
Theorem unclassified_pixels (ndvi ndwi ndbi : ndarray num) :
  wf ndvi -> wf ndwi -> wf ndbi ->
  same_shape ndvi ndwi -> same_shape ndvi ndbi ->
  exists m,
    classify_land_cover ndvi ndwi ndbi = Ok m /\
    forall i j, i < shape0 ndvi -> j < shape1 ndvi ->
      exists x y z p,
        item ndvi i j = Some x /\ item ndwi i j = Some y /\
        item ndbi i j = Some z /\ at_pixel m i j = Some p /\
        count_ones p =
          if gt y zero || gt z zero || ge x minus_tenth then 1 else 0.
Proof.
  intros Hv Hw Hb Hvw Hvb.
  destruct (@classify_pixelwise ndvi ndwi ndbi Hv Hw Hb Hvw Hvb)
    as (bu & wa & fo & ve & ba & Hc & Hpx).
  exists (bu, wa, fo, ve, ba). split; [assumption|].
  intros i j Hi Hj.
  destruct (Hpx i j Hi Hj)
    as (x & y & z & Hx & Hy & Hz & b & w & f & v & n & Hcp
        & H1 & H2 & H3 & H4 & H5).
  exists x, y, z, [b; w; f; v; n]. do 3 (split; [assumption|]).
  split; [cbn [at_pixel]; now rewrite H1, H2, H3, H4, H5|].
  apply (classify_pixel_count Hcp).
Qed.

(** * More on the percentages *)

Lemma binary_map_b2f {A : Type} (f : A -> num) (l : list A) :
  (forall t, binary (f t)) -> Forall binary (map f l).
Proof.
  intros H. apply Forall_forall. intros x Hx.
  apply in_map_iff in Hx. destruct Hx as (t & <- & _). apply H.
Qed.

Lemma binary_px_all (t : num * (num * num)) :
  binary (px_built_up t) /\ binary (px_water t) /\ binary (px_forest t) /\
  binary (px_vegetation t) /\ binary (px_barren t).
Proof.
  unfold px_built_up, px_water, px_forest, px_vegetation, px_barren,
    classify_pixel.
  repeat split; apply binary_b2f.
Qed.

(** The percentage record of a classification, in counts. *)
Lemma percentages_of_classification (ndvi ndwi ndbi : ndarray num) (m : masks) :
  wf ndvi -> wf ndwi -> wf ndbi ->
  same_shape ndvi ndwi -> same_shape ndvi ndbi ->
  classify_land_cover ndvi ndwi ndbi = Ok m ->
  calculate_land_cover_percentages m =
    combine class_names
      (map (pct (size ndvi)) (class_counts (zip3 ndvi ndwi ndbi))) /\
  length (zip3 ndvi ndwi ndbi) = size ndvi.
Proof.
  intros Hv Hw Hb Hvw Hvb Hc.
  rewrite classify_flat in Hc by assumption. injection Hc as <-.
  split.
  - unfold calculate_land_cover_percentages, percentage, class_counts, pct.
    rewrite !np_sum_binary;
      try (cbn [flat]; apply binary_map_b2f; intros t; apply binary_px_all).
    reflexivity.
  - unfold zip3. destruct Hvw as [E0 E1], Hvb as [F0 F1].
    unfold wf, size in *. rewrite !length_combine. lia.
Qed.

(** The five counts of a classification add up to the classified pixels. *)
Lemma counts_classified (zs : list (num * (num * num))) :
  count_ones (map px_built_up zs) + count_ones (map px_water zs) +
  count_ones (map px_forest zs) + count_ones (map px_vegetation zs) +
  count_ones (map px_barren zs) = length (filter classified_px zs).
Proof.
  induction zs as [|t zs IH]; [reflexivity|].
  cbn [map filter]. rewrite !count_ones_cons.
  assert (H : (if eqb (px_built_up t) one then 1 else 0) +
              (if eqb (px_water t) one then 1 else 0) +
              (if eqb (px_forest t) one then 1 else 0) +
              (if eqb (px_vegetation t) one then 1 else 0) +
              (if eqb (px_barren t) one then 1 else 0) =
              if classified_px t then 1 else 0).
  { unfold px_built_up, px_water, px_forest, px_vegetation, px_barren,
      classified_px.
    destruct (classify_pixel (fst t) (fst (snd t)) (snd (snd t)))
      as [[[[b w] f] v] n] eqn:E.
    rewrite <- (classify_pixel_count E), !count_ones_cons.
    change (count_ones []) with 0. lia. }
  destruct (classified_px t); cbn [length]; lia.
Qed.

Lemma filter_all {A : Type} (f : A -> bool) (l : list A) :
  length (filter f l) = length l <-> Forall (fun x => f x = true) l.
Proof.
  induction l as [|x l IH]; [cbn; split; auto|].
  cbn [filter length]. pose proof (filter_length_le f l) as Hle.
  destruct (f x) eqn:E; cbn [length]; split; intros H.
  - constructor; [assumption|]. apply IH. lia.
  - inversion H; subst. apply IH in H3. lia.
  - lia.
  - inversion H; subst. congruence.
Qed.

(** X6.  For the masks of a classification the five pixel counts that
    [calculate_land_cover_percentages] divides by the pixel count add up
    to the number of classified pixels (water, built-up, or NDVI of at
    least -0.1); they add up to the pixel count if and only if every pixel
    is classified. *)
Theorem class_counts_classified (ndvi ndwi ndbi : ndarray num) (m : masks) :
  wf ndvi -> wf ndwi -> wf ndbi ->
  same_shape ndvi ndwi -> same_shape ndvi ndbi ->
  classify_land_cover ndvi ndwi ndbi = Ok m ->
  calculate_land_cover_percentages m =
    combine class_names (map (pct (size ndvi)) (mask_counts m)) /\
  fold_left Nat.add (mask_counts m) 0 =
    length (filter classified_px (zip3 ndvi ndwi ndbi)) /\
  (fold_left Nat.add (mask_counts m) 0 = size ndvi <->
   Forall (fun t => classified_px t = true) (zip3 ndvi ndwi ndbi)).
Proof.
  intros Hv Hw Hb Hvw Hvb Hc.
  destruct (percentages_of_classification Hv Hw Hb Hvw Hvb Hc) as [Hp Hlen].
  rewrite classify_flat in Hc by assumption. injection Hc as <-.
  assert (Hsum : fold_left Nat.add
            (mask_counts
               (mk_ndarray (shape0 ndvi) (shape1 ndvi)
                  (map px_built_up (zip3 ndvi ndwi ndbi)),
                mk_ndarray (shape0 ndvi) (shape1 ndvi)
                  (map px_water (zip3 ndvi ndwi ndbi)),
                mk_ndarray (shape0 ndvi) (shape1 ndvi)
                  (map px_forest (zip3 ndvi ndwi ndbi)),
                mk_ndarray (shape0 ndvi) (shape1 ndvi)
                  (map px_vegetation (zip3 ndvi ndwi ndbi)),
                mk_ndarray (shape0 ndvi) (shape1 ndvi)
                  (map px_barren (zip3 ndvi ndwi ndbi)))) 0
          = length (filter classified_px (zip3 ndvi ndwi ndbi))).
  { cbn [mask_counts flat fold_left]. rewrite <- counts_classified. lia. }
  split; [exact Hp|]. split; [exact Hsum|].
  rewrite Hsum, <- Hlen. apply filter_all.
Qed.

(** * More on the change detector *)

Lemma row_of_position (w i j : nat) : j < w -> (i * w + j) / w = i.
Proof.
  intros Hj. symmetry.
  apply (Nat.div_unique (i * w + j) w i j); [assumption|lia].
Qed.

Lemma col_of_position (w i j : nat) : j < w -> (i * w + j) mod w = j.
Proof.
  intros Hj. symmetry.
  apply (Nat.mod_unique (i * w + j) w i j); [assumption|lia].
Qed.

(** A binary ufunc on operands of any two shapes: either the shapes
    broadcast and every position reads the stretched operands, or
    [ValueError] is raised. *)
Lemma np_binop_broadcast {A B C : Type} (da : A) (db : B) (f : A -> B -> C)
    (h1 w1 h2 w2 : nat) (a : ndarray A) (b : ndarray B) :
  has_shape h1 w1 a -> has_shape h2 w2 b ->
  match broadcast_dim h1 h2, broadcast_dim w1 w2 with
  | Some h, Some w =>
      exists r, np_binop da db f a b = Ok r /\ has_shape h w r /\
        forall i j, i < h -> j < w ->
          item r i j = Some (f (bitem da a i j) (bitem db b i j))
  | _, _ => np_binop da db f a b = Raise ValueError
  end.
Proof.
  intros (_ & <- & <-) (_ & <- & <-). unfold np_binop.
  destruct (broadcast_dim (shape0 a) (shape0 b)) as [h|]; [|reflexivity].
  destruct (broadcast_dim (shape1 a) (shape1 b)) as [w|]; [|reflexivity].
  eexists. split; [reflexivity|]. split.
  - split; [|split; reflexivity]. unfold wf, size. cbn [flat shape0 shape1].
    now rewrite length_map, length_seq.
  - intros i j Hi Hj. rewrite item_flat by assumption.
    cbn [flat shape1]. pose proof (flat_position_bound Hi Hj) as Hk.
    rewrite nth_error_map, nth_error_seq.
    destruct (Nat.ltb_spec (i * w + j) (h * w)) as [_|]; [|lia].
    cbn [option_map Nat.add].
    now rewrite (row_of_position i Hj), (col_of_position i Hj).
Qed.

Lemma class_change_broadcast (h1 w1 h2 w2 : nat) (m1 m2 : ndarray num) :
  has_shape h1 w1 m1 -> has_shape h2 w2 m2 ->
  match broadcast_dim h1 h2, broadcast_dim w1 w2 with
  | Some h, Some w =>
      exists c, class_change m1 m2 = Ok c /\ has_shape h w c /\
        forall i j, i < h -> j < w ->
          item c i j = Some (flipped (bitem NaN m1 i j) (bitem NaN m2 i j))
  | _, _ => class_change m1 m2 = Raise ValueError
  end.
Proof.
  intros H1 H2. unfold class_change, np_sub.
  pose proof (@np_binop_broadcast _ _ _ NaN NaN sub h2 w2 h1 w1 m2 m1 H2 H1)
    as Hb.
  rewrite (broadcast_dim_sym h2 h1), (broadcast_dim_sym w2 w1) in Hb.
  destruct (broadcast_dim h1 h2) as [h|]; [|now rewrite Hb].
  destruct (broadcast_dim w1 w2) as [w|]; [|now rewrite Hb].
  destruct Hb as (d & -> & (Hwf & H0 & H1') & Hpt). cbn [bind].
  eexists. split; [reflexivity|]. split.
  - split; [now apply wf_amap|]. cbn [amap shape0 shape1]. now split.
  - intros i j Hi Hj.
    apply (@item_amap _ _ (fun v => gt (abs v) change_threshold)).
    now apply Hpt.
Qed.

(** The change mask of two sets of masks, each of one shape. *)
Lemma total_change_broadcast (h1 w1 h2 w2 : nat) (masks1 masks2 : masks) :
  masks_of_shape h1 w1 masks1 -> masks_of_shape h2 w2 masks2 ->
  match broadcast_dim h1 h2, broadcast_dim w1 w2 with
  | Some h, Some w =>
      exists tc, total_change masks1 masks2 = Ok tc /\ has_shape h w tc /\
        forall i j, i < h -> j < w ->
          item tc i j =
          Some (existsb (fun p => flipped (fst p) (snd p))
                  (combine (at_broadcast masks1 i j)
                           (at_broadcast masks2 i j)))
  | _, _ => total_change masks1 masks2 = Raise ValueError
  end.
Proof.
  destruct masks1 as [[[[b1 x1] f1] v1] n1], masks2 as [[[[b2 x2] f2] v2] n2].
  intros (Hb1 & Hx1 & Hf1 & Hv1 & Hn1) (Hb2 & Hx2 & Hf2 & Hv2 & Hn2).
  cbn [total_change].
  pose proof (class_change_broadcast Hb1 Hb2) as Cb.
  pose proof (class_change_broadcast Hx1 Hx2) as Cx.
  pose proof (class_change_broadcast Hf1 Hf2) as Cf.
  pose proof (class_change_broadcast Hv1 Hv2) as Cv.
  pose proof (class_change_broadcast Hn1 Hn2) as Cn.
  destruct (broadcast_dim h1 h2) as [h|]; [|now rewrite Cb].
  destruct (broadcast_dim w1 w2) as [w|]; [|now rewrite Cb].
  destruct Cb as (cb & -> & Hcb & Pb), Cx as (cx & -> & Hcx & Px),
    Cf as (cf & -> & Hcf & Pf), Cv as (cv & -> & Hcv & Pv),
    Cn as (cn & -> & Hcn & Pn).
  cbn [bind].
  destruct (np_or_pointwise Hcb Hcx) as (t1 & -> & Ht1 & P1). cbn [bind].
  destruct (np_or_pointwise Ht1 Hcf) as (t2 & -> & Ht2 & P2). cbn [bind].
  destruct (np_or_pointwise Ht2 Hcv) as (t3 & -> & Ht3 & P3). cbn [bind].
  destruct (np_or_pointwise Ht3 Hcn) as (t4 & -> & Ht4 & P4).
  exists t4. split; [reflexivity|]. split; [assumption|].
  intros i j Hi Hj.
  rewrite (P4 i j _ _ (P3 i j _ _ (P2 i j _ _ (P1 i j _ _ (Pb i j Hi Hj)
             (Px i j Hi Hj)) (Pf i j Hi Hj)) (Pv i j Hi Hj)) (Pn i j Hi Hj)).
  cbn [at_broadcast combine existsb fst snd]. f_equal.
  now rewrite orb_false_r, !orb_assoc.
Qed.

(** X7.  Given two sets of masks, each of one shape, [create_change_map]
    raises [ValueError] when the two shapes cannot be broadcast (on some
    axis the extents differ and neither is 1), and fails while saving when
    the broadcast shape has no pixels; in every other case it returns a
    picture of the broadcast shape, so that differing shapes with an
    extent of 1 are accepted silently. *)
Theorem change_map_shape_check (h1 w1 h2 w2 : nat) (masks1 masks2 : masks) :
  masks_of_shape h1 w1 masks1 -> masks_of_shape h2 w2 masks2 ->
  match broadcast_dim h1 h2, broadcast_dim w1 w2 with
  | Some h, Some w =>
      if (h =? 0) || (w =? 0)
      then create_change_map masks1 masks2 = Raise SaveError
      else exists cm, create_change_map masks1 masks2 = Ok cm /\
                      has_shape h w cm
  | _, _ => create_change_map masks1 masks2 = Raise ValueError
  end.
Proof.
  intros H1 H2.
  pose proof (@total_change_broadcast h1 w1 h2 w2 masks1 masks2 H1 H2) as Ht.
  destruct (broadcast_dim h1 h2) as [h|];
    [|unfold create_change_map; now rewrite Ht].
  destruct (broadcast_dim w1 w2) as [w|];
    [|unfold create_change_map; now rewrite Ht].
  destruct Ht as (tc & Htc & (Hwf & H0 & H1') & _).
  destruct (Nat.eqb_spec h 0) as [Eh|Eh]; cbn [orb].
  { apply (@create_change_map_empty masks1 masks2 tc Htc).
    rewrite H0, Eh. reflexivity. }
  destruct (Nat.eqb_spec w 0) as [Ew|Ew].
  { apply (@create_change_map_empty masks1 masks2 tc Htc).
    rewrite H1', Ew. apply Nat.mul_0_r. }
  destruct (@create_change_map_pixelwise masks1 masks2 tc Htc Hwf)
    as (cm & Hcm & Hshape & _); [rewrite H0, H1'; nia|].
  exists cm. split; [assumption|]. now rewrite H0, H1' in Hshape.
Qed.

Lemma broadcast_dim_one (n : nat) : broadcast_dim 1 n = Some n.
Proof.
  unfold broadcast_dim. destruct (Nat.eqb_spec 1 n) as [<-|_]; reflexivity.
Qed.

Lemma bitem_item {A : Type} (d : A) (h w : nat) (a : ndarray A) (i j : nat) :
  has_shape h w a -> i < h -> j < w -> item a i j = Some (bitem d a i j).
Proof.
  intros (Hwf & <- & <-) Hi Hj. rewrite item_flat by assumption.
  unfold bitem. rewrite (bidx_below Hi), (bidx_below Hj).
  apply nth_error_nth_default. unfold wf, size in Hwf. rewrite Hwf.
  now apply flat_position_bound.
Qed.

Lemma at_broadcast_pixel (h w : nat) (m : masks) (i j : nat) :
  masks_of_shape h w m -> i < h -> j < w ->
  at_pixel m i j = Some (at_broadcast m i j).
Proof.
  destruct m as [[[[bu wa] fo] ve] ba]. intros (Hb & Hw & Hf & Hv & Hn) Hi Hj.
  cbn [at_pixel at_broadcast].
  now rewrite (bitem_item NaN Hb Hi Hj), (bitem_item NaN Hw Hi Hj),
    (bitem_item NaN Hf Hi Hj), (bitem_item NaN Hv Hi Hj),
    (bitem_item NaN Hn Hi Hj).
Qed.

Lemma at_broadcast_single (m : masks) (i j : nat) :
  masks_of_shape 1 1 m -> at_broadcast m i j = at_broadcast m 0 0.
Proof.
  destruct m as [[[[bu wa] fo] ve] ba].
  intros ((_ & Eb0 & Eb1) & (_ & Ew0 & Ew1) & (_ & Ef0 & Ef1) &
          (_ & Ev0 & Ev1) & (_ & En0 & En1)).
  cbn [at_broadcast]. unfold bitem.
  now rewrite Eb0, Eb1, Ew0, Ew1, Ef0, Ef1, Ev0, Ev1, En0, En1.
Qed.

(** X8.  A set of one-pixel masks is broadcast: compared with a set of
    masks of shape (h, w) of at least one pixel, [create_change_map] does
    not fail but compares its single pixel with every pixel of the other
    set, and returns a picture of shape (h, w). *)
Theorem change_map_single_pixel (h w : nat) (masks1 masks2 : masks) :
  masks_of_shape 1 1 masks1 -> masks_of_shape h w masks2 -> 0 < h * w ->
  exists tc cm p1,
    total_change masks1 masks2 = Ok tc /\
    create_change_map masks1 masks2 = Ok cm /\
    has_shape h w tc /\ has_shape h w cm /\
    at_pixel masks1 0 0 = Some p1 /\
    forall i j, i < h -> j < w ->
      exists p2 c,
        at_pixel masks2 i j = Some p2 /\
        c = existsb (fun p => flipped (fst p) (snd p)) (combine p1 p2) /\
        item tc i j = Some c /\
        item cm i j = Some (if c then 255 else 0)%Z.
Proof.
  intros H1 H2 Hn.
  pose proof (@total_change_broadcast 1 1 h w masks1 masks2 H1 H2) as Ht.
  rewrite !broadcast_dim_one in Ht.
  destruct Ht as (tc & Htc & Hshape & Hpx).
  destruct (@create_change_map_pixelwise masks1 masks2 tc Htc (proj1 Hshape))
    as (cm & Hcm & Hcmshape & Hcmpx);
    [destruct Hshape as (_ & -> & ->); exact Hn|].
  exists tc, cm, (at_broadcast masks1 0 0).
  do 3 (split; [assumption|]).
  destruct Hshape as (Hwf & H0 & H1'). rewrite H0, H1' in Hcmshape.
  split; [assumption|].
  split; [apply (@at_broadcast_pixel 1 1 masks1 0 0 H1); lia|].
  intros i j Hi Hj. eexists _, _.
  split; [apply (@at_broadcast_pixel h w masks2 i j H2 Hi Hj)|].
  split; [reflexivity|].
  pose proof (Hpx i j Hi Hj) as Hc.
  rewrite (@at_broadcast_single masks1 i j H1) in Hc.
  split; [exact Hc|]. now apply Hcmpx.
Qed.

Lemma flipped_self (x : num) : flipped x x = false.
Proof.
  destruct x as [a| | |]; try reflexivity.
  unfold flipped, change_threshold. cbn [sub abs].
  destruct (gt _ _) eqn:E; [|reflexivity].
  apply gt_Fin in E. rewrite Qred_correct in E.
  assert (H0 : (Qred (a - a) == 0)%Q) by (rewrite Qred_correct; ring).
  rewrite H0 in E. cbn in E. lra.
Qed.

Lemma existsb_flipped_self (p : list num) :
  existsb (fun q => flipped (fst q) (snd q)) (combine p p) = false.
Proof.
  induction p as [|x p IH]; [reflexivity|].
  cbn [combine existsb fst snd]. now rewrite flipped_self, IH.
Qed.

(** X9.  A set of masks of at least one pixel compared with itself gives
    an all-black picture of its shape, whatever the mask values are, nan
    and infinities included. *)
Theorem change_map_self (h w : nat) (m : masks) :
  masks_of_shape h w m -> 0 < h * w ->
  exists cm,
    create_change_map m m = Ok cm /\ has_shape h w cm /\
    forall i j, i < h -> j < w -> item cm i j = Some 0%Z.
Proof.
  intros Hs Hn.
  destruct (@total_change_pixelwise h w m m Hs Hs) as (tc & Htc & Hshape & Hpx).
  destruct (@create_change_map_pixelwise m m tc Htc (proj1 Hshape))
    as (cm & Hcm & Hcmshape & Hcmpx);
    [destruct Hshape as (_ & -> & ->); exact Hn|].
  exists cm. split; [assumption|].
  destruct Hshape as (Hwf & H0 & H1). rewrite H0, H1 in Hcmshape.
  split; [assumption|]. intros i j Hi Hj.
  pose proof (@at_broadcast_pixel h w m i j Hs Hi Hj) as Hp.
  pose proof (Hpx i j _ _ Hp Hp) as Hc.
  rewrite existsb_flipped_self in Hc. now apply (Hcmpx i j false).
Qed.

(** * More on the pipeline *)

(** Classifying three index arrays of shape (h, w). *)
Lemma classify_of_shape (h w : nat) (ndvi ndwi ndbi : ndarray num) :
  has_shape h w ndvi -> has_shape h w ndwi -> has_shape h w ndbi ->
  exists m,
    classify_land_cover ndvi ndwi ndbi = Ok m /\
    masks_of_shape h w m /\ binary_masks m /\
    calculate_land_cover_percentages m =
      combine class_names
        (map (pct (h * w)) (class_counts (zip3 ndvi ndwi ndbi))) /\
    length (zip3 ndvi ndwi ndbi) = h * w.
Proof.
  intros (Hv & V0 & V1) (Hw & W0 & W1) (Hb & B0 & B1).
  assert (Hvw : same_shape ndvi ndwi) by (split; congruence).
  assert (Hvb : same_shape ndvi ndbi) by (split; congruence).
  pose proof (@classify_flat ndvi ndwi ndbi Hv Hw Hb Hvw Hvb) as Hc.
  cbv zeta in Hc. rewrite V0, V1 in Hc.
  eexists. split; [exact Hc|].
  destruct (@percentages_of_classification ndvi ndwi ndbi _ Hv Hw Hb Hvw Hvb Hc)
    as [Hp Hlen].
  unfold size in Hp, Hlen. rewrite V0, V1 in Hp, Hlen.
  assert (Hshape : forall f : num * (num * num) -> num,
            has_shape h w (mk_ndarray h w (map f (zip3 ndvi ndwi ndbi)))).
  { intros f. split; [|split; reflexivity].
    unfold wf, size. cbn [flat shape0 shape1]. now rewrite length_map. }
  split; [repeat split; apply Hshape|].
  split; [|split; assumption].
  repeat split; cbn [flat]; apply binary_map_b2f; intros t;
    apply binary_px_all.
Qed.

(** The pipeline up to the classification never fails on a well-formed
    image. *)
Lemma image_masks_ok (im : image) :
  wf_image im ->
  exists m zs,
    image_masks im = Ok m /\
    masks_of_shape (height im) (width im) m /\ binary_masks m /\
    calculate_land_cover_percentages m =
      combine class_names
        (map (pct (height im * width im)) (class_counts zs)) /\
    length zs = height im * width im.
Proof.
  intros Hwf. unfold image_masks.
  destruct (calculate_ndvi_shape Hwf) as (ndvi & -> & Sv).
  destruct (calculate_ndwi_shape Hwf) as (ndwi & -> & Sw).
  destruct (calculate_ndbi_shape Hwf) as (ndbi & -> & Sb).
  cbn [bind].
  destruct (classify_of_shape Sv Sw Sb) as (m & Hc & Hs & Hbin & Hp & Hlen).
  exists m, (zip3 ndvi ndwi ndbi). auto.
Qed.

(** On well-formed images the pipeline is the two classifications
    followed by the comparison. *)
Lemma run_by_image (image1 image2 : image) (m1 m2 : masks) :
  image_masks image1 = Ok m1 -> image_masks image2 = Ok m2 ->
  run_lulc_change_analysis image1 image2 = analyse_masks m1 m2.
Proof.
  unfold image_masks, run_lulc_change_analysis.
  destruct (calculate_ndvi image1) as [ndvi1|]; [|discriminate].
  destruct (calculate_ndwi image1) as [ndwi1|]; [|discriminate].
  destruct (calculate_ndbi image1) as [ndbi1|]; [|discriminate].
  destruct (calculate_ndvi image2) as [ndvi2|]; [|discriminate].
  destruct (calculate_ndwi image2) as [ndwi2|]; [|discriminate].
  destruct (calculate_ndbi image2) as [ndbi2|]; [|discriminate].
  cbn [bind]. intros -> ->. reflexivity.
Qed.

(** X10.  On two well-formed images [run_lulc_change_analysis] raises
    the [ValueError] of the change map when their spatial shapes cannot be
    broadcast, and fails while saving the change map when the broadcast
    shape has no pixels; in every other case, images of different sizes
    with an extent of 1 included, it returns a result. *)
Theorem run_shape_check (image1 image2 : image) :
  wf_image image1 -> wf_image image2 ->
  match broadcast_dim (height image1) (height image2),
        broadcast_dim (width image1) (width image2) with
  | Some h, Some w =>
      if (h =? 0) || (w =? 0)
      then run_lulc_change_analysis image1 image2 = Raise SaveError
      else exists r, run_lulc_change_analysis image1 image2 = Ok r
  | _, _ => run_lulc_change_analysis image1 image2 = Raise ValueError
  end.
Proof.
  intros H1 H2.
  destruct (image_masks_ok H1) as (m1 & zs1 & Hm1 & Hs1 & _).
  destruct (image_masks_ok H2) as (m2 & zs2 & Hm2 & Hs2 & _).
  rewrite (run_by_image _ _ Hm1 Hm2). unfold analyse_masks.
  pose proof (@total_change_broadcast _ _ _ _ m1 m2 Hs1 Hs2) as Ht.
  destruct (broadcast_dim (height image1) (height image2)) as [h|];
    [|unfold create_change_map; now rewrite Ht].
  destruct (broadcast_dim (width image1) (width image2)) as [w|];
    [|unfold create_change_map; now rewrite Ht].
  destruct Ht as (tc & Htc & (Hwf & H0 & H1') & _).
  destruct (Nat.eqb_spec h 0) as [Eh|Eh]; cbn [orb].
  { rewrite (@create_change_map_empty m1 m2 tc Htc); [reflexivity|].
    rewrite H0, Eh. reflexivity. }
  destruct (Nat.eqb_spec w 0) as [Ew|Ew].
  { rewrite (@create_change_map_empty m1 m2 tc Htc); [reflexivity|].
    rewrite H1', Ew. apply Nat.mul_0_r. }
  destruct (@create_change_map_pixelwise m1 m2 tc Htc Hwf) as (cm & Hcm & _);
    [rewrite H0, H1'; nia|].
  rewrite Hcm. cbn [bind].
  destruct (change_stats_swap m1 m2) as (change & -> & _). cbn [bind].
  eexists. reflexivity.
Qed.

(** C9.  In every result of the pipeline the two percentage records are
    those of the two classifications, the change record holds under each
    class name the signed delta percentage_image2 - percentage_image1, and
    [total_change_area] is the sum of the absolute values of the five
    deltas divided by 2.  Two well-formed images of one shape and at least
    one pixel give such a result. *)
Theorem change_record (image1 image2 : image) :
  (wf_image image1 -> wf_image image2 ->
   height image1 = height image2 -> width image1 = width image2 ->
   0 < height image1 * width image1 ->
   exists r, run_lulc_change_analysis image1 image2 = Ok r) /\
  (forall r, run_lulc_change_analysis image1 image2 = Ok r ->
   exists masks1 masks2 d1 d2 d3 d4 d5,
     image_masks image1 = Ok masks1 /\ image_masks image2 = Ok masks2 /\
     res_image1 r = calculate_land_cover_percentages masks1 /\
     res_image2 r = calculate_land_cover_percentages masks2 /\
     res_change r = combine class_names [d1; d2; d3; d4; d5] /\
     (forall k v1 v2,
        dict_get (res_image1 r) k = Ok v1 ->
        dict_get (res_image2 r) k = Ok v2 ->
        dict_get (res_change r) k = Ok (v2 - v1)%num) /\
     res_total_change_area r =
       ((zero + abs d1 + abs d2 + abs d3 + abs d4 + abs d5) / Fin 2)%num).
Proof.
  split.
  - intros H1 H2 Hh Hw Hn.
    destruct (image_masks_ok H1) as (m1 & zs1 & Hm1 & Hs1 & _).
    destruct (image_masks_ok H2) as (m2 & zs2 & Hm2 & Hs2 & _).
    rewrite <- Hh, <- Hw in Hs2.
    rewrite (run_by_image _ _ Hm1 Hm2). unfold analyse_masks.
    destruct (@total_change_pixelwise _ _ m1 m2 Hs1 Hs2)
      as (tc & Htc & Hshape & _).
    destruct (@create_change_map_pixelwise m1 m2 tc Htc (proj1 Hshape))
      as (cm & -> & _); [destruct Hshape as (_ & -> & ->); exact Hn|].
    cbn [bind].
    destruct (change_stats_swap m1 m2) as (change & -> & _). cbn [bind].
    eexists. reflexivity.
  - intros r Hr. unfold run_lulc_change_analysis in Hr. unfold image_masks.
    destruct (calculate_ndvi image1) as [ndvi1|]; [|discriminate].
    destruct (calculate_ndvi image2) as [ndvi2|]; [|discriminate].
    destruct (calculate_ndwi image1) as [ndwi1|]; [|discriminate].
    destruct (calculate_ndwi image2) as [ndwi2|]; [|discriminate].
    destruct (calculate_ndbi image1) as [ndbi1|]; [|discriminate].
    destruct (calculate_ndbi image2) as [ndbi2|]; [|discriminate].
    cbn [bind] in *.
    destruct (classify_land_cover ndvi1 ndwi1 ndbi1) as [m1|]; [|discriminate].
    destruct (classify_land_cover ndvi2 ndwi2 ndbi2) as [m2|]; [|discriminate].
    cbn [bind] in Hr.
    destruct (create_change_map m1 m2) as [cm|]; [|discriminate].
    cbn [bind] in Hr.
    destruct (@change_stats_spec _ _ (percentages_record m1)
                (percentages_record m2))
      as (d1 & d2 & d3 & d4 & d5 & Hc & Hget & Harea).
    cbv zeta in Hc, Hget, Harea.
    rewrite Hc in Hr. cbn [bind] in Hr. injection Hr as <-.
    exists m1, m2, d1, d2, d3, d4, d5.
    cbn [res_image1 res_image2 res_change res_total_change_area].
    repeat (split; [reflexivity|]). split; [exact Hget|exact Harea].
Qed.

Lemma shares_of_counts (n : nat) (zs : list (num * (num * num))) :
  0 < n -> length zs = n ->
  shares (combine class_names (map (pct n) (class_counts zs))).
Proof.
  intros Hn Hlen. pose proof (count_sum zs) as Hsum. rewrite Hlen in Hsum.
  unfold class_counts in *. cbn [map]. unfold pct.
  set (c1 := count_ones (map px_built_up zs)) in *.
  set (c2 := count_ones (map px_water zs)) in *.
  set (c3 := count_ones (map px_forest zs)) in *.
  set (c4 := count_ones (map px_vegetation zs)) in *.
  set (c5 := count_ones (map px_barren zs)) in *.
  rewrite !pct_Fin by assumption.
  do 5 eexists. split; [reflexivity|].
  pose proof (@ratio_range c1 n Hn ltac:(lia)) as R1.
  pose proof (@ratio_range c2 n Hn ltac:(lia)) as R2.
  pose proof (@ratio_range c3 n Hn ltac:(lia)) as R3.
  pose proof (@ratio_range c4 n Hn ltac:(lia)) as R4.
  pose proof (@ratio_range c5 n Hn ltac:(lia)) as R5.
  rewrite !Qred_correct. repeat split; lra.
Qed.

Lemma shares_within (d : dict) : shares d -> record_within zero hundred d.
Proof.
  intros (a1 & a2 & a3 & a4 & a5 & -> & H1 & H2 & H3 & H4 & H5).
  unfold record_within, between, zero, hundred.
  cbn [class_names combine].
  repeat (apply Forall_cons; [cbn [snd]; rewrite !le_Fin; split; lra|]).
  apply Forall_nil.
Qed.

(** The change record and the change area of two records of shares. *)
Lemma change_of_shares (perc1 perc2 : dict) :
  shares perc1 -> shares perc2 ->
  exists change,
    change_stats perc1 perc2 = Ok change /\
    record_within minus_hundred hundred change /\
    finite_nonneg (total_change_area change).
Proof.
  intros (a1 & a2 & a3 & a4 & a5 & -> & A1 & A2 & A3 & A4 & A5)
         (b1 & b2 & b3 & b4 & b5 & -> & B1 & B2 & B3 & B4 & B5).
  rewrite change_stats_records. eexists. split; [reflexivity|].
  cbn [sub]. split; [|eexists; split; [reflexivity|]].
  - unfold record_within, between, minus_hundred, hundred.
    cbn [class_names combine].
    repeat (apply Forall_cons;
            [cbn [snd]; rewrite !le_Fin, !Qred_correct; split; lra|]).
    apply Forall_nil.
  - rewrite !Qred_correct.
    pose proof (Qabs_nonneg (b1 - a1)). pose proof (Qabs_nonneg (b2 - a2)).
    pose proof (Qabs_nonneg (b3 - a3)). pose proof (Qabs_nonneg (b4 - a4)).
    pose proof (Qabs_nonneg (b5 - a5)).
    generalize dependent (Qabs (b1 - a1)). generalize dependent (Qabs (b2 - a2)).
    generalize dependent (Qabs (b3 - a3)). generalize dependent (Qabs (b4 - a4)).
    generalize dependent (Qabs (b5 - a5)). intros.
    unfold Qdiv. change (/ 2)%Q with (1 # 2)%Q. lra.
Qed.

Lemma image_shares (im : image) (m : masks) :
  wf_image im -> 0 < height im * width im -> image_masks im = Ok m ->
  shares (calculate_land_cover_percentages m).
Proof.
  intros Hwf Hn Hm.
  destruct (image_masks_ok Hwf) as (m' & zs & Hm' & _ & _ & Hp & Hlen).
  assert (m' = m) by congruence. subst m'.
  rewrite Hp. now apply shares_of_counts.
Qed.

(** The bounds of a result whose two records are records of shares. *)
Lemma analyse_masks_bounds (m1 m2 : masks) (r : analysis) :
  shares (calculate_land_cover_percentages m1) ->
  shares (calculate_land_cover_percentages m2) ->
  analyse_masks m1 m2 = Ok r ->
  record_within zero hundred (res_image1 r) /\
  record_within zero hundred (res_image2 r) /\
  record_within minus_hundred hundred (res_change r) /\
  finite_nonneg (res_total_change_area r).
Proof.
  intros S1 S2 Hr. unfold analyse_masks in Hr.
  destruct (create_change_map m1 m2) as [cm|]; [|discriminate].
  cbn [bind] in Hr.
  destruct (@change_of_shares _ _ S1 S2) as (change & Hc & Hw & Ht).
  rewrite Hc in Hr. cbn [bind] in Hr. injection Hr as <-.
  cbn [res_image1 res_image2 res_change res_total_change_area].
  split; [now apply shares_within|]. split; [now apply shares_within|].
  split; assumption.
Qed.

(** X11.  For two well-formed images of at least one pixel each, every
    percentage of the result lies in [0, 100] and every delta of the
    change record in [-100, 100], and [total_change_area] is a finite
    number that is not negative; none of them is nan. *)
Theorem run_result_bounds (image1 image2 : image) (r : analysis) :
  wf_image image1 -> wf_image image2 ->
  0 < height image1 * width image1 -> 0 < height image2 * width image2 ->
  run_lulc_change_analysis image1 image2 = Ok r ->
  record_within zero hundred (res_image1 r) /\
  record_within zero hundred (res_image2 r) /\
  record_within minus_hundred hundred (res_change r) /\
  finite_nonneg (res_total_change_area r).
Proof.
  intros H1 H2 N1 N2 Hr.
  destruct (image_masks_ok H1) as (m1 & zs1 & Hm1 & _).
  destruct (image_masks_ok H2) as (m2 & zs2 & Hm2 & _).
  rewrite (run_by_image _ _ Hm1 Hm2) in Hr.
  apply (@analyse_masks_bounds m1 m2 r
           (@image_shares image1 m1 H1 N1 Hm1)
           (@image_shares image2 m2 H2 N2 Hm2) Hr).
Qed.

Lemma Qred_sub_self (a : Q) : Qred (a - a) = 0%Q.
Proof. change 0%Q with (Qred 0). apply Qred_complete. ring. Qed.

(** X12.  A well-formed image of at least one pixel analysed against
    itself gives two equal percentage records, a change record of five
    zeros and a [total_change_area] of zero. *)
Theorem run_same_image (im : image) :
  wf_image im -> 0 < height im * width im ->
  exists r,
    run_lulc_change_analysis im im = Ok r /\
    res_image1 r = res_image2 r /\
    res_change r = combine class_names [zero; zero; zero; zero; zero] /\
    res_total_change_area r = zero.
Proof.
  intros Hwf Hn.
  destruct (image_masks_ok Hwf) as (m & zs & Hm & Hs & _).
  pose proof (image_shares Hwf Hn Hm) as Sh.
  rewrite (run_by_image _ _ Hm Hm). unfold analyse_masks.
  destruct (@total_change_pixelwise _ _ m m Hs Hs) as (tc & Htc & Hshape & _).
  destruct (@create_change_map_pixelwise m m tc Htc (proj1 Hshape))
    as (cm & -> & _); [destruct Hshape as (_ & -> & ->); exact Hn|].
  cbn [bind].
  destruct Sh as (a1 & a2 & a3 & a4 & a5 & -> & _).
  rewrite change_stats_records. cbn [bind sub]. rewrite !Qred_sub_self.
  eexists. split; [reflexivity|].
  cbn [res_image1 res_image2 res_change res_total_change_area].
  repeat split.
Qed.

(** * Reading and normalising a raster *)

Lemma wf_moveaxis (r : raster) : wf_raster r -> wf_image (moveaxis r).
Proof.
  intros [Hc _]. split; cbn [moveaxis pixels height width bands].
  - now rewrite length_map, length_seq.
  - apply Forall_forall. intros p Hp. apply in_map_iff in Hp.
    destruct Hp as (n & <- & _). now rewrite length_map.
Qed.

(** Where a value of the raster ends up: band [k] at row [i] and column
    [j] becomes [image[i, j, k]]. *)
Lemma voxel_moveaxis (r : raster) (i j k : nat) :
  wf_raster r -> i < rheight r -> j < rwidth r -> k < rcount r ->
  exists pl v,
    nth_error (planes r) k = Some pl /\
    nth_error pl (i * rwidth r + j) = Some v /\
    voxel (moveaxis r) i j k = Some v.
Proof.
  intros [Hc Hall] Hi Hj Hk.
  destruct (nth_error (planes r) k) as [pl|] eqn:Hpl;
    [|apply nth_error_None in Hpl; lia].
  assert (Hlen : length pl = rheight r * rwidth r).
  { rewrite Forall_forall in Hall. apply Hall. eapply nth_error_In, Hpl. }
  pose proof (flat_position_bound Hi Hj) as Hn.
  exists pl, (nth (i * rwidth r + j) pl NaN).
  split; [reflexivity|].
  split; [apply nth_error_nth_default; lia|].
  unfold voxel. cbn [moveaxis pixels height width].
  apply Nat.ltb_lt in Hi, Hj. rewrite Hi, Hj. cbn [andb].
  rewrite nth_error_map, nth_error_seq.
  destruct (Nat.ltb_spec (i * rwidth r + j) (rheight r * rwidth r));
    [|lia].
  cbn [option_map Nat.add]. now rewrite nth_error_map, Hpl.
Qed.

Lemma fold_maximum_nan (l : list num) : fold_left maximum l NaN = NaN.
Proof. induction l as [|y l IH]; [reflexivity|exact IH]. Qed.

(** A nan anywhere makes the maximum nan. *)
Lemma fold_maximum_has_nan (l : list num) (x : num) :
  In NaN (x :: l) -> fold_left maximum l x = NaN.
Proof.
  revert x. induction l as [|y l IH]; intros x [Hx|Hin].
  - now subst.
  - destruct Hin.
  - subst. apply fold_maximum_nan.
  - cbn [fold_left]. apply IH. destruct Hin as [->|Hin].
    + left. unfold maximum. now destruct x.
    + now right.
Qed.

Lemma between_Fin (lo hi : Q) (y : num) :
  between (Fin lo) (Fin hi) y -> exists q, y = Fin q /\ (lo <= q <= hi)%Q.
Proof.
  unfold between. destruct y as [q| | |]; intros [H1 H2]; try discriminate.
  exists q. split; [reflexivity|]. now rewrite <- !le_Fin.
Qed.

(** The maximum of values between two bounds is one of them, at least as
    large as each. *)
Lemma fold_maximum_within (lo hi : Q) (l : list num) (x : num) :
  Forall (between (Fin lo) (Fin hi)) (x :: l) ->
  exists m,
    fold_left maximum l x = Fin m /\ (lo <= m <= hi)%Q /\
    forall q, In (Fin q) (x :: l) -> (q <= m)%Q.
Proof.
  revert x. induction l as [|y l IH]; intros x Hall.
  - inversion Hall as [|? ? Hx _]; subst.
    destruct (between_Fin Hx) as (q & -> & Hq).
    exists q. split; [reflexivity|]. split; [assumption|].
    intros q' [[= <-]|[]]. lra.
  - inversion Hall as [|? ? Hx Hrest]; subst.
    inversion Hrest as [|? ? Hy Hl]; subst.
    destruct (between_Fin Hx) as (a & -> & Ha).
    destruct (between_Fin Hy) as (b & -> & Hb).
    cbn [fold_left]. unfold maximum at 2. cbn [isnan].
    destruct (lt (Fin a) (Fin b)) eqn:E.
    + apply lt_Fin in E.
      destruct (IH (Fin b) (Forall_cons _ Hy Hl)) as (m & Hm & Hr & Hub).
      exists m. split; [assumption|]. split; [assumption|].
      intros q [[= <-]|[[= <-]|Hin]].
      * assert (b <= m)%Q by (apply Hub; now left). lra.
      * apply Hub. now left.
      * apply Hub. now right.
    + assert (Hba : (b <= a)%Q).
      { apply Qnot_lt_le. intros H. apply lt_Fin in H. congruence. }
      destruct (IH (Fin a) (Forall_cons _ Hx Hl)) as (m & Hm & Hr & Hub).
      exists m. split; [assumption|]. split; [assumption|].
      intros q [[= <-]|[[= <-]|Hin]].
      * apply Hub. now left.
      * assert (a <= m)%Q by (apply Hub; now left). lra.
      * apply Hub. now right.
Qed.

Lemma concat_nil_bands (ps : list (list num)) :
  Forall (fun p => length p = 0) ps -> concat ps = [].
Proof.
  induction 1 as [|p ps Hp _ IH]; [reflexivity|].
  destruct p; [exact IH|discriminate].
Qed.

(** An image has no values exactly when it has no pixels or no bands. *)
Lemma voxels_empty (im : image) :
  wf_image im ->
  (voxels im = [] <-> height im * width im = 0 \/ bands im = 0).
Proof.
  intros [Hlen Hall]. unfold voxels. split.
  - intros Hnil. destruct (pixels im) as [|p ps] eqn:E.
    + left. now rewrite <- Hlen.
    + right. inversion Hall as [|? ? Hp _]; subst.
      cbn [concat] in Hnil. apply app_eq_nil in Hnil.
      destruct Hnil as [-> _]. now rewrite <- Hp.
  - intros [H|H].
    + rewrite H in Hlen. apply length_zero_iff_nil in Hlen. now rewrite Hlen.
    + apply concat_nil_bands. now rewrite H in Hall.
Qed.

Lemma wf_image_div (im : image) (d : num) :
  wf_image im -> wf_image (image_div im d).
Proof.
  intros [Hlen Hall]. split; cbn [image_div pixels height width bands].
  - now rewrite length_map.
  - apply Forall_forall. intros p Hp. apply in_map_iff in Hp.
    destruct Hp as (p0 & <- & Hp0). rewrite length_map.
    rewrite Forall_forall in Hall. now apply Hall.
Qed.

(** What [read_and_preprocess] does to a decoded raster: nothing but a
    division of every value by 255, or nothing at all. *)
Lemma read_and_preprocess_cases (r : raster) :
  match voxels (moveaxis r) with
  | [] => read_and_preprocess r = Raise ValueError
  | x :: rest =>
      read_and_preprocess r =
      Ok (if gt (fold_left maximum rest x) one
          then image_div (moveaxis r) (Fin 255) else moveaxis r)
  end.
Proof.
  unfold read_and_preprocess. destruct (voxels (moveaxis r)) as [|x rest].
  - reflexivity.
  - cbn [np_max bind]. now destruct (gt _ one).
Qed.

(** X13.  [read_and_preprocess] raises [ValueError] on a raster without
    bands or without pixels, because the maximum of an empty array is
    undefined; on every other raster it returns an image with the
    raster's height, width and band count. *)
Theorem read_and_preprocess_shape (r : raster) :
  wf_raster r ->
  (rcount r = 0 \/ rheight r * rwidth r = 0 ->
   read_and_preprocess r = Raise ValueError) /\
  (0 < rcount r -> 0 < rheight r * rwidth r ->
   exists im,
     read_and_preprocess r = Ok im /\ wf_image im /\
     height im = rheight r /\ width im = rwidth r /\ bands im = rcount r).
Proof.
  intros Hwf. pose proof (wf_moveaxis Hwf) as Hm.
  pose proof (voxels_empty Hm) as He.
  cbn [moveaxis height width bands] in He.
  pose proof (read_and_preprocess_cases r) as Hc.
  split.
  - intros H. assert (Hnil : voxels (moveaxis r) = []) by (apply He; tauto).
    now rewrite Hnil in Hc.
  - intros Hk Hn. destruct (voxels (moveaxis r)) as [|x rest].
    + assert (rheight r * rwidth r = 0 \/ rcount r = 0) by now apply He.
      lia.
    + eexists. split; [exact Hc|].
      destruct (gt _ one); [split; [now apply wf_image_div|]|split];
        auto.
Qed.

Lemma moveaxis_within (lo hi : num) (r : raster) :
  wf_raster r -> raster_within lo hi r -> image_within lo hi (moveaxis r).
Proof.
  intros [_ Hall] Hw. unfold image_within. cbn [moveaxis pixels].
  apply Forall_forall. intros p Hp. apply in_map_iff in Hp.
  destruct Hp as (n & <- & Hn). apply in_seq in Hn.
  apply Forall_forall. intros x Hx. apply in_map_iff in Hx.
  destruct Hx as (pl & <- & Hpl).
  unfold raster_within in Hw. rewrite Forall_forall in Hw, Hall.
  specialize (Hw pl Hpl). rewrite Forall_forall in Hw. apply Hw.
  apply nth_In. rewrite (Hall pl Hpl). lia.
Qed.

Lemma scaled_within (q : Q) :
  (0 <= q <= 255)%Q -> between zero one (Fin q / Fin 255)%num.
Proof.
  intros Hq. cbn [div]. change (sgn 255) with Gt. cbv iota.
  unfold between, zero, one. rewrite !le_Fin, Qred_correct.
  unfold Qdiv. change (/ 255)%Q with (1 # 255)%Q. lra.
Qed.

(** X14.  A raster whose values all lie in [0, 255] comes out of
    [read_and_preprocess] with every value in [0, 1], whether the division
    by 255 was applied or not. *)
Theorem read_and_preprocess_range (r : raster) :
  wf_raster r -> raster_within zero (Fin 255) r ->
  0 < rcount r -> 0 < rheight r * rwidth r ->
  exists im, read_and_preprocess r = Ok im /\ image_within zero one im.
Proof.
  intros Hwf Hw Hk Hn.
  pose proof (moveaxis_within Hwf Hw) as Him.
  pose proof (read_and_preprocess_cases r) as Hc.
  assert (Hvox : Forall (between zero (Fin 255)) (voxels (moveaxis r)))
    by (apply Forall_concat; exact Him).
  destruct (voxels (moveaxis r)) as [|x rest] eqn:E.
  - pose proof (proj1 (voxels_empty (wf_moveaxis Hwf)) E) as H0.
    cbn [moveaxis height width bands] in H0. lia.
  - unfold zero in Hvox.
    destruct (fold_maximum_within Hvox) as (m & Hm & Hr & Hub).
    rewrite Hm in Hc. eexists. split; [exact Hc|].
    destruct (gt (Fin m) one) eqn:G.
    + unfold image_within. cbn [image_div pixels].
      apply Forall_forall. intros p Hp. apply in_map_iff in Hp.
      destruct Hp as (p0 & <- & Hp0).
      unfold image_within in Him. rewrite Forall_forall in Him.
      specialize (Him p0 Hp0).
      apply Forall_forall. intros y Hy. apply in_map_iff in Hy.
      destruct Hy as (y0 & <- & Hy0). rewrite Forall_forall in Him.
      destruct (between_Fin (Him y0 Hy0)) as (q & -> & Hq).
      now apply scaled_within.
    + assert (Hm1 : (m <= 1)%Q).
      { apply Qnot_lt_le. intros H. apply gt_Fin in H. unfold one in G.
        congruence. }
      unfold image_within. apply Forall_forall. intros p Hp.
      apply Forall_forall. intros y Hy.
      unfold image_within in Him. rewrite Forall_forall in Him.
      specialize (Him p Hp). rewrite Forall_forall in Him.
      destruct (between_Fin (Him y Hy)) as (q & -> & Hq).
      assert (Hin : In (Fin q) (x :: rest)).
      { rewrite <- E. unfold voxels. apply in_concat. now exists p. }
      specialize (Hub q Hin).
      unfold between, zero, one. rewrite !le_Fin. lra.
Qed.

(** X15.  A single nan among the values of a raster switches the
    normalisation off: the maximum is nan, the test [max > 1.0] fails, and
    the image is returned as it was read, whatever its other values. *)
Theorem read_and_preprocess_nan (r : raster) (pl : list num) :
  wf_raster r -> In pl (planes r) -> In NaN pl ->
  read_and_preprocess r = Ok (moveaxis r).
Proof.
  intros [Hc Hall] Hpl Hnan.
  assert (Hin : In NaN (voxels (moveaxis r))).
  { destruct (In_nth pl NaN NaN Hnan) as (n & Hn & Heq).
    rewrite Forall_forall in Hall. rewrite (Hall pl Hpl) in Hn.
    unfold voxels. apply in_concat.
    exists (map (fun pl => nth n pl NaN) (planes r)). split.
    - cbn [moveaxis pixels]. apply in_map_iff. exists n.
      split; [reflexivity|]. apply in_seq. lia.
    - apply in_map_iff. exists pl. now split. }
  pose proof (read_and_preprocess_cases r) as Hcases.
  destruct (voxels (moveaxis r)) as [|x rest]; [destruct Hin|].
  now rewrite (@fold_maximum_has_nan rest x Hin) in Hcases.
Qed.

Lemma voxel_image_div (im : image) (d : num) (i j k : nat) :
  voxel (image_div im d) i j k =
  option_map (fun x => x / d)%num (voxel im i j k).
Proof.
  unfold voxel. cbn [image_div pixels height width].
  destruct ((i <? height im) && (j <? width im)); [|reflexivity].
  rewrite nth_error_map.
  destruct (nth_error (pixels im) (i * width im + j)) as [p|];
    [|reflexivity].
  cbn [option_map]. apply nth_error_map.
Qed.

(** X16.  [read_and_preprocess] moves the band axis last: the value of
    band [k] at row [i] and column [j] of the raster is found at
    [image[i, j, k]], divided by 255 in every position or in none. *)
Theorem read_and_preprocess_layout (r : raster) (im : image) :
  wf_raster r -> read_and_preprocess r = Ok im ->
  exists scaled : bool,
    forall i j k, i < rheight r -> j < rwidth r -> k < rcount r ->
      exists pl v,
        nth_error (planes r) k = Some pl /\
        nth_error pl (i * rwidth r + j) = Some v /\
        voxel im i j k = Some (if scaled then v / Fin 255 else v)%num.
Proof.
  intros Hwf Hr. pose proof (read_and_preprocess_cases r) as Hc.
  destruct (voxels (moveaxis r)) as [|x rest]; [congruence|].
  rewrite Hc in Hr. injection Hr as <-.
  exists (gt (fold_left maximum rest x) one).
  intros i j k Hi Hj Hk.
  destruct (voxel_moveaxis Hwf Hi Hj Hk) as (pl & v & Hpl & Hv & Hvox).
  exists pl, v. do 2 (split; [assumption|]).
  destruct (gt _ one); [|assumption].
  now rewrite voxel_image_div, Hvox.
Qed.

Lemma read_and_preprocess_ok (r : raster) (im : image) :
  wf_raster r -> read_and_preprocess r = Ok im ->
  wf_image im /\ 0 < height im * width im /\ 0 < bands im.
Proof.
  intros Hwf Hr. pose proof (wf_moveaxis Hwf) as Hm.
  pose proof (voxels_empty Hm) as He.
  cbn [moveaxis height width bands] in He.
  pose proof (read_and_preprocess_cases r) as Hc.
  destruct (voxels (moveaxis r)) as [|x rest]; [congruence|].
  assert (Hne : 0 < rheight r * rwidth r /\ 0 < rcount r).
  { destruct (Nat.eq_dec (rheight r * rwidth r) 0) as [E|E];
      [assert (x :: rest = []) by (apply He; tauto); discriminate|].
    destruct (Nat.eq_dec (rcount r) 0) as [F|F];
      [assert (x :: rest = []) by (apply He; tauto); discriminate|].
    lia. }
  rewrite Hc in Hr. injection Hr as <-.
  destruct (gt _ one); [split; [now apply wf_image_div|]|split];
    auto.
Qed.

(** X17.  Whenever the pipeline succeeds on two decoded rasters, both
    rasters have pixels, every percentage lies in [0, 100], every delta in
    [-100, 100], and [total_change_area] is a finite number that is not
    negative: a raster without pixels is stopped by [read_and_preprocess],
    so the pipeline never reports a nan. *)
Theorem run_from_rasters_bounds (r1 r2 : raster) (res : analysis) :
  wf_raster r1 -> wf_raster r2 ->
  run_from_rasters r1 r2 = Ok res ->
  0 < rheight r1 * rwidth r1 /\ 0 < rheight r2 * rwidth r2 /\
  record_within zero hundred (res_image1 res) /\
  record_within zero hundred (res_image2 res) /\
  record_within minus_hundred hundred (res_change res) /\
  finite_nonneg (res_total_change_area res).
Proof.
  intros W1 W2 Hr. unfold run_from_rasters in Hr.
  destruct (read_and_preprocess r1) as [im1|] eqn:E1; [|discriminate].
  destruct (read_and_preprocess r2) as [im2|] eqn:E2; [|discriminate].
  cbn [bind] in Hr.
  destruct (read_and_preprocess_ok W1 E1) as (H1 & N1 & _).
  destruct (read_and_preprocess_ok W2 E2) as (H2 & N2 & _).
  assert (S1 : height im1 = rheight r1 /\ width im1 = rwidth r1).
  { pose proof (read_and_preprocess_cases r1) as Hc.
    destruct (voxels (moveaxis r1)); [congruence|].
    rewrite Hc in E1. injection E1 as <-. now destruct (gt _ one). }
  assert (S2 : height im2 = rheight r2 /\ width im2 = rwidth r2).
  { pose proof (read_and_preprocess_cases r2) as Hc.
    destruct (voxels (moveaxis r2)); [congruence|].
    rewrite Hc in E2. injection E2 as <-. now destruct (gt _ one). }
  destruct S1 as [<- <-], S2 as [<- <-].
  do 2 (split; [assumption|]).
  destruct (image_masks_ok H1) as (m1 & zs1 & Hm1 & _).
  destruct (image_masks_ok H2) as (m2 & zs2 & Hm2 & _).
  rewrite (run_by_image _ _ Hm1 Hm2) in Hr.
  apply (@analyse_masks_bounds m1 m2 res
           (@image_shares im1 m1 H1 N1 Hm1)
           (@image_shares im2 m2 H2 N2 Hm2) Hr).
Qed.

(** * The change map against the change record *)

Ltac pick_case :=
  solve [repeat (first [reflexivity | left; reflexivity | right])].

(** The six outcomes of the classifier at a pixel. *)
Lemma px_cases (t : num * (num * num)) :
  let v := (px_built_up t, px_water t, px_forest t, px_vegetation t,
            px_barren t) in
  v = (zero, zero, zero, zero, zero) \/ v = (one, zero, zero, zero, zero) \/
  v = (zero, one, zero, zero, zero) \/ v = (zero, zero, one, zero, zero) \/
  v = (zero, zero, zero, one, zero) \/ v = (zero, zero, zero, zero, one).
Proof.
  destruct t as [x [y z]].
  unfold px_built_up, px_water, px_forest, px_vegetation, px_barren,
    classify_pixel. cbn [fst snd].
  pose proof (@forest_not_barren x) as Hfb.
  pose proof (@gt_not_le x half) as Hfv.
  pose proof (@gt_not_le x tenth) as Hvb.
  destruct (gt z zero), (gt y zero), (gt x half), (le x half), (gt x tenth),
    (le x tenth), (ge x minus_tenth);
    try (specialize (Hfb eq_refl)); try (specialize (Hfv eq_refl));
    try (specialize (Hvb eq_refl)); try discriminate;
    cbn; pick_case.
Qed.

(** A changed pixel moves two class counts by one, an unchanged pixel
    none. *)
Lemma changed_pixel (t1 t2 : num * (num * num)) :
  (Z.abs (indicator (px_built_up t2) - indicator (px_built_up t1)) +
   Z.abs (indicator (px_water t2) - indicator (px_water t1)) +
   Z.abs (indicator (px_forest t2) - indicator (px_forest t1)) +
   Z.abs (indicator (px_vegetation t2) - indicator (px_vegetation t1)) +
   Z.abs (indicator (px_barren t2) - indicator (px_barren t1))
   <= 2 * (if changed t1 t2 then 1 else 0))%Z.
Proof.
  unfold changed.
  destruct (px_cases t1) as [H1|[H1|[H1|[H1|[H1|H1]]]]];
    injection H1 as -> -> -> -> ->;
    destruct (px_cases t2) as [H2|[H2|[H2|[H2|[H2|H2]]]]];
    injection H2 as -> -> -> -> ->;
    apply Z.leb_le; vm_compute; reflexivity.
Qed.

Lemma count_ones_cons_Z (x : num) (l : list num) :
  Z.of_nat (count_ones (x :: l)) = (indicator x + Z.of_nat (count_ones l))%Z.
Proof.
  rewrite count_ones_cons, Nat2Z.inj_add. unfold indicator.
  now destruct (eqb x one).
Qed.

Lemma count_true_cons_Z (c : bool) (l : list bool) :
  Z.of_nat (count_true (c :: l)) =
  ((if c then 1 else 0) + Z.of_nat (count_true l))%Z.
Proof.
  unfold count_true. cbn [filter]. destruct c; cbn [length]; lia.
Qed.

Lemma abs_step (a2 a1 b2 b1 : Z) :
  (Z.abs ((a2 + b2) - (a1 + b1)) <= Z.abs (a2 - a1) + Z.abs (b2 - b1))%Z.
Proof. lia. Qed.

(** The five class counts of two classifications differ, in total, by at
    most twice the number of changed pixels. *)
Lemma changed_counts (zs1 zs2 : list (num * (num * num))) :
  length zs1 = length zs2 ->
  (Z.abs (Z.of_nat (count_ones (map px_built_up zs2))
          - Z.of_nat (count_ones (map px_built_up zs1))) +
   Z.abs (Z.of_nat (count_ones (map px_water zs2))
          - Z.of_nat (count_ones (map px_water zs1))) +
   Z.abs (Z.of_nat (count_ones (map px_forest zs2))
          - Z.of_nat (count_ones (map px_forest zs1))) +
   Z.abs (Z.of_nat (count_ones (map px_vegetation zs2))
          - Z.of_nat (count_ones (map px_vegetation zs1))) +
   Z.abs (Z.of_nat (count_ones (map px_barren zs2))
          - Z.of_nat (count_ones (map px_barren zs1)))
   <= 2 * Z.of_nat (count_true (map (fun p => changed (fst p) (snd p))
                                    (combine zs1 zs2))))%Z.
Proof.
  revert zs2. induction zs1 as [|t1 zs1 IH]; intros [|t2 zs2] Hlen;
    try discriminate Hlen.
  { apply Z.leb_le. reflexivity. }
  injection Hlen as Hlen. specialize (IH zs2 Hlen).
  cbn [map combine fst snd].
  rewrite !count_ones_cons_Z, count_true_cons_Z.
  pose proof (changed_pixel t1 t2) as Hp.
  pose proof (abs_step (indicator (px_built_up t2)) (indicator (px_built_up t1))
                (Z.of_nat (count_ones (map px_built_up zs2)))
                (Z.of_nat (count_ones (map px_built_up zs1)))).
  pose proof (abs_step (indicator (px_water t2)) (indicator (px_water t1))
                (Z.of_nat (count_ones (map px_water zs2)))
                (Z.of_nat (count_ones (map px_water zs1)))).
  pose proof (abs_step (indicator (px_forest t2)) (indicator (px_forest t1))
                (Z.of_nat (count_ones (map px_forest zs2)))
                (Z.of_nat (count_ones (map px_forest zs1)))).
  pose proof (abs_step (indicator (px_vegetation t2))
                (indicator (px_vegetation t1))
                (Z.of_nat (count_ones (map px_vegetation zs2)))
                (Z.of_nat (count_ones (map px_vegetation zs1)))).
  pose proof (abs_step (indicator (px_barren t2)) (indicator (px_barren t1))
                (Z.of_nat (count_ones (map px_barren zs2)))
                (Z.of_nat (count_ones (map px_barren zs1)))).
  repeat match goal with
         | H : context [Z.abs ?a] |- _ =>
             is_var a; fail 1
         | H : context [Z.abs ?a] |- _ => generalize dependent (Z.abs a)
         end.
  intros. lia.
Qed.

(** The masks of an image are the masks of the index values of its
    pixels. *)
Lemma image_masks_flat (im : image) :
  wf_image im ->
  exists zs,
    length zs = height im * width im /\
    image_masks im = Ok (masks_of (height im) (width im) zs) /\
    calculate_land_cover_percentages (masks_of (height im) (width im) zs) =
      combine class_names
        (map (pct (height im * width im)) (class_counts zs)).
Proof.
  intros Hwf. unfold image_masks.
  destruct (calculate_ndvi_shape Hwf) as (ndvi & -> & (Hv & V0 & V1)).
  destruct (calculate_ndwi_shape Hwf) as (ndwi & -> & (Hw & W0 & W1)).
  destruct (calculate_ndbi_shape Hwf) as (ndbi & -> & (Hb & B0 & B1)).
  cbn [bind].
  assert (Hvw : same_shape ndvi ndwi) by (split; congruence).
  assert (Hvb : same_shape ndvi ndbi) by (split; congruence).
  pose proof (@classify_flat ndvi ndwi ndbi Hv Hw Hb Hvw Hvb) as Hc.
  cbv zeta in Hc. rewrite V0, V1 in Hc.
  destruct (@percentages_of_classification ndvi ndwi ndbi _ Hv Hw Hb Hvw Hvb Hc)
    as [Hp Hlen].
  unfold size in Hp, Hlen. rewrite V0, V1 in Hp, Hlen.
  exists (zip3 ndvi ndwi ndbi). split; [exact Hlen|]. split; assumption.
Qed.

Ltac list_wf :=
  unfold wf, size; cbn [flat shape0 shape1];
  repeat (rewrite length_map || rewrite length_combine); lia.

(** [total_change] on two classifications of one shape, entry by entry. *)
Lemma total_change_flat (h w : nat) (zs1 zs2 : list (num * (num * num))) :
  length zs1 = h * w -> length zs2 = h * w ->
  total_change (masks_of h w zs1) (masks_of h w zs2) =
  Ok (mk_ndarray h w
        (map (fun p => changed (fst p) (snd p)) (combine zs1 zs2))).
Proof.
  intros H1 H2.
  unfold masks_of, total_change, class_change, np_sub, np_or.
  repeat (rewrite np_binop_same_shape
            by first [list_wf | split; reflexivity];
          cbn [bind]; unfold amap; cbn [shape0 shape1 flat]).
  do 2 f_equal. clear H1 H2. revert zs2.
  induction zs1 as [|t1 zs1 IH]; intros [|t2 zs2]; try reflexivity.
  cbn [map combine fst snd]. f_equal; first [reflexivity | apply IH].
Qed.

(** X18.  For two well-formed images of one non-empty shape, the five
    class counts behind the two percentage records differ, in total, by
    at most twice the number of pixels that the change map marks: each
    changed pixel leaves one class and enters another, or does one of the
    two.  When no pixel is marked the two percentage records are equal,
    every delta is zero and so is [total_change_area]. *)
Theorem changed_pixels_bound (image1 image2 : image) :
  wf_image image1 -> wf_image image2 ->
  height image1 = height image2 -> width image1 = width image2 ->
  0 < height image1 * width image1 ->
  exists masks1 masks2 tc r,
    image_masks image1 = Ok masks1 /\ image_masks image2 = Ok masks2 /\
    total_change masks1 masks2 = Ok tc /\
    has_shape (height image1) (width image1) tc /\
    run_lulc_change_analysis image1 image2 = Ok r /\
    res_image1 r =
      combine class_names
        (map (pct (height image1 * width image1)) (mask_counts masks1)) /\
    res_image2 r =
      combine class_names
        (map (pct (height image1 * width image1)) (mask_counts masks2)) /\
    (count_shift (mask_counts masks1) (mask_counts masks2)
     <= 2 * Z.of_nat (count_true (flat tc)))%Z /\
    (count_true (flat tc) = 0 ->
     res_image1 r = res_image2 r /\
     res_change r = combine class_names [zero; zero; zero; zero; zero] /\
     res_total_change_area r = zero).
Proof.
  intros W1 W2 Hh Hw Hn.
  destruct (image_masks_flat W1) as (zs1 & L1 & M1 & P1).
  destruct (image_masks_flat W2) as (zs2 & L2 & M2 & P2).
  rewrite <- Hh, <- Hw in L2, M2, P2.
  set (h := height image1) in *. set (w := width image1) in *.
  pose proof (@total_change_flat h w zs1 zs2 L1 L2) as Htc.
  set (tc := mk_ndarray h w
               (map (fun p => changed (fst p) (snd p)) (combine zs1 zs2)))
    in *.
  assert (Hwf : wf tc) by (subst tc; list_wf).
  exists (masks_of h w zs1), (masks_of h w zs2), tc.
  assert (Hlen : length zs1 = length zs2) by congruence.
  pose proof (changed_counts zs1 zs2 Hlen) as Hz.
  change (map (fun p => changed (fst p) (snd p)) (combine zs1 zs2))
    with (flat tc) in Hz.
  destruct (@create_change_map_pixelwise _ _ tc Htc Hwf Hn) as (cm & Hcm & _).
  destruct (@shares_of_counts (h * w) zs1 Hn L1)
    as (a1 & a2 & a3 & a4 & a5 & S1 & _).
  destruct (@shares_of_counts (h * w) zs2 Hn L2)
    as (b1 & b2 & b3 & b4 & b5 & S2 & _).
  eexists. split; [exact M1|]. split; [exact M2|]. split; [exact Htc|].
  split; [split; [exact Hwf|split; reflexivity]|].
  rewrite (run_by_image _ _ M1 M2). unfold analyse_masks.
  rewrite Hcm. cbn [bind]. rewrite P1, P2, S1, S2.
  rewrite change_stats_records. cbn [bind]. split; [reflexivity|].
  cbn [res_image1 res_image2 res_change res_total_change_area].
  rewrite <- S1, <- S2.
  split; [reflexivity|]. split; [reflexivity|].
  split.
  { unfold count_shift, mask_counts, masks_of.
    cbn [flat combine map fold_left fst snd]. rewrite Z.add_0_l.
    exact Hz. }
  intros H0. rewrite H0 in Hz.
  assert (E1 : count_ones (map px_built_up zs2)
               = count_ones (map px_built_up zs1)) by lia.
  assert (E2 : count_ones (map px_water zs2)
               = count_ones (map px_water zs1)) by lia.
  assert (E3 : count_ones (map px_forest zs2)
               = count_ones (map px_forest zs1)) by lia.
  assert (E4 : count_ones (map px_vegetation zs2)
               = count_ones (map px_vegetation zs1)) by lia.
  assert (E5 : count_ones (map px_barren zs2)
               = count_ones (map px_barren zs1)) by lia.
  assert (E : class_counts zs2 = class_counts zs1)
    by (unfold class_counts; now rewrite E1, E2, E3, E4, E5).
  rewrite E in S2. rewrite S1 in S2.
  injection S2 as <- <- <- <- <-.
  split; [now rewrite E|].
  cbn [sub]. rewrite !Qred_sub_self. split; reflexivity.
Qed.

(** * The RGB preview *)

Lemma nan_to_num_finite (x : num) : exists q, nan_to_num x = Fin q.
Proof. destruct x as [q| | |]; eexists; reflexivity. Qed.

Lemma Forall_insert_sorted (P : num -> Prop) (x : num) (l : list num) :
  P x -> Forall P l -> Forall P (insert_sorted x l).
Proof.
  intros Hx Hl. induction Hl as [|y l Hy Hl IH]; cbn [insert_sorted].
  - now constructor.
  - destruct (le x y || isnan y); repeat constructor; assumption.
Qed.

Lemma Forall_np_sort (P : num -> Prop) (l : list num) :
  Forall P l -> Forall P (np_sort l).
Proof.
  intros Hl. induction Hl as [|x l Hx Hl IH]; [constructor|].
  cbn [np_sort fold_right]. now apply Forall_insert_sorted.
Qed.

Lemma length_insert_sorted (x : num) (l : list num) :
  length (insert_sorted x l) = S (length l).
Proof.
  induction l as [|y l IH]; [reflexivity|]. cbn [insert_sorted].
  destruct (le x y || isnan y); cbn [length]; [reflexivity|].
  now rewrite IH.
Qed.

Lemma length_np_sort (l : list num) : length (np_sort l) = length l.
Proof.
  induction l as [|x l IH]; [reflexivity|].
  cbn [np_sort fold_right]. rewrite length_insert_sorted. cbn [length].
  f_equal. exact IH.
Qed.

Lemma Forall_nth_inside (P : num -> Prop) (l : list num) (n : nat) :
  Forall P l -> n < length l -> P (nth n l NaN).
Proof.
  intros Hl Hn. rewrite Forall_forall in Hl. apply Hl. now apply nth_In.
Qed.

Lemma lerp_between (a b g lo hi : Q) :
  (lo <= a <= hi -> lo <= b <= hi -> 0 <= g <= 1 ->
   lo <= a + (b - a) * g <= hi)%Q.
Proof.
  intros [Ha1 Ha2] [Hb1 Hb2] [Hg1 Hg2].
  assert (E : (a + (b - a) * g == a * (1 - g) + b * g)%Q) by ring.
  rewrite E.
  assert (H1g : (0 <= 1 - g)%Q) by lra.
  pose proof (Qmult_le_compat_r _ _ _ Ha1 H1g).
  pose proof (Qmult_le_compat_r _ _ _ Ha2 H1g).
  pose proof (Qmult_le_compat_r _ _ _ Hb1 Hg1).
  pose proof (Qmult_le_compat_r _ _ _ Hb2 Hg1).
  assert (E1 : (lo * (1 - g) + lo * g == lo)%Q) by ring.
  assert (E2 : (hi * (1 - g) + hi * g == hi)%Q) by ring.
  split; [rewrite <- E1|rewrite <- E2]; lra.
Qed.

(** The position that [np.percentile] reads lies inside the array, and
    the weight of its right neighbour between 0 and 1. *)
Lemma percentile_position (last : nat) (q : Q) :
  (0 <= q <= 100)%Q ->
  let virtual := (inject_Z (Z.of_nat last) * (q / 100))%Q in
  Z.to_nat (Qfloor virtual) <= last /\
  (0 <= virtual - inject_Z (Qfloor virtual) <= 1)%Q.
Proof.
  intros [Hq0 Hq1] virtual.
  assert (HL : (0 <= inject_Z (Z.of_nat last))%Q).
  { change 0%Q with (inject_Z 0). rewrite <- Zle_Qle. lia. }
  assert (Hs : (0 <= q / 100 <= 1)%Q).
  { unfold Qdiv. change (/ 100)%Q with (1 # 100)%Q. lra. }
  assert (Hv : (0 <= virtual <= inject_Z (Z.of_nat last))%Q).
  { subst virtual. destruct Hs as [Hs0 Hs1]. split.
    - now apply Qmult_le_0_compat.
    - pose proof (Qmult_le_compat_r _ _ _ Hs1 HL) as H.
      rewrite Qmult_1_l in H. now rewrite Qmult_comm. }
  pose proof (Qfloor_le virtual) as Hf1.
  pose proof (Qlt_floor virtual) as Hf2.
  rewrite inject_Z_plus in Hf2. change (inject_Z 1) with 1%Q in Hf2.
  split; [|lra].
  destruct Hv as [Hv0 Hv1].
  apply Qfloor_resp_le in Hv1. rewrite Qfloor_Z in Hv1.
  apply Qfloor_resp_le in Hv0. change (Qfloor 0) with 0%Z in Hv0.
  lia.
Qed.

(** A percentile of finite values of an interval is a finite value of that
    interval. *)
Lemma percentile_between (a : list num) (q lo hi : Q) :
  a <> [] -> (0 <= q <= 100)%Q ->
  Forall (fun x => exists v, x = Fin v /\ (lo <= v <= hi)%Q) a ->
  exists p, np_percentile a q = Fin p /\ (lo <= p <= hi)%Q.
Proof.
  intros Hne Hq Ha. unfold np_percentile.
  destruct (@percentile_position (length a - 1) q Hq) as [Hprev Hgamma].
  cbv zeta in Hprev, Hgamma.
  set (virtual := (inject_Z (Z.of_nat (length a - 1)) * (q / 100))%Q) in *.
  set (previous := Z.to_nat (Qfloor virtual)) in *.
  assert (Hlen : 0 < length a) by (destruct a; [congruence|cbn; lia]).
  pose proof (Forall_np_sort Ha) as Hs.
  destruct (@Forall_nth_inside _ (np_sort a) previous Hs) as (x & -> & Hx).
  { rewrite length_np_sort. lia. }
  destruct (@Forall_nth_inside _ (np_sort a)
              (Nat.min (previous + 1) (length a - 1)) Hs) as (y & -> & Hy).
  { rewrite length_np_sort. lia. }
  cbn [add sub mul]. eexists. split; [reflexivity|].
  rewrite !Qred_correct. now apply lerp_between.
Qed.


Lemma gt_Fin_cases (a b : Q) :
  (gt (Fin a) (Fin b) = true /\ (b < a)%Q) \/
  (gt (Fin a) (Fin b) = false /\ (a <= b)%Q).
Proof.
  destruct (gt (Fin a) (Fin b)) eqn:E.
  - left. split; [reflexivity|now apply gt_Fin].
  - right. split; [reflexivity|].
    destruct (Qlt_le_dec b a) as [H|H]; [|assumption].
    apply gt_Fin in H. congruence.
Qed.


(** The positive values of a band of finite numbers lie in an interval
    above zero. *)
Lemma positive_bounds (l : list num) :
  Forall (fun x => exists v, x = Fin v /\ (0 < v)%Q) l -> l <> [] ->
  exists lo hi,
    (0 < lo)%Q /\
    Forall (fun x => exists v, x = Fin v /\ (lo <= v <= hi)%Q) l.
Proof.
  induction 1 as [|x l (v & -> & Hv) Hl IH]; [congruence|]. intros _.
  destruct l as [|y l].
  - exists v, v. split; [assumption|]. constructor; [|constructor].
    exists v. split; [reflexivity|lra].
  - destruct IH as (lo & hi & Hlo & Hall); [discriminate|].
    assert (Hm : exists lo' hi', (0 < lo' /\ lo' <= lo /\ lo' <= v /\
                                  hi <= hi' /\ v <= hi')%Q).
    { destruct (Qlt_le_dec v lo), (Qlt_le_dec v hi);
        [exists v, hi|exists v, v|exists lo, hi|exists lo, v];
        repeat split; lra. }
    destruct Hm as (lo' & hi' & H0 & H1 & H2 & H3 & H4).
    exists lo', hi'. split; [assumption|]. constructor.
    + exists v. split; [reflexivity|lra].
    + eapply Forall_impl; [|exact Hall].
      intros z (u & -> & Hu). exists u. split; [reflexivity|lra].
Qed.

Lemma valid_pixels_positive (band : list num) :
  Forall (fun x => exists q, x = Fin q) band ->
  Forall (fun x => exists v, x = Fin v /\ (0 < v)%Q)
         (filter (fun v => gt v zero) band).
Proof.
  intros Hb. rewrite Forall_forall in *. intros x Hx.
  apply filter_In in Hx. destruct Hx as [Hin Hgt].
  destruct (Hb x Hin) as (q & ->). exists q. split; [reflexivity|].
  now apply gt_Fin in Hgt.
Qed.











Lemma Forall_nan_to_num (band : list num) :
  Forall (fun x => exists v, x = Fin v) (map nan_to_num band).
Proof.
  apply Forall_forall. intros x Hx. apply in_map_iff in Hx.
  destruct Hx as (y & <- & _). apply nan_to_num_finite.
Qed.











(** ** The order of the percentiles *)

Lemma insert_sorted_ascending (x : num) (l : list num) :
  Forall (fun y => exists v, y = Fin v) (x :: l) ->
  StronglySorted (fun a b => le a b = true) l ->
  StronglySorted (fun a b => le a b = true) (insert_sorted x l).
Proof.
  intros Hfin Hs. inversion Hfin as [|? ? (vx & ->) Hl]; subst.
  induction Hs as [|y l Hs IH Hy]; cbn [insert_sorted].
  - repeat constructor.
  - inversion Hl as [|? ? (vy & ->) Hl']; subst. cbn [isnan].
    rewrite orb_false_r.
    destruct (le (Fin vx) (Fin vy)) eqn:E.
    + constructor; [now constructor|].
      apply le_Fin in E. constructor; [now apply le_Fin|].
      rewrite Forall_forall in *. intros z Hz.
      destruct (Hl' z Hz) as (vz & ->). specialize (Hy _ Hz).
      apply le_Fin in Hy. apply le_Fin. lra.
    + constructor.
      * apply IH; [|assumption]. constructor; [now exists vx|assumption].
      * apply Forall_insert_sorted; [|assumption].
        destruct (Qlt_le_dec vx vy) as [H|H].
        -- assert (le (Fin vx) (Fin vy) = true) by (apply le_Fin; lra).
           congruence.
        -- now apply le_Fin.
Qed.

(** On finite values [np_sort] returns an ascending list. *)
Lemma np_sort_ascending (l : list num) :
  Forall (fun y => exists v, y = Fin v) l ->
  StronglySorted (fun a b => le a b = true) (np_sort l).
Proof.
  intros Hl. induction Hl as [|x l Hx Hl IH]; [constructor|].
  cbn [np_sort fold_right]. apply insert_sorted_ascending; [|exact IH].
  constructor; [assumption|]. now apply Forall_np_sort.
Qed.

Lemma ascending_nth (l : list num) (i j : nat) :
  Forall (fun y => exists v, y = Fin v) l ->
  StronglySorted (fun a b => le a b = true) l ->
  i <= j -> j < length l ->
  exists a b, nth i l NaN = Fin a /\ nth j l NaN = Fin b /\ (a <= b)%Q.
Proof.
  intros Hfin Hs. revert i j.
  induction Hs as [|y l Hs IH Hy]; intros i j Hij Hj; [cbn in Hj; lia|].
  inversion Hfin as [|? ? (vy & ->) Hl]; subst.
  destruct i as [|i], j as [|j]; cbn [nth]; try lia.
  - exists vy, vy. repeat split; lra.
  - cbn [length] in Hj.
    assert (Hj' : j < length l) by lia.
    pose proof (@Forall_nth_inside _ l j Hy Hj') as Hle.
    destruct (@Forall_nth_inside _ l j Hl Hj') as (b & Hb).
    rewrite Hb in *. apply le_Fin in Hle. now exists vy, b.
  - cbn [length] in Hj. apply IH; [assumption|lia|lia].
Qed.

Lemma lerp_step (a b g1 g2 : Q) :
  (a <= b -> g1 <= g2 -> a + (b - a) * g1 <= a + (b - a) * g2)%Q.
Proof.
  intros Hab Hg.
  assert (H : ((b - a) * g1 <= (b - a) * g2)%Q).
  { rewrite !(Qmult_comm (b - a)). apply Qmult_le_compat_r; lra. }
  lra.
Qed.

(** A percentile of finite values does not decrease with its rank. *)
Lemma percentile_monotone (a : list num) (q1 q2 : Q) :
  a <> [] -> Forall (fun y => exists v, y = Fin v) a ->
  (0 <= q1)%Q -> (q1 <= q2)%Q -> (q2 <= 100)%Q ->
  exists p1 p2,
    np_percentile a q1 = Fin p1 /\ np_percentile a q2 = Fin p2 /\
    (p1 <= p2)%Q.
Proof.
  intros Hne Hfin H0 H12 H100. unfold np_percentile.
  assert (Hlen : 0 < length a) by (destruct a; [congruence|cbn; lia]).
  destruct (@percentile_position (length a - 1) q1 ltac:(lra)) as [P1 G1].
  destruct (@percentile_position (length a - 1) q2 ltac:(lra)) as [P2 G2].
  cbv zeta in P1, G1, P2, G2.
  assert (HL : (0 <= inject_Z (Z.of_nat (length a - 1)))%Q).
  { change 0%Q with (inject_Z 0). rewrite <- Zle_Qle. lia. }
  assert (Hv : (inject_Z (Z.of_nat (length a - 1)) * (q1 / 100) <=
                inject_Z (Z.of_nat (length a - 1)) * (q2 / 100))%Q).
  { rewrite !(Qmult_comm (inject_Z _)). apply Qmult_le_compat_r; [|exact HL].
    unfold Qdiv. change (/ 100)%Q with (1 # 100)%Q. lra. }
  assert (Hv0 : (0 <= inject_Z (Z.of_nat (length a - 1)) * (q1 / 100))%Q).
  { apply Qmult_le_0_compat; [exact HL|].
    unfold Qdiv. change (/ 100)%Q with (1 # 100)%Q. lra. }
  set (v1 := (inject_Z (Z.of_nat (length a - 1)) * (q1 / 100))%Q) in *.
  set (v2 := (inject_Z (Z.of_nat (length a - 1)) * (q2 / 100))%Q) in *.
  pose proof (Qfloor_resp_le _ _ Hv) as Hf.
  pose proof (Qfloor_resp_le _ _ Hv0) as Hf0.
  change (Qfloor 0) with 0%Z in Hf0.
  pose proof (Forall_np_sort Hfin) as Hsf.
  pose proof (np_sort_ascending Hfin) as Hsa.
  pose proof (length_np_sort a) as Hsl.
  set (arr := np_sort a) in *.
  set (i1 := Z.to_nat (Qfloor v1)) in *.
  set (i2 := Z.to_nat (Qfloor v2)) in *.
  set (last := length a - 1) in *.
  destruct (@ascending_nth arr i1 (Nat.min (i1 + 1) last) Hsf Hsa)
    as (a1 & b1 & Ea1 & Eb1 & L1); [lia|lia|].
  destruct (@ascending_nth arr i2 (Nat.min (i2 + 1) last) Hsf Hsa)
    as (a2 & b2 & Ea2 & Eb2 & L2); [lia|lia|].
  rewrite Ea1, Eb1, Ea2, Eb2. cbn [add sub mul].
  eexists _, _. split; [reflexivity|]. split; [reflexivity|].
  rewrite !Qred_correct.
  destruct (Z.eq_dec (Qfloor v1) (Qfloor v2)) as [Heq|Hneq].
  - assert (Hi : i1 = i2) by (subst i1 i2; now rewrite Heq).
    rewrite Hi in Ea1, Eb1. rewrite Ea1 in Ea2. rewrite Eb1 in Eb2.
    injection Ea2 as <-. injection Eb2 as <-.
    apply lerp_step; [assumption|]. rewrite Heq. lra.
  - assert (Hi : Nat.min (i1 + 1) last <= i2) by (subst i1 i2; lia).
    destruct (@ascending_nth arr (Nat.min (i1 + 1) last) i2 Hsf Hsa)
      as (b1' & a2' & Eb1' & Ea2' & L12); [lia|lia|].
    rewrite Eb1 in Eb1'. rewrite Ea2 in Ea2'.
    injection Eb1' as <-. injection Ea2' as <-.
    pose proof (@lerp_between a1 b1 (v1 - inject_Z (Qfloor v1)) a1 b1
                  ltac:(lra) ltac:(lra) G1).
    pose proof (@lerp_between a2 b2 (v2 - inject_Z (Qfloor v2)) a2 b2
                  ltac:(lra) ltac:(lra) G2).
    lra.
Qed.

(** X22.  In a band with a positive finite value the 2nd percentile of
    the positive values is positive and never above the 98th, so the
    stretch divides by their difference unless the two are equal, and
    only then leaves the band undivided. *)
Theorem percentiles_ordered (band : list num) :
  let valid_pixels := filter (fun v => gt v zero) (map nan_to_num band) in
  valid_pixels <> [] ->
  exists q2 q98,
    np_percentile valid_pixels 2 = Fin q2 /\
    np_percentile valid_pixels 98 = Fin q98 /\
    (0 < q2)%Q /\ (q2 <= q98)%Q /\
    (gt (Fin q98 - Fin q2)%num zero = false <-> (q2 == q98)%Q).
Proof.
  intros valid_pixels Hne. subst valid_pixels.
  pose proof (valid_pixels_positive (Forall_nan_to_num band)) as Hpos.
  assert (Hfin : Forall (fun y => exists v, y = Fin v)
                   (filter (fun v => gt v zero) (map nan_to_num band))).
  { eapply Forall_impl; [|exact Hpos]. intros y (v & -> & _). now exists v. }
  destruct (positive_bounds Hpos Hne) as (lo & hi & Hlo & Hall).
  destruct (@percentile_between _ 2 lo hi Hne ltac:(lra) Hall)
    as (q2 & E2 & B2).
  destruct (@percentile_monotone _ 2 98 Hne Hfin
              ltac:(lra) ltac:(lra) ltac:(lra))
    as (p2 & p98 & E2' & E98 & Hle).
  rewrite E2 in E2'. injection E2' as <-.
  exists q2, p98. do 2 (split; [assumption|]).
  split; [lra|]. split; [assumption|].
  cbn [sub].
  destruct (gt_Fin_cases (Qred (p98 - q2)) 0) as [[Hg Hd]|[Hg Hd]];
    fold zero in Hg; rewrite Hg; rewrite Qred_correct in Hd.
  - split; [discriminate|]. intros Heq. lra.
  - split; [|reflexivity]. intros _. lra.
Qed.

(** * The further theorems on the sample inputs *)

Ltac sample_wf_image :=
  split; [reflexivity|repeat constructor].

Ltac sample_nonneg :=
  repeat (first [apply Forall_nil
                | apply Forall_cons; [try (split; reflexivity)|]]).

Ltac sample_wf_raster :=
  split; [reflexivity|repeat constructor].

(** C9 on the five-band and the three-band sample image. *)
Lemma change_record_witness :
  wf_image sample_image /\ wf_image rgb_image /\
  height sample_image = height rgb_image /\
  width sample_image = width rgb_image /\
  0 < height sample_image * width sample_image /\
  run_lulc_change_analysis sample_image rgb_image = Ok sample_run /\
  (exists r, run_lulc_change_analysis sample_image rgb_image = Ok r) /\
  exists masks1 masks2 d1 d2 d3 d4 d5,
    image_masks sample_image = Ok masks1 /\
    image_masks rgb_image = Ok masks2 /\
    res_image1 sample_run = calculate_land_cover_percentages masks1 /\
    res_image2 sample_run = calculate_land_cover_percentages masks2 /\
    res_change sample_run = combine class_names [d1; d2; d3; d4; d5] /\
    (forall k v1 v2,
       dict_get (res_image1 sample_run) k = Ok v1 ->
       dict_get (res_image2 sample_run) k = Ok v2 ->
       dict_get (res_change sample_run) k = Ok (v2 - v1)%num) /\
    res_total_change_area sample_run =
      ((zero + abs d1 + abs d2 + abs d3 + abs d4 + abs d5) / Fin 2)%num.
Proof.
  assert (H1 : wf_image sample_image) by sample_wf_image.
  assert (H2 : wf_image rgb_image) by sample_wf_image.
  assert (Hh : height sample_image = height rgb_image) by reflexivity.
  assert (Hw : width sample_image = width rgb_image) by reflexivity.
  assert (Hn : 0 < height sample_image * width sample_image) by (cbn; lia).
  assert (Hr : run_lulc_change_analysis sample_image rgb_image = Ok sample_run)
    by (vm_compute; reflexivity).
  repeat (split; [assumption|]).
  split.
  - exact (proj1 (change_record sample_image rgb_image) H1 H2 Hh Hw Hn).
  - exact (proj2 (change_record sample_image rgb_image) sample_run Hr).
Defined.

(** X1 on the five-band sample image. *)
Lemma index_arrays_shape_witness :
  wf_image sample_image /\
  exists ndvi ndwi ndbi,
    calculate_ndvi sample_image = Ok ndvi /\
    calculate_ndwi sample_image = Ok ndwi /\
    calculate_ndbi sample_image = Ok ndbi /\
    has_shape (height sample_image) (width sample_image) ndvi /\
    has_shape (height sample_image) (width sample_image) ndwi /\
    has_shape (height sample_image) (width sample_image) ndbi.
Proof.
  assert (Hwf : wf_image sample_image) by sample_wf_image.
  split; [assumption|].
  exact (@index_arrays_shape sample_image Hwf).
Defined.

(** X2 on the five-band sample image. *)
Lemma nonneg_index_unclipped_witness :
  wf_image sample_image /\ nonneg_image sample_image /\
  4 <= bands sample_image /\ 5 <= bands sample_image /\
  (exists ndvi ndwi,
     calculate_ndvi sample_image = Ok ndvi /\
     calculate_ndwi sample_image = Ok ndwi /\
     forall i j, i < height sample_image -> j < width sample_image ->
       exists green red nir v w,
         voxel sample_image i j 1 = Some green /\
         voxel sample_image i j 2 = Some red /\
         voxel sample_image i j 3 = Some nir /\
         item ndvi i j = Some v /\ item ndwi i j = Some w /\
         unclipped nir red v /\ unclipped green nir w) /\
  (exists ndbi,
     calculate_ndbi sample_image = Ok ndbi /\
     forall i j, i < height sample_image -> j < width sample_image ->
       exists nir swir u,
         voxel sample_image i j 3 = Some nir /\
         voxel sample_image i j 4 = Some swir /\
         item ndbi i j = Some u /\ unclipped swir nir u).
Proof.
  assert (Hwf : wf_image sample_image) by sample_wf_image.
  assert (Hnn : nonneg_image sample_image) by sample_nonneg.
  assert (H4 : 4 <= bands sample_image) by (cbn; lia).
  assert (H5 : 5 <= bands sample_image) by (cbn; lia).
  repeat (split; [assumption|]).
  split.
  - exact (proj1 (@nonneg_index_unclipped sample_image Hwf Hnn) H4).
  - exact (proj2 (@nonneg_index_unclipped sample_image Hwf Hnn) H5).
Defined.

(** X3 on the five-band sample image. *)
Lemma nonneg_index_sign_witness :
  wf_image sample_image /\ nonneg_image sample_image /\
  4 <= bands sample_image /\ 5 <= bands sample_image /\
  (exists ndvi ndwi,
     calculate_ndvi sample_image = Ok ndvi /\
     calculate_ndwi sample_image = Ok ndwi /\
     forall i j, i < height sample_image -> j < width sample_image ->
       exists green red nir v w,
         voxel sample_image i j 1 = Some green /\
         voxel sample_image i j 2 = Some red /\
         voxel sample_image i j 3 = Some nir /\
         item ndvi i j = Some v /\ item ndwi i j = Some w /\
         same_sign nir red v /\ same_sign green nir w) /\
  (exists ndbi,
     calculate_ndbi sample_image = Ok ndbi /\
     forall i j, i < height sample_image -> j < width sample_image ->
       exists nir swir u,
         voxel sample_image i j 3 = Some nir /\
         voxel sample_image i j 4 = Some swir /\
         item ndbi i j = Some u /\ same_sign swir nir u).
Proof.
  assert (Hwf : wf_image sample_image) by sample_wf_image.
  assert (Hnn : nonneg_image sample_image) by sample_nonneg.
  assert (H4 : 4 <= bands sample_image) by (cbn; lia).
  assert (H5 : 5 <= bands sample_image) by (cbn; lia).
  repeat (split; [assumption|]).
  split.
  - exact (proj1 (@nonneg_index_sign sample_image Hwf Hnn) H4).
  - exact (proj2 (@nonneg_index_sign sample_image Hwf Hnn) H5).
Defined.

(** X5 on the two sample pixels. *)
Lemma unclassified_pixels_witness :
  wf sample_ndvi /\ wf sample_ndwi /\ wf sample_ndbi /\
  same_shape sample_ndvi sample_ndwi /\ same_shape sample_ndvi sample_ndbi /\
  exists m,
    classify_land_cover sample_ndvi sample_ndwi sample_ndbi = Ok m /\
    forall i j, i < shape0 sample_ndvi -> j < shape1 sample_ndvi ->
      exists x y z p,
        item sample_ndvi i j = Some x /\ item sample_ndwi i j = Some y /\
        item sample_ndbi i j = Some z /\ at_pixel m i j = Some p /\
        count_ones p =
          if gt y zero || gt z zero || ge x minus_tenth then 1 else 0.
Proof.
  assert (Hv : wf sample_ndvi) by reflexivity.
  assert (Hw : wf sample_ndwi) by reflexivity.
  assert (Hb : wf sample_ndbi) by reflexivity.
  assert (Hvw : same_shape sample_ndvi sample_ndwi) by (split; reflexivity).
  assert (Hvb : same_shape sample_ndvi sample_ndbi) by (split; reflexivity).
  repeat (split; [assumption|]).
  exact (@unclassified_pixels sample_ndvi sample_ndwi sample_ndbi
           Hv Hw Hb Hvw Hvb).
Defined.

(** X6 on the two sample pixels, which are both classified. *)
Lemma class_counts_classified_witness :
  wf sample_ndvi /\ wf sample_ndwi /\ wf sample_ndbi /\
  same_shape sample_ndvi sample_ndwi /\ same_shape sample_ndvi sample_ndbi /\
  classify_land_cover sample_ndvi sample_ndwi sample_ndbi = Ok sample_masks /\
  calculate_land_cover_percentages sample_masks =
    combine class_names
      (map (pct (size sample_ndvi)) (mask_counts sample_masks)) /\
  fold_left Nat.add (mask_counts sample_masks) 0 =
    length (filter classified_px
              (zip3 sample_ndvi sample_ndwi sample_ndbi)) /\
  (fold_left Nat.add (mask_counts sample_masks) 0 = size sample_ndvi <->
   Forall (fun t => classified_px t = true)
          (zip3 sample_ndvi sample_ndwi sample_ndbi)).
Proof.
  assert (Hv : wf sample_ndvi) by reflexivity.
  assert (Hw : wf sample_ndwi) by reflexivity.
  assert (Hb : wf sample_ndbi) by reflexivity.
  assert (Hvw : same_shape sample_ndvi sample_ndwi) by (split; reflexivity).
  assert (Hvb : same_shape sample_ndvi sample_ndbi) by (split; reflexivity).
  assert (Hc : classify_land_cover sample_ndvi sample_ndwi sample_ndbi
               = Ok sample_masks) by reflexivity.
  repeat (split; [assumption|]).
  exact (@class_counts_classified sample_ndvi sample_ndwi sample_ndbi
           sample_masks Hv Hw Hb Hvw Hvb Hc).
Defined.

(** X7 three times: the sample classification against the one-pixel
    masks, whose shapes (1, 2) and (1, 1) differ and are broadcast; against
    the nine-pixel masks, whose shape (3, 3) cannot be broadcast with
    (1, 2); and the masks without pixels against themselves. *)
Lemma change_map_shape_check_witness :
  masks_of_shape 1 2 sample_masks /\ masks_of_shape 1 1 pixel_masks /\
  masks_of_shape 3 3 nine_masks /\ masks_of_shape 0 0 empty_masks /\
  (exists cm, create_change_map sample_masks pixel_masks = Ok cm /\
              has_shape 1 2 cm) /\
  create_change_map sample_masks nine_masks = Raise ValueError /\
  create_change_map empty_masks empty_masks = Raise SaveError.
Proof.
  assert (Hs1 : masks_of_shape 1 2 sample_masks) by (repeat split).
  assert (Hs2 : masks_of_shape 1 1 pixel_masks) by (repeat split).
  assert (Hs3 : masks_of_shape 3 3 nine_masks) by (repeat split).
  assert (Hs4 : masks_of_shape 0 0 empty_masks) by (repeat split).
  repeat (split; [assumption|]).
  split; [|split].
  - exact (@change_map_shape_check 1 2 1 1 sample_masks pixel_masks Hs1 Hs2).
  - exact (@change_map_shape_check 1 2 3 3 sample_masks nine_masks Hs1 Hs3).
  - exact (@change_map_shape_check 0 0 0 0 empty_masks empty_masks Hs4 Hs4).
Defined.

(** X8 between the one-pixel masks and the sample classification. *)
Lemma change_map_single_pixel_witness :
  masks_of_shape 1 1 pixel_masks /\ masks_of_shape 1 2 sample_masks /\
  0 < 1 * 2 /\
  exists tc cm p1,
    total_change pixel_masks sample_masks = Ok tc /\
    create_change_map pixel_masks sample_masks = Ok cm /\
    has_shape 1 2 tc /\ has_shape 1 2 cm /\
    at_pixel pixel_masks 0 0 = Some p1 /\
    forall i j, i < 1 -> j < 2 ->
      exists p2 c,
        at_pixel sample_masks i j = Some p2 /\
        c = existsb (fun p => flipped (fst p) (snd p)) (combine p1 p2) /\
        item tc i j = Some c /\
        item cm i j = Some (if c then 255 else 0)%Z.
Proof.
  assert (Hs1 : masks_of_shape 1 1 pixel_masks) by (repeat split).
  assert (Hs2 : masks_of_shape 1 2 sample_masks) by (repeat split).
  assert (Hn : 0 < 1 * 2) by (cbn; lia).
  repeat (split; [assumption|]).
  exact (@change_map_single_pixel 1 2 pixel_masks sample_masks Hs1 Hs2 Hn).
Defined.

(** X9 on the sample classification. *)
Lemma change_map_self_witness :
  masks_of_shape 1 2 sample_masks /\ 0 < 1 * 2 /\
  exists cm,
    create_change_map sample_masks sample_masks = Ok cm /\
    has_shape 1 2 cm /\
    forall i j, i < 1 -> j < 2 -> item cm i j = Some 0%Z.
Proof.
  assert (Hs : masks_of_shape 1 2 sample_masks) by (repeat split).
  assert (Hn : 0 < 1 * 2) by (cbn; lia).
  repeat (split; [assumption|]).
  exact (@change_map_self 1 2 sample_masks Hs Hn).
Defined.

(** X10 three times: the five-band against the three-band sample image;
    the five-band sample image against the image without pixels, whose
    widths 2 and 0 cannot be broadcast; and the image without pixels
    against itself. *)
Lemma run_shape_check_witness :
  wf_image sample_image /\ wf_image rgb_image /\ wf_image empty_image /\
  (exists r, run_lulc_change_analysis sample_image rgb_image = Ok r) /\
  run_lulc_change_analysis sample_image empty_image = Raise ValueError /\
  run_lulc_change_analysis empty_image empty_image = Raise SaveError.
Proof.
  assert (H1 : wf_image sample_image) by sample_wf_image.
  assert (H2 : wf_image rgb_image) by sample_wf_image.
  assert (H3 : wf_image empty_image) by sample_wf_image.
  repeat (split; [assumption|]).
  split; [|split].
  - exact (@run_shape_check sample_image rgb_image H1 H2).
  - exact (@run_shape_check sample_image empty_image H1 H3).
  - exact (@run_shape_check empty_image empty_image H3 H3).
Defined.

(** X11 on the five-band and the three-band sample image. *)
Lemma run_result_bounds_witness :
  wf_image sample_image /\ wf_image rgb_image /\
  0 < height sample_image * width sample_image /\
  0 < height rgb_image * width rgb_image /\
  run_lulc_change_analysis sample_image rgb_image = Ok sample_run /\
  record_within zero hundred (res_image1 sample_run) /\
  record_within zero hundred (res_image2 sample_run) /\
  record_within minus_hundred hundred (res_change sample_run) /\
  finite_nonneg (res_total_change_area sample_run).
Proof.
  assert (H1 : wf_image sample_image) by sample_wf_image.
  assert (H2 : wf_image rgb_image) by sample_wf_image.
  assert (N1 : 0 < height sample_image * width sample_image) by (cbn; lia).
  assert (N2 : 0 < height rgb_image * width rgb_image) by (cbn; lia).
  assert (Hr : run_lulc_change_analysis sample_image rgb_image = Ok sample_run)
    by (vm_compute; reflexivity).
  repeat (split; [assumption|]).
  exact (@run_result_bounds sample_image rgb_image sample_run
           H1 H2 N1 N2 Hr).
Defined.

(** X12 on the five-band sample image. *)
Lemma run_same_image_witness :
  wf_image sample_image /\ 0 < height sample_image * width sample_image /\
  exists r,
    run_lulc_change_analysis sample_image sample_image = Ok r /\
    res_image1 r = res_image2 r /\
    res_change r = combine class_names [zero; zero; zero; zero; zero] /\
    res_total_change_area r = zero.
Proof.
  assert (H1 : wf_image sample_image) by sample_wf_image.
  assert (N1 : 0 < height sample_image * width sample_image) by (cbn; lia).
  repeat (split; [assumption|]).
  exact (@run_same_image sample_image H1 N1).
Defined.

(** X13 on a raster without pixels and on the sample raster, which has
    bands and pixels. *)
Lemma read_and_preprocess_shape_witness :
  wf_raster empty_raster /\
  (rcount empty_raster = 0 \/
   rheight empty_raster * rwidth empty_raster = 0) /\
  read_and_preprocess empty_raster = Raise ValueError /\
  wf_raster sample_raster /\ 0 < rcount sample_raster /\
  0 < rheight sample_raster * rwidth sample_raster /\
  exists im,
    read_and_preprocess sample_raster = Ok im /\ wf_image im /\
    height im = rheight sample_raster /\ width im = rwidth sample_raster /\
    bands im = rcount sample_raster.
Proof.
  assert (Hwe : wf_raster empty_raster) by sample_wf_raster.
  assert (He : rcount empty_raster = 0 \/
               rheight empty_raster * rwidth empty_raster = 0)
    by (right; reflexivity).
  assert (Hwf : wf_raster sample_raster) by sample_wf_raster.
  assert (Hc : 0 < rcount sample_raster) by (cbn; lia).
  assert (Hn : 0 < rheight sample_raster * rwidth sample_raster)
    by (cbn; lia).
  split; [assumption|]. split; [assumption|].
  split; [exact (proj1 (@read_and_preprocess_shape empty_raster Hwe) He)|].
  repeat (split; [assumption|]).
  exact (proj2 (@read_and_preprocess_shape sample_raster Hwf) Hc Hn).
Defined.

(** X14 on the sample raster, whose values are 8-bit. *)
Lemma read_and_preprocess_range_witness :
  wf_raster sample_raster /\ raster_within zero (Fin 255) sample_raster /\
  0 < rcount sample_raster /\
  0 < rheight sample_raster * rwidth sample_raster /\
  exists im,
    read_and_preprocess sample_raster = Ok im /\ image_within zero one im.
Proof.
  assert (Hwf : wf_raster sample_raster) by sample_wf_raster.
  assert (Hin : raster_within zero (Fin 255) sample_raster)
    by (repeat (first [apply Forall_nil
                      | apply Forall_cons; [try (split; reflexivity)|]])).
  assert (Hc : 0 < rcount sample_raster) by (cbn; lia).
  assert (Hn : 0 < rheight sample_raster * rwidth sample_raster)
    by (cbn; lia).
  repeat (split; [assumption|]).
  exact (@read_and_preprocess_range sample_raster Hwf Hin Hc Hn).
Defined.

(** X15 on a raster with the values 200 and nan: it is not divided. *)
Lemma read_and_preprocess_nan_witness :
  wf_raster nan_raster /\ In [Fin 200; NaN] (planes nan_raster) /\
  In NaN [Fin 200; NaN] /\
  read_and_preprocess nan_raster = Ok (moveaxis nan_raster).
Proof.
  assert (Hwf : wf_raster nan_raster) by sample_wf_raster.
  assert (Hpl : In [Fin 200; NaN] (planes nan_raster))
    by (left; reflexivity).
  assert (Hnan : In NaN [Fin 200; NaN]) by (right; left; reflexivity).
  repeat (split; [assumption|]).
  exact (@read_and_preprocess_nan nan_raster [Fin 200; NaN] Hwf Hpl Hnan).
Defined.

(** X16 on the sample raster. *)
Lemma read_and_preprocess_layout_witness :
  wf_raster sample_raster /\
  read_and_preprocess sample_raster
    = Ok (image_div (moveaxis sample_raster) (Fin 255)) /\
  exists scaled : bool,
    forall i j k, i < rheight sample_raster -> j < rwidth sample_raster ->
                  k < rcount sample_raster ->
      exists pl v,
        nth_error (planes sample_raster) k = Some pl /\
        nth_error pl (i * rwidth sample_raster + j) = Some v /\
        voxel (image_div (moveaxis sample_raster) (Fin 255)) i j k
          = Some (if scaled then v / Fin 255 else v)%num.
Proof.
  assert (Hwf : wf_raster sample_raster) by sample_wf_raster.
  assert (Hr : read_and_preprocess sample_raster
               = Ok (image_div (moveaxis sample_raster) (Fin 255)))
    by reflexivity.
  repeat (split; [assumption|]).
  exact (@read_and_preprocess_layout sample_raster _ Hwf Hr).
Defined.

(** X17 on the sample raster against itself. *)
Lemma run_from_rasters_bounds_witness :
  wf_raster sample_raster /\
  run_from_rasters sample_raster sample_raster = Ok sample_raster_run /\
  0 < rheight sample_raster * rwidth sample_raster /\
  0 < rheight sample_raster * rwidth sample_raster /\
  record_within zero hundred (res_image1 sample_raster_run) /\
  record_within zero hundred (res_image2 sample_raster_run) /\
  record_within minus_hundred hundred (res_change sample_raster_run) /\
  finite_nonneg (res_total_change_area sample_raster_run).
Proof.
  assert (Hwf : wf_raster sample_raster) by sample_wf_raster.
  assert (Hr : run_from_rasters sample_raster sample_raster
               = Ok sample_raster_run) by (vm_compute; reflexivity).
  repeat (split; [assumption|]).
  exact (@run_from_rasters_bounds sample_raster sample_raster
           sample_raster_run Hwf Hwf Hr).
Defined.

(** X18 on the five-band and the three-band sample image: both pixels
    change, and four class counts move by one each. *)
Lemma changed_pixels_bound_witness :
  wf_image sample_image /\ wf_image rgb_image /\
  height sample_image = height rgb_image /\
  width sample_image = width rgb_image /\
  0 < height sample_image * width sample_image /\
  exists masks1 masks2 tc r,
    image_masks sample_image = Ok masks1 /\
    image_masks rgb_image = Ok masks2 /\
    total_change masks1 masks2 = Ok tc /\
    has_shape (height sample_image) (width sample_image) tc /\
    run_lulc_change_analysis sample_image rgb_image = Ok r /\
    res_image1 r =
      combine class_names
        (map (pct (height sample_image * width sample_image))
             (mask_counts masks1)) /\
    res_image2 r =
      combine class_names
        (map (pct (height sample_image * width sample_image))
             (mask_counts masks2)) /\
    (count_shift (mask_counts masks1) (mask_counts masks2)
     <= 2 * Z.of_nat (count_true (flat tc)))%Z /\
    (count_true (flat tc) = 0 ->
     res_image1 r = res_image2 r /\
     res_change r = combine class_names [zero; zero; zero; zero; zero] /\
     res_total_change_area r = zero).
Proof.
  assert (H1 : wf_image sample_image) by sample_wf_image.
  assert (H2 : wf_image rgb_image) by sample_wf_image.
  assert (Hh : height sample_image = height rgb_image) by reflexivity.
  assert (Hw : width sample_image = width rgb_image) by reflexivity.
  assert (Hn : 0 < height sample_image * width sample_image) by (cbn; lia).
  repeat (split; [assumption|]).
  exact (@changed_pixels_bound sample_image rgb_image H1 H2 Hh Hw Hn).
Defined.




(** X22 on the blue sample band. *)
Lemma percentiles_ordered_witness :
  filter (fun v => gt v zero) (map nan_to_num blue_band) <> [] /\
  exists q2 q98,
    np_percentile (filter (fun v => gt v zero) (map nan_to_num blue_band)) 2
      = Fin q2 /\
    np_percentile (filter (fun v => gt v zero) (map nan_to_num blue_band)) 98
      = Fin q98 /\
    (0 < q2)%Q /\ (q2 <= q98)%Q /\
    (gt (Fin q98 - Fin q2)%num zero = false <-> (q2 == q98)%Q).
Proof.
  assert (Hne : filter (fun v => gt v zero) (map nan_to_num blue_band) <> [])
    by (vm_compute; discriminate).
  split; [assumption|].
  exact (@percentiles_ordered blue_band Hne).
Defined.
